(** * keyvaluestorage: the storage engine, embedded in Rocq

    A shallow embedding of package [storage] of
    github.com/aspacca/keyvaluestorage: the [entry] record, the expiration
    test, the in-memory backend ([MemoryStorage]) and the one-file-per-key
    backend ([LocalStorage], called [fileSystemStorage] in the later revision
    of the same file), together with models of the Go library functions the
    package calls (unicode/utf8, path/filepath.Match, encoding/base64,
    encoding/json on [entry], crypto/md5, fmt.Sprintf, strings.Join).

    Conventions.
    - A Go [string] and a Go [[]byte] are both sequences of bytes; both are
      Rocq [string]s (a list of 8-bit [ascii]), so [[]byte(value)] is the
      identity.
    - [int64] and [time.Duration] are [Z] with the two's-complement wrap
      written out ([wrap64]).
    - The wall clock is read through [time.Now().UnixNano()]; every operation
      takes the reading [now : Z] as an explicit argument.
    - An [error] result is [option error], [None] being Go's [nil].
    - An [io.Reader] made by [bytes.NewReader b] is the byte string [b] that
      [ioutil.ReadAll] gets out of it. *)

From Stdlib Require Import ZArith NArith Ascii String List Bool Lia.
From Stdlib Require Import DecimalString DecimalZ DecimalFacts DecimalPos.
From stdpp Require Import gmap strings list sorting.

Local Open Scope Z_scope.

(** ** Bytes, integers, time *)

Definition byte_val (a : ascii) : Z := Z.of_N (N_of_ascii a).
Definition byte_of (z : Z) : ascii := ascii_of_N (Z.to_N z).

Definition MaxInt64 : Z := 9223372036854775807.
Definition MinInt64 : Z := -9223372036854775808.

Definition int64 (z : Z) : Prop := MinInt64 <= z <= MaxInt64.

(** Two's-complement truncation of an integer to 64 bits. *)
Definition wrap64 (z : Z) : Z := (z + 2 ^ 63) mod 2 ^ 64 - 2 ^ 63.

(** ** The errors of the package and of the libraries it calls *)

(** What a system call on the storage directory can answer in this model. *)
Inductive errno : Type := ENOENT | EISDIR | ENOTEMPTY.

Inductive error : Type :=
| NotExistsError                (* var NotExistsError = fmt.Errorf("entry does not exists") *)
| CannotAccess (cause : errno)  (* fmt.Errorf("cannot access storagePath (%s): %s", ...) *)
| PathError (cause : errno)     (* an *os.PathError handed on unchanged *)
| SyntaxError                   (* *json.SyntaxError *)
| UnmarshalTypeError            (* *json.UnmarshalTypeError *)
| CorruptInputError             (* base64.CorruptInputError *)
| ErrBadPattern.                (* filepath.ErrBadPattern *)

#[global] Instance errno_eq_dec : EqDecision errno.
Proof. solve_decision. Defined.

#[global] Instance error_eq_dec : EqDecision error.
Proof. solve_decision. Defined.

(** [func (s *LocalStorage) IsNotExist(err error) bool], the same text in
    both backends. *)
Definition IsNotExist (err : option error) : bool :=
  match err with
  | None => false
  | Some e => bool_decide (e = NotExistsError)
  end.

(** ** [entry], [NoExpiration], [isExpired] *)

Record entry : Type := mkEntry {
  Key : string;
  Value : string;
  Expiration : Z
}.

#[global] Instance entry_eq_dec : EqDecision entry.
Proof. solve_decision. Defined.

(** [const NoExpiration time.Duration = -1] *)
Definition NoExpiration : Z := -1.

(** [func isExpired(expirationTime int64) bool], with the clock reading
    passed in. *)
Definition isExpired (now expirationTime : Z) : bool :=
  (0 <? expirationTime) && (expirationTime <? now).

(** The four lines both [Put]s start with:
    [var newExpiration int64; if expiration != NoExpiration
       { newExpiration = time.Now().Add(expiration).UnixNano() }].
    [Time.Add] is exact on seconds and nanoseconds; [UnixNano] multiplies and
    adds in [int64], which wraps. *)
Definition newExpiration (now expiration : Z) : Z :=
  if bool_decide (expiration <> NoExpiration) then wrap64 (now + expiration) else 0.

(** An [io.Reader]: the bytes it yields. [bytes.NewReader(nil)] yields none. *)
Definition reader : Type := string.
Definition NewReader_nil : reader := "".
Definition NewReader (b : string) : reader := b.

(** ** Go library models: unicode/utf8 *)

Module utf8.

Definition RuneError : Z := 65533. (* U+FFFD *)

Definition continuation (b : Z) : bool := (128 <=? b) && (b <=? 191).

(** [utf8.DecodeRuneInString]: the first rune of [s] and its width in
    bytes; [(RuneError, 0)] on the empty string, [(RuneError, 1)] on an
    invalid or truncated encoding. *)
Definition DecodeRuneInString (s : string) : Z * nat :=
  match s with
  | EmptyString => (RuneError, 0%nat)
  | String a0 s1 =>
    let b0 := byte_val a0 in
    if b0 <? 128 then (b0, 1%nat)
    else if (194 <=? b0) && (b0 <=? 223) then
      match s1 with
      | String a1 _ =>
        let b1 := byte_val a1 in
        if continuation b1
        then (Z.lor (Z.shiftl (Z.land b0 31) 6) (Z.land b1 63), 2%nat)
        else (RuneError, 1%nat)
      | _ => (RuneError, 1%nat)
      end
    else if (224 <=? b0) && (b0 <=? 239) then
      match s1 with
      | String a1 (String a2 _) =>
        let b1 := byte_val a1 in
        let b2 := byte_val a2 in
        let lo := if b0 =? 224 then 160 else 128 in
        let hi := if b0 =? 237 then 159 else 191 in
        if (lo <=? b1) && (b1 <=? hi) && continuation b2
        then (Z.lor (Z.shiftl (Z.land b0 15) 12)
                (Z.lor (Z.shiftl (Z.land b1 63) 6) (Z.land b2 63)), 3%nat)
        else (RuneError, 1%nat)
      | _ => (RuneError, 1%nat)
      end
    else if (240 <=? b0) && (b0 <=? 244) then
      match s1 with
      | String a1 (String a2 (String a3 _)) =>
        let b1 := byte_val a1 in
        let b2 := byte_val a2 in
        let b3 := byte_val a3 in
        let lo := if b0 =? 240 then 144 else 128 in
        let hi := if b0 =? 244 then 143 else 191 in
        if (lo <=? b1) && (b1 <=? hi) && continuation b2 && continuation b3
        then (Z.lor (Z.shiftl (Z.land b0 7) 18)
                (Z.lor (Z.shiftl (Z.land b1 63) 12)
                   (Z.lor (Z.shiftl (Z.land b2 63) 6) (Z.land b3 63))), 4%nat)
        else (RuneError, 1%nat)
      | _ => (RuneError, 1%nat)
      end
    else (RuneError, 1%nat)
  end.

(** [utf8.EncodeRune]; surrogates and out-of-range runes are written as
    U+FFFD. *)
Definition EncodeRune (r : Z) : string :=
  let r := if (r <? 0) || (1114111 <? r) || ((55296 <=? r) && (r <=? 57343))
           then RuneError else r in
  if r <? 128 then String (byte_of r) EmptyString
  else if r <? 2048 then
    String (byte_of (Z.lor 192 (Z.shiftr r 6)))
      (String (byte_of (Z.lor 128 (Z.land r 63))) EmptyString)
  else if r <? 65536 then
    String (byte_of (Z.lor 224 (Z.shiftr r 12)))
      (String (byte_of (Z.lor 128 (Z.land (Z.shiftr r 6) 63)))
         (String (byte_of (Z.lor 128 (Z.land r 63))) EmptyString))
  else
    String (byte_of (Z.lor 240 (Z.shiftr r 18)))
      (String (byte_of (Z.lor 128 (Z.land (Z.shiftr r 12) 63)))
         (String (byte_of (Z.lor 128 (Z.land (Z.shiftr r 6) 63)))
            (String (byte_of (Z.lor 128 (Z.land r 63))) EmptyString))).

End utf8.

(** [s[n:]] *)
Fixpoint string_drop (n : nat) (s : string) : string :=
  match n, s with
  | O, _ => s
  | S n', String _ s' => string_drop n' s'
  | S _, EmptyString => EmptyString
  end.

(** ** Go library models: path/filepath.Match (Unix: separator [/], escape
    character [\]) *)

Module filepath.

Definition Separator : ascii := "/"%char.

(** [len(s) > 0 && s[0] == c] *)
Definition head_is (c : ascii) (s : string) : bool :=
  match s with
  | String x _ => Ascii.eqb x c
  | EmptyString => false
  end.

Fixpoint skip_stars (pattern : string) : bool * string :=
  match pattern with
  | String c rest =>
    if Ascii.eqb c "*"%char then (true, snd (skip_stars rest)) else (false, pattern)
  | EmptyString => (false, pattern)
  end.

(** The [Scan:] loop of [scanChunk]: split at the first [*] outside a
    bracket expression. *)
Fixpoint scan (inrange : bool) (pattern : string) : string * string :=
  match pattern with
  | EmptyString => (EmptyString, EmptyString)
  | String c p1 =>
    if Ascii.eqb c "\"%char then
      match p1 with
      | EmptyString => (String c EmptyString, EmptyString)
      | String d p2 =>
        let '(chunk, rest) := scan inrange p2 in (String c (String d chunk), rest)
      end
    else if Ascii.eqb c "["%char then
      let '(chunk, rest) := scan true p1 in (String c chunk, rest)
    else if Ascii.eqb c "]"%char then
      let '(chunk, rest) := scan false p1 in (String c chunk, rest)
    else if Ascii.eqb c "*"%char && negb inrange then (EmptyString, pattern)
    else
      let '(chunk, rest) := scan inrange p1 in (String c chunk, rest)
  end.

(** [func scanChunk(pattern string) (star bool, chunk, rest string)] *)
Definition scanChunk (pattern : string) : bool * string * string :=
  let '(star, pattern) := skip_stars pattern in
  let '(chunk, rest) := scan false pattern in
  (star, chunk, rest).

(** [func getEsc(chunk string) (r rune, nchunk string, err error)];
    [None] is [ErrBadPattern]. *)
Definition getEsc (chunk : string) : option (Z * string) :=
  match chunk with
  | EmptyString => None
  | String c chunk1 =>
    if Ascii.eqb c "-"%char || Ascii.eqb c "]"%char then None
    else
      let chunk := if Ascii.eqb c "\"%char then chunk1 else chunk in
      match chunk with
      | EmptyString => None
      | _ =>
        let '(r, n) := utf8.DecodeRuneInString chunk in
        let nchunk := string_drop n chunk in
        if (r =? utf8.RuneError) && Nat.eqb n 1 then None
        else if Nat.eqb (String.length nchunk) 0 then None
        else Some (r, nchunk)
      end
  end.

(** The [for] loop that parses the ranges of a bracket expression against
    the rune [r]; yields [match] and the chunk after the closing bracket. *)
Fixpoint ranges (fuel : nat) (r : Z) (chunk : string) (matched : bool) (nrange : nat)
  : option (bool * string) :=
  match fuel with
  | O => None
  | S fuel =>
    if head_is "]"%char chunk && negb (Nat.eqb nrange 0)
    then Some (matched, string_drop 1 chunk)
    else
      match getEsc chunk with
      | None => None
      | Some (lo, chunk1) =>
        if head_is "-"%char chunk1 then
          match getEsc (string_drop 1 chunk1) with
          | None => None
          | Some (hi, chunk2) =>
            ranges fuel r chunk2 (matched || ((lo <=? r) && (r <=? hi))) (S nrange)
          end
        else ranges fuel r chunk1 (matched || ((lo <=? r) && (r <=? lo))) (S nrange)
      end
  end.

(** [func matchChunk(chunk, s string) (rest string, ok bool, err error)];
    [failed] records that the match has failed while the rest of the chunk
    is still checked for syntax. *)
Fixpoint matchChunk_loop (fuel : nat) (failed : bool) (chunk s : string)
  : string * bool * option error :=
  match fuel with
  | O => (EmptyString, false, Some ErrBadPattern)
  | S fuel =>
    match chunk with
    | EmptyString => if failed then (EmptyString, false, None) else (s, true, None)
    | String c chunk1 =>
      let failed := failed || Nat.eqb (String.length s) 0 in
      if Ascii.eqb c "["%char then
        let '(r, s) :=
          if failed then (0, s)
          else let '(r, n) := utf8.DecodeRuneInString s in (r, string_drop n s) in
        let negated := head_is "^"%char chunk1 in
        let chunk2 := if negated then string_drop 1 chunk1 else chunk1 in
        match ranges fuel r chunk2 false 0 with
        | None => (EmptyString, false, Some ErrBadPattern)
        | Some (matched, chunk3) =>
          matchChunk_loop fuel (failed || Bool.eqb matched negated) chunk3 s
        end
      else if Ascii.eqb c "?"%char then
        if failed then matchChunk_loop fuel failed chunk1 s
        else
          let failed := head_is Separator s in
          let '(_, n) := utf8.DecodeRuneInString s in
          matchChunk_loop fuel failed chunk1 (string_drop n s)
      else
        let chunk := if Ascii.eqb c "\"%char then chunk1 else chunk in
        match chunk with
        | EmptyString => (EmptyString, false, Some ErrBadPattern)
        | String d chunk2 =>
          match failed, s with
          | false, String x s1 => matchChunk_loop fuel (negb (Ascii.eqb d x)) chunk2 s1
          | _, _ => matchChunk_loop fuel true chunk2 s
          end
        end
    end
  end.

(** Every turn of the loop consumes at least one byte of the chunk. *)
Definition matchChunk (chunk s : string) : string * bool * option error :=
  matchChunk_loop (S (String.length chunk)) false chunk s.

Fixpoint contains_byte (c : ascii) (s : string) : bool :=
  match s with
  | EmptyString => false
  | String x s' => Ascii.eqb x c || contains_byte c s'
  end.

(** The loop "look for match skipping i+1 bytes" of [Match]. *)
Inductive star_result : Type :=
| StarFound (t : string)
| StarError (e : error)
| StarNone.

Fixpoint star_loop (chunk : string) (last : bool) (name : string) : star_result :=
  match name with
  | EmptyString => StarNone
  | String c name1 =>
    if Ascii.eqb c Separator then StarNone
    else
      let '(t, ok, err) := matchChunk chunk name1 in
      if ok then
        if last && negb (Nat.eqb (String.length t) 0) then star_loop chunk last name1
        else StarFound t
      else
        match err with
        | Some e => StarError e
        | None => star_loop chunk last name1
        end
  end.

(** "Before returning false with no error, check that the remainder of the
    pattern is syntactically valid." *)
Fixpoint check_rest (fuel : nat) (pattern : string) : bool * option error :=
  match pattern with
  | EmptyString => (false, None)
  | _ =>
    match fuel with
    | O => (false, None)
    | S fuel =>
      let '(_, chunk, pattern) := scanChunk pattern in
      match snd (matchChunk chunk EmptyString) with
      | Some e => (false, Some e)
      | None => check_rest fuel pattern
      end
    end
  end.

(** The [Pattern:] loop of [Match]. *)
Fixpoint Match_loop (fuel : nat) (pattern name : string) : bool * option error :=
  match pattern with
  | EmptyString => (Nat.eqb (String.length name) 0, None)
  | _ =>
    match fuel with
    | O => (false, Some ErrBadPattern)
    | S fuel =>
      let '(star, chunk, pattern) := scanChunk pattern in
      if star && Nat.eqb (String.length chunk) 0
      then (negb (contains_byte Separator name), None)
      else
        let '(t, ok, err) := matchChunk chunk name in
        if ok && (Nat.eqb (String.length t) 0 || negb (Nat.eqb (String.length pattern) 0))
        then Match_loop fuel pattern t
        else
          match err with
          | Some e => (false, Some e)
          | None =>
            match (if star
                   then star_loop chunk (Nat.eqb (String.length pattern) 0) name
                   else StarNone) with
            | StarFound t => Match_loop fuel pattern t
            | StarError e => (false, Some e)
            | StarNone => check_rest (String.length pattern) pattern
            end
          end
    end
  end.

(** [func Match(pattern, name string) (matched bool, err error)]. Every
    turn of the [Pattern:] loop consumes at least one byte of the pattern,
    so the length of the pattern bounds the number of turns. *)
Definition Match (pattern name : string) : bool * option error :=
  Match_loop (String.length pattern) pattern name.

(** The malformation [Match] can report lies in a chunk of the pattern:
    some chunk makes [matchChunk] return an error. *)
Fixpoint pattern_error (fuel : nat) (pattern : string) : bool :=
  match pattern with
  | EmptyString => false
  | _ =>
    match fuel with
    | O => true
    | S fuel =>
      let '(_, chunk, pattern) := scanChunk pattern in
      match snd (matchChunk chunk EmptyString) with
      | Some _ => true
      | None => pattern_error fuel pattern
      end
    end
  end.

End filepath.

(** ** fmt.Sprintf and strings.Join as the package uses them *)

Definition dquote : string := String "034"%char EmptyString.

(** [fmt.Sprintf(`{"%s":"%s"}`, entry.Key, entry.Value)]: the verb [%s]
    copies the bytes of a [string] and of a [[]byte] unchanged. *)
Definition Sprintf_object (key value : string) : string :=
  "{" +:+ dquote +:+ key +:+ dquote +:+ ":" +:+ dquote +:+ value +:+ dquote +:+ "}".

(** [fmt.Sprintf("[%s]", strings.Join(ret, ","))] *)
Definition Sprintf_array (ret : list string) : string :=
  "[" +:+ String.concat "," ret +:+ "]".

(** The test both [GetPattern] loops make on a decoded entry:
    [if ok, err := filepath.Match(pattern, entry.Key); !ok || err != nil { continue }]
    followed by [if !isExpired(entry.Expiration) { ret = append(ret, ...) }]. *)
Definition pattern_step (now : Z) (pattern : string) (ret : list string) (e : entry)
  : list string :=
  let '(ok, err) := filepath.Match pattern (Key e) in
  if negb ok || bool_decide (err <> None) then ret
  else if negb (isExpired now (Expiration e))
       then ret ++ [Sprintf_object (Key e) (Value e)]
       else ret.

(** What the two tests of [pattern_step] select: the key matches the
    pattern with no error, and the entry has not expired. *)
Definition matches (pattern key : string) : bool :=
  let '(ok, err) := filepath.Match pattern key in
  ok && bool_decide (err = None).

Definition selected (now : Z) (pattern : string) (e : entry) : bool :=
  matches pattern (Key e) && negb (isExpired now (Expiration e)).

(** The object [GetPattern] writes for an entry. *)
Definition object_of (e : entry) : string := Sprintf_object (Key e) (Value e).

(** ** The in-memory backend (memory.go)

    The struct fields [storageDir], [storageCache], [ticker] and [quit] serve
    the periodic snapshot, which never writes to [data]; the state that the
    operations below read and write is the lock registry and the table.
    Calls are sequential here: every mutex is free when an operation starts
    and when it returns, so the registry is the set of keys that own a
    mutex. The table is a map that has been made, as [NewMemoryStorage]
    leaves it for every cache file but one that holds [null]; the storage
    whose table may be the nil map is [LoadedMemoryStorage] below. *)

Module MemoryStorage.

Record t : Type := mk {
  locks : gset string;
  data : gmap string entry
}.

(** [func (s *MemoryStorage) Type() string] *)
Definition Type_ (s : t) : string := "memory".

(** [func (s *MemoryStorage) lock(key string)]: the mutex is created on
    first use and never removed. *)
Definition lock (key : string) (s : t) : t :=
  mk ({[key]} ∪ locks s) (data s).

Definition unlock (key : string) (s : t) : t := s.
Definition lockAll (s : t) : t := s.
Definition unlockAll (s : t) : t := s.

(** [func (s *MemoryStorage) Get(key string) (io.Reader, error)] *)
Definition Get (now : Z) (key : string) (s : t) : t * reader * option error :=
  let r := NewReader_nil in
  let s := lock key s in
  match data s !! key with
  | None => (unlock key s, r, Some NotExistsError)
  | Some entry =>
    if negb (isExpired now (Expiration entry))
    then (unlock key s, NewReader (Value entry), None)
    else (unlock key s, r, Some NotExistsError)
  end.

(** Go leaves the order in which [for _, entry := range s.data] yields the
    entries unspecified: [visit] is an order of one run if it lists every
    entry of the table exactly once. *)
Definition range_order (s : t) (visit : list (string * entry)) : Prop :=
  visit ≡ₚ map_to_list (data s).

(** [func (s *MemoryStorage) GetPattern(pattern string) (io.Reader, error)],
    for the run that ranges over the table in the order [visit]. *)
Definition GetPattern (now : Z) (pattern : string) (visit : list (string * entry)) (s : t)
  : t * reader * option error :=
  let s := lockAll s in
  let ret := fold_left (fun ret kv => pattern_step now pattern ret (snd kv)) visit [] in
  let r := NewReader (Sprintf_array ret) in
  (unlockAll s, r, None).

(** [func (s *MemoryStorage) Delete(key string) error] *)
Definition Delete (key : string) (s : t) : t * option error :=
  let s := lock key s in
  match data s !! key with
  | None => (unlock key s, Some NotExistsError)
  | Some _ => (unlock key (mk (locks s) (delete key (data s))), None)
  end.

(** [func (s *MemoryStorage) DeleteAll() error]: [delete] for every key
    the [range] yields. *)
Definition DeleteAll (s : t) : t * option error :=
  let s := lockAll s in
  let data' := fold_left (fun m kv => delete (fst kv) m) (map_to_list (data s)) (data s) in
  (unlockAll (mk (locks s) data'), None).

(** [func (s *MemoryStorage) Put(key string, value string, expiration time.Duration) error] *)
Definition Put (now : Z) (key value : string) (expiration : Z) (s : t)
  : t * option error :=
  let s := lock key s in
  let newEntry := mkEntry key value (newExpiration now expiration) in
  (unlock key (mk (locks s) (<[key := newEntry]> (data s))), None).

End MemoryStorage.

(** ** Go library models: encoding/base64 (StdEncoding: the standard
    alphabet, padded with [=]) *)

Module base64.

(** [encodeStd]: the character of a 6-bit value. *)
Definition enc (i : Z) : ascii :=
  if i <? 26 then byte_of (65 + i)
  else if i <? 52 then byte_of (97 + (i - 26))
  else if i <? 62 then byte_of (48 + (i - 52))
  else if i =? 62 then "+"%char
  else "/"%char.

(** The decode map: the 6-bit value of a character of the alphabet. *)
Definition dec (a : ascii) : option Z :=
  let v := byte_val a in
  if (65 <=? v) && (v <=? 90) then Some (v - 65)
  else if (97 <=? v) && (v <=? 122) then Some (v - 97 + 26)
  else if (48 <=? v) && (v <=? 57) then Some (v - 48 + 52)
  else if v =? 43 then Some 62
  else if v =? 47 then Some 63
  else None.

Definition pad : ascii := "="%char.

(** [StdEncoding.EncodeToString] *)
Fixpoint EncodeToString (src : string) : string :=
  match src with
  | EmptyString => EmptyString
  | String x EmptyString =>
    let x := byte_val x in
    String (enc (x / 4)) (String (enc (x mod 4 * 16)) (String pad (String pad EmptyString)))
  | String x (String y EmptyString) =>
    let x := byte_val x in
    let y := byte_val y in
    String (enc (x / 4)) (String (enc (x mod 4 * 16 + y / 16))
      (String (enc (y mod 16 * 4)) (String pad EmptyString)))
  | String x (String y (String z rest)) =>
    let x := byte_val x in
    let y := byte_val y in
    let z := byte_val z in
    String (enc (x / 4)) (String (enc (x mod 4 * 16 + y / 16))
      (String (enc (y mod 16 * 4 + z / 64)) (String (enc (z mod 64))
         (EncodeToString rest))))
  end.

(** The decoder skips carriage returns and line feeds. *)
Fixpoint strip_newlines (s : string) : string :=
  match s with
  | EmptyString => EmptyString
  | String c s' =>
    if Ascii.eqb c "010"%char || Ascii.eqb c "013"%char
    then strip_newlines s'
    else String c (strip_newlines s')
  end.

(** One quantum of four characters at a time; padding is only accepted in
    the last quantum; [None] is [CorruptInputError]. *)
Fixpoint decode_quanta (s : string) : option string :=
  match s with
  | EmptyString => Some EmptyString
  | String a (String b (String c (String d rest))) =>
    match dec a, dec b with
    | Some va, Some vb =>
      let b1 := byte_of (va * 4 + vb / 16) in
      if Ascii.eqb c pad then
        if Ascii.eqb d pad && Nat.eqb (String.length rest) 0
        then Some (String b1 EmptyString)
        else None
      else
        match dec c with
        | None => None
        | Some vc =>
          let b2 := byte_of (vb mod 16 * 16 + vc / 4) in
          if Ascii.eqb d pad then
            if Nat.eqb (String.length rest) 0
            then Some (String b1 (String b2 EmptyString))
            else None
          else
            match dec d with
            | None => None
            | Some vd =>
              let b3 := byte_of (vc mod 4 * 64 + vd) in
              match decode_quanta rest with
              | None => None
              | Some t => Some (String b1 (String b2 (String b3 t)))
              end
            end
        end
    | _, _ => None
    end
  | _ => None
  end.

(** [StdEncoding.DecodeString] *)
Definition DecodeString (s : string) : option string :=
  decode_quanta (strip_newlines s).

End base64.

(** ** Go library models: strconv *)

Module strconv.

(** [strconv.FormatInt(i, 10)] *)
Definition FormatInt (i : Z) : string :=
  DecimalString.NilZero.string_of_int (Z.to_int i).

(** [strconv.ParseInt(s, 10, 64)] on a literal that the JSON scanner has
    accepted as a number (no leading [+], no underscore); [None] is any
    [*NumError]. *)
Definition ParseInt (s : string) : option Z :=
  match DecimalString.NilZero.int_of_string s with
  | Some d =>
    let z := Z.of_int d in
    if (MinInt64 <=? z) && (z <=? MaxInt64) then Some z else None
  | None => None
  end.

(** [strconv.ParseUint(s, 10, 64)] followed by the overflow test for
    [uint8] that the JSON decoder applies to an element of a [[]byte]. *)
Definition ParseUint8 (s : string) : option Z :=
  match DecimalString.NilZero.int_of_string s with
  | Some (Decimal.Pos d) =>
    let z := Z.of_int (Decimal.Pos d) in
    if z <=? 255 then Some z else None
  | _ => None
  end.

End strconv.

(** ** Go library models: encoding/json, on the struct [entry]

    [entry] has the tags [json:"key"], [json:"value"] and
    [json:"expiration"]; its [Value] is a [[]byte], which the encoder writes
    as a base64 string. *)

Module json.

Definition hex (n : Z) : ascii :=
  if n <? 10 then byte_of (48 + n) else byte_of (87 + n).

(** [htmlSafeSet]: the ASCII bytes the encoder copies unchanged. *)
Definition htmlSafe (b : Z) : bool :=
  (32 <=? b) && (b <? 128)
  && negb (b =? 34) && negb (b =? 38) && negb (b =? 60) && negb (b =? 62)
  && negb (b =? 92).

(** The escape of an ASCII byte outside [htmlSafeSet]. *)
Definition escape_byte (a : ascii) : string :=
  let b := byte_val a in
  if (b =? 92) || (b =? 34) then String "\"%char (String a EmptyString)
  else if b =? 10 then "\n"
  else if b =? 13 then "\r"
  else if b =? 9 then "\t"
  else "\u00" +:+ String (hex (b / 16)) (String (hex (b mod 16)) EmptyString).

(** The loop of [encodeState.string] with [escapeHTML] set. [skip] counts
    the bytes of the current rune still to pass over: they are copied when
    [copy] is set (a valid rune, written as it is) and dropped otherwise
    (U+2028 and U+2029, written as an escape). *)
Fixpoint string_loop (skip : nat) (copy : bool) (s : string) : string :=
  match s with
  | EmptyString => EmptyString
  | String a s1 =>
    match skip with
    | S k => if copy then String a (string_loop k copy s1) else string_loop k copy s1
    | O =>
      let b := byte_val a in
      if b <? 128 then
        if htmlSafe b then String a (string_loop 0 true s1)
        else escape_byte a +:+ string_loop 0 true s1
      else
        let '(c, size) := utf8.DecodeRuneInString s in
        if (c =? utf8.RuneError) && Nat.eqb size 1
        then ("\uff" +:+ "fd") +:+ string_loop 0 true s1
        else if (c =? 8232) || (c =? 8233) then
          "\u202" +:+ String (hex (c mod 16)) (string_loop (size - 1) false s1)
        else String a (string_loop (size - 1) true s1)
    end
  end.

Definition encode_string (s : string) : string :=
  dquote +:+ string_loop 0 true s +:+ dquote.

(** What a Go string becomes when the encoder writes it and the decoder
    reads it back: valid UTF-8 is unchanged (U+2028 and U+2029 come back
    from their escapes), every byte that is not part of a valid encoding
    comes back as U+FFFD. [skip] and [copy] are those of [string_loop]. *)
Fixpoint coerce (skip : nat) (copy : bool) (s : string) : string :=
  match s with
  | EmptyString => EmptyString
  | String a s1 =>
    match skip with
    | S k => if copy then String a (coerce k copy s1) else coerce k copy s1
    | O =>
      if byte_val a <? 128 then String a (coerce 0 true s1)
      else
        let '(c, size) := utf8.DecodeRuneInString s in
        if (c =? utf8.RuneError) && Nat.eqb size 1
        then utf8.EncodeRune utf8.RuneError +:+ coerce 0 true s1
        else if (c =? 8232) || (c =? 8233)
             then utf8.EncodeRune c +:+ coerce (size - 1) false s1
             else String a (coerce (size - 1) true s1)
    end
  end.

(** [json.Marshal(newEntry)]; it cannot fail on this struct. *)
Definition Marshal (e : entry) : string :=
  "{" +:+ dquote +:+ "key" +:+ dquote +:+ ":" +:+ encode_string (Key e)
  +:+ "," +:+ dquote +:+ "value" +:+ dquote +:+ ":"
  +:+ dquote +:+ base64.EncodeToString (Value e) +:+ dquote
  +:+ "," +:+ dquote +:+ "expiration" +:+ dquote +:+ ":"
  +:+ strconv.FormatInt (Expiration e) +:+ "}".

(** *** Decoding: a JSON value *)

#[warnings="-register-all"] Inductive value : Type :=
| Null
| Bool (b : bool)
| Number (lit : string)
| Str (s : string)
| Array (l : list value)
| Object (l : list (string * value)).

Definition is_space (c : ascii) : bool :=
  Ascii.eqb c " "%char || Ascii.eqb c "009"%char
  || Ascii.eqb c "010"%char || Ascii.eqb c "013"%char.

Fixpoint skip_space (s : string) : string :=
  match s with
  | String c s' => if is_space c then skip_space s' else s
  | EmptyString => s
  end.

Definition is_digit (c : ascii) : bool :=
  let v := byte_val c in (48 <=? v) && (v <=? 57).

Definition hexval (c : ascii) : option Z :=
  let v := byte_val c in
  if (48 <=? v) && (v <=? 57) then Some (v - 48)
  else if (97 <=? v) && (v <=? 102) then Some (v - 87)
  else if (65 <=? v) && (v <=? 70) then Some (v - 55)
  else None.

(** [getu4], on the four characters after a backslash and [u]. *)
Definition getu4 (h1 h2 h3 h4 : ascii) : option Z :=
  match hexval h1, hexval h2, hexval h3, hexval h4 with
  | Some a, Some b, Some c, Some d => Some (((a * 16 + b) * 16 + c) * 16 + d)
  | _, _, _, _ => None
  end.

(** [utf16.IsSurrogate] and [utf16.DecodeRune] *)
Definition IsSurrogate (r : Z) : bool := (55296 <=? r) && (r <? 57344).
Definition utf16_DecodeRune (r1 r2 : Z) : Z :=
  if (55296 <=? r1) && (r1 <? 56320) && (56320 <=? r2) && (r2 <? 57344)
  then (r1 - 55296) * 1024 + (r2 - 56320) + 65536
  else utf8.RuneError.

Definition emit (t : string) (k : option (string * string)) : option (string * string) :=
  match k with
  | Some (u, rest) => Some (t +:+ u, rest)
  | None => None
  end.

(** A string literal after its opening quote: the scanner's rules (no raw
    control character, only the escapes of the grammar) together with
    [unquote]. Yields the decoded string and the input after the closing
    quote. *)
Fixpoint unquote_body (skip : nat) (s : string) : option (string * string) :=
  match s with
  | EmptyString => None
  | String a s1 =>
    match skip with
    | S k => emit (String a EmptyString) (unquote_body k s1)
    | O =>
      let b := byte_val a in
      if b =? 34 then Some (EmptyString, s1)
      else if b =? 92 then
        match s1 with
        | EmptyString => None
        | String e s2 =>
          let v := byte_val e in
          if (v =? 34) || (v =? 92) || (v =? 47)
          then emit (String e EmptyString) (unquote_body 0 s2)
          else if v =? 98 then emit (String "008"%char EmptyString) (unquote_body 0 s2)
          else if v =? 102 then emit (String "012"%char EmptyString) (unquote_body 0 s2)
          else if v =? 110 then emit (String "010"%char EmptyString) (unquote_body 0 s2)
          else if v =? 114 then emit (String "013"%char EmptyString) (unquote_body 0 s2)
          else if v =? 116 then emit (String "009"%char EmptyString) (unquote_body 0 s2)
          else if v =? 117 then
            match s2 with
            | String h1 (String h2 (String h3 (String h4 s6))) =>
              match getu4 h1 h2 h3 h4 with
              | None => None
              | Some rr =>
                if IsSurrogate rr then
                  match s6 with
                  | String "\"%char (String "u"%char
                      (String g1 (String g2 (String g3 (String g4 s12))))) =>
                    match getu4 g1 g2 g3 g4 with
                    | Some rr1 =>
                      let d := utf16_DecodeRune rr rr1 in
                      if d =? utf8.RuneError
                      then emit (utf8.EncodeRune utf8.RuneError) (unquote_body 0 s6)
                      else emit (utf8.EncodeRune d) (unquote_body 0 s12)
                    | None => emit (utf8.EncodeRune utf8.RuneError) (unquote_body 0 s6)
                    end
                  | _ => emit (utf8.EncodeRune utf8.RuneError) (unquote_body 0 s6)
                  end
                else emit (utf8.EncodeRune rr) (unquote_body 0 s6)
              end
            | _ => None
            end
          else None
        end
      else if b <? 32 then None
      else if b <? 128 then emit (String a EmptyString) (unquote_body 0 s1)
      else
        let '(c, size) := utf8.DecodeRuneInString s in
        if (c =? utf8.RuneError) && Nat.eqb size 1
        then emit (utf8.EncodeRune utf8.RuneError) (unquote_body 0 s1)
        else emit (String a EmptyString) (unquote_body (size - 1) s1)
    end
  end.

(** Number literals: the longest run of characters that can occur in a
    number, which must then follow the grammar: an optional minus sign; a
    single zero, or a non-zero digit followed by digits; optionally a dot
    and one or more digits; optionally [e] or [E], an optional sign and one
    or more digits. *)
Definition is_numchar (c : ascii) : bool :=
  is_digit c || Ascii.eqb c "-"%char || Ascii.eqb c "+"%char
  || Ascii.eqb c "."%char || Ascii.eqb c "e"%char || Ascii.eqb c "E"%char.

Fixpoint span_num (s : string) : string * string :=
  match s with
  | String c s' =>
    if is_numchar c then let '(lit, rest) := span_num s' in (String c lit, rest)
    else (EmptyString, s)
  | EmptyString => (EmptyString, EmptyString)
  end.

Fixpoint skip_digits (s : string) : string :=
  match s with
  | String c s' => if is_digit c then skip_digits s' else s
  | EmptyString => s
  end.

Definition valid_exp (s : string) : bool :=
  match s with
  | EmptyString => true
  | String c s1 =>
    if Ascii.eqb c "e"%char || Ascii.eqb c "E"%char then
      let s2 :=
        match s1 with
        | String x s2 => if Ascii.eqb x "+"%char || Ascii.eqb x "-"%char then s2 else s1
        | EmptyString => s1
        end in
      match s2 with
      | String d s3 => is_digit d && Nat.eqb (String.length (skip_digits s3)) 0
      | EmptyString => false
      end
    else false
  end.

Definition valid_frac (s : string) : bool :=
  match s with
  | String "."%char (String d s2) => is_digit d && valid_exp (skip_digits s2)
  | String "."%char EmptyString => false
  | _ => valid_exp s
  end.

Definition valid_int (s : string) : bool :=
  match s with
  | String c s1 =>
    if Ascii.eqb c "0"%char then valid_frac s1
    else if is_digit c then valid_frac (skip_digits s1)
    else false
  | EmptyString => false
  end.

Definition valid_number (s : string) : bool :=
  match s with
  | String "-"%char s1 => valid_int s1
  | _ => valid_int s
  end.

(** The scanner and the value decoder as one recursive-descent parser.
    [fuel] bounds the nesting; every call consumes input, so the length of
    the input is enough. *)
Fixpoint parse_value (fuel : nat) (s : string) : option (value * string) :=
  match fuel with
  | O => None
  | S fuel =>
    match skip_space s with
    | EmptyString => None
    | String c s1 =>
      if Ascii.eqb c "{"%char then
        match skip_space s1 with
        | String "}"%char s2 => Some (Object [], s2)
        | _ =>
          match parse_members fuel s1 with
          | Some (l, rest) => Some (Object l, rest)
          | None => None
          end
        end
      else if Ascii.eqb c "["%char then
        match skip_space s1 with
        | String "]"%char s2 => Some (Array [], s2)
        | _ =>
          match parse_elements fuel s1 with
          | Some (l, rest) => Some (Array l, rest)
          | None => None
          end
        end
      else if Ascii.eqb c "034"%char then
        match unquote_body 0 s1 with
        | Some (t, rest) => Some (Str t, rest)
        | None => None
        end
      else if Ascii.eqb c "t"%char then
        match s1 with
        | String "r"%char (String "u"%char (String "e"%char rest)) => Some (Bool true, rest)
        | _ => None
        end
      else if Ascii.eqb c "f"%char then
        match s1 with
        | String "a"%char (String "l"%char (String "s"%char (String "e"%char rest))) =>
          Some (Bool false, rest)
        | _ => None
        end
      else if Ascii.eqb c "n"%char then
        match s1 with
        | String "u"%char (String "l"%char (String "l"%char rest)) => Some (Null, rest)
        | _ => None
        end
      else if is_digit c || Ascii.eqb c "-"%char then
        let '(lit, rest) := span_num (String c s1) in
        if valid_number lit then Some (Number lit, rest) else None
      else None
    end
  end
with parse_members (fuel : nat) (s : string) : option (list (string * value) * string) :=
  match fuel with
  | O => None
  | S fuel =>
    match skip_space s with
    | String "034"%char s1 =>
      match unquote_body 0 s1 with
      | Some (k, s2) =>
        match skip_space s2 with
        | String ":"%char s3 =>
          match parse_value fuel s3 with
          | Some (v, s4) =>
            match skip_space s4 with
            | String ","%char s5 =>
              match parse_members fuel s5 with
              | Some (l, rest) => Some ((k, v) :: l, rest)
              | None => None
              end
            | String "}"%char s5 => Some ([(k, v)], s5)
            | _ => None
            end
          | None => None
          end
        | _ => None
        end
      | None => None
      end
    | _ => None
    end
  end
with parse_elements (fuel : nat) (s : string) : option (list value * string) :=
  match fuel with
  | O => None
  | S fuel =>
    match parse_value fuel s with
    | Some (v, s1) =>
      match skip_space s1 with
      | String ","%char s2 =>
        match parse_elements fuel s2 with
        | Some (l, rest) => Some (v :: l, rest)
        | None => None
        end
      | String "]"%char s2 => Some ([v], s2)
      | _ => None
      end
    | None => None
    end
  end.

(** [checkValid] and the scan of the whole input: one value, then only
    white space. *)
Definition parse (data : string) : option value :=
  match parse_value (S (String.length data)) data with
  | Some (v, rest) =>
    if Nat.eqb (String.length (skip_space rest)) 0 then Some v else None
  | None => None
  end.

(** *** Decoding into [entry] *)

(** Object keys select a field by an exact match or else by a match under
    simple case folding; the only non-ASCII character that folds to a
    letter of ["key"], ["value"] or ["expiration"] is the Kelvin sign
    U+212A (bytes E2 84 AA), which folds to [k]. *)
Definition lower (c : ascii) : ascii :=
  let v := byte_val c in
  if (65 <=? v) && (v <=? 90) then byte_of (v + 32) else c.

Fixpoint fold_name (s : string) : string :=
  match s with
  | String "226"%char (String "132"%char (String "170"%char s')) =>
    String "k"%char (fold_name s')
  | String c s' => String (lower c) (fold_name s')
  | EmptyString => EmptyString
  end.

Definition field_is (name key : string) : bool :=
  String.eqb key name || String.eqb (fold_name key) name.

(** The first error met is the one [Unmarshal] returns ([saveError]). *)
Definition saveError (saved : option error) (e : error) : option error :=
  match saved with
  | Some _ => saved
  | None => Some e
  end.

(** An element of a JSON array decoded into a [uint8]. *)
Definition decode_uint8 (v : value) : option Z :=
  match v with
  | Number lit => strconv.ParseUint8 lit
  | Null => Some 0
  | _ => None
  end.

Fixpoint decode_bytes (l : list value) (saved : option error) : string * option error :=
  match l with
  | [] => (EmptyString, saved)
  | v :: l' =>
    match decode_uint8 v with
    | Some z =>
      let '(t, saved) := decode_bytes l' saved in (String (byte_of z) t, saved)
    | None =>
      let '(t, saved) := decode_bytes l' (saveError saved UnmarshalTypeError) in
      (String (byte_of 0) t, saved)
    end
  end.

(** One [key: value] member stored into the struct. *)
Definition decode_member (st : entry * option error) (kv : string * value)
  : entry * option error :=
  let '(e, saved) := st in
  let '(k, v) := kv in
  if field_is "key" k then
    match v with
    | Str s => (mkEntry s (Value e) (Expiration e), saved)
    | Null => (e, saved)
    | _ => (e, saveError saved UnmarshalTypeError)
    end
  else if field_is "value" k then
    match v with
    | Str s =>
      match base64.DecodeString s with
      | Some b => (mkEntry (Key e) b (Expiration e), saved)
      | None => (e, saveError saved CorruptInputError)
      end
    | Null => (mkEntry (Key e) EmptyString (Expiration e), saved)
    | Array l =>
      let '(b, saved) := decode_bytes l saved in
      (mkEntry (Key e) b (Expiration e), saved)
    | _ => (e, saveError saved UnmarshalTypeError)
    end
  else if field_is "expiration" k then
    match v with
    | Number lit =>
      match strconv.ParseInt lit with
      | Some z => (mkEntry (Key e) (Value e) z, saved)
      | None => (e, saveError saved UnmarshalTypeError)
      end
    | Null => (e, saved)
    | _ => (e, saveError saved UnmarshalTypeError)
    end
  else (e, saved).

(** [var entry entry; err = json.Unmarshal(b, &entry)]: the struct starts
    from its zero value; the result is the error or, when there is none,
    the struct. *)
Definition Unmarshal (data : string) : error + entry :=
  match parse data with
  | None => inl SyntaxError
  | Some Null => inr (mkEntry EmptyString EmptyString 0)
  | Some (Object l) =>
    match fold_left decode_member l (mkEntry EmptyString EmptyString 0, None) with
    | (e, None) => inr e
    | (_, Some err) => inl err
    end
  | Some _ => inl UnmarshalTypeError
  end.

End json.

(** ** Go library models: crypto/md5 (RFC 1321) *)

Module md5.

Definition add32 (a b : Z) : Z := (a + b) mod 2 ^ 32.
Definition not32 (x : Z) : Z := Z.lxor x 4294967295.
Definition rotl32 (x n : Z) : Z :=
  Z.lor (Z.shiftl x n mod 2 ^ 32) (Z.shiftr x (32 - n)).

(** The per-round shift amounts and the table of [floor(2^32 * |sin(i+1)|)]. *)
Definition shifts : list Z :=
  [ 7; 12; 17; 22; 7; 12; 17; 22; 7; 12; 17; 22; 7; 12; 17; 22;
    5; 9; 14; 20; 5; 9; 14; 20; 5; 9; 14; 20; 5; 9; 14; 20;
    4; 11; 16; 23; 4; 11; 16; 23; 4; 11; 16; 23; 4; 11; 16; 23;
    6; 10; 15; 21; 6; 10; 15; 21; 6; 10; 15; 21; 6; 10; 15; 21 ].

Definition table : list Z :=
  [
    3614090360; 3905402710; 606105819; 3250441966;
    4118548399; 1200080426; 2821735955; 4249261313;
    1770035416; 2336552879; 4294925233; 2304563134;
    1804603682; 4254626195; 2792965006; 1236535329;
    4129170786; 3225465664; 643717713; 3921069994;
    3593408605; 38016083; 3634488961; 3889429448;
    568446438; 3275163606; 4107603335; 1163531501;
    2850285829; 4243563512; 1735328473; 2368359562;
    4294588738; 2272392833; 1839030562; 4259657740;
    2763975236; 1272893353; 4139469664; 3200236656;
    681279174; 3936430074; 3572445317; 76029189;
    3654602809; 3873151461; 530742520; 3299628645;
    4096336452; 1126891415; 2878612391; 4237533241;
    1700485571; 2399980690; 4293915773; 2240044497;
    1873313359; 4264355552; 2734768916; 1309151649;
    4149444226; 3174756917; 718787259; 3951481745 ].

(** The message bytes followed by the padding: a [0x80] byte, zeros up to
    56 modulo 64, and the bit length as a little-endian 64-bit integer. *)
Fixpoint bytes_of (s : string) : list Z :=
  match s with
  | EmptyString => []
  | String a s' => byte_val a :: bytes_of s'
  end.

Definition le_bytes (n : nat) (x : Z) : list Z :=
  List.map (fun i => Z.shiftr x (8 * Z.of_nat i) mod 256) (seq 0 n).

Definition padded (s : string) : list Z :=
  let len := Z.of_nat (String.length s) in
  let zeros := Z.to_nat ((55 - len) mod 64) in
  bytes_of s ++ [128] ++ List.repeat 0 zeros ++ le_bytes 8 ((len * 8) mod 2 ^ 64).

(** A little-endian 32-bit word from four bytes. *)
Fixpoint words (bs : list Z) : list Z :=
  match bs with
  | b0 :: b1 :: b2 :: b3 :: bs' =>
    (b0 + 256 * (b1 + 256 * (b2 + 256 * b3))) :: words bs'
  | _ => []
  end.

Definition step (M : list Z) (st : Z * Z * Z * Z) (i : nat) : Z * Z * Z * Z :=
  let '(a, b, c, d) := st in
  let '(f, g) :=
    if (i <? 16)%nat then (Z.lor (Z.land b c) (Z.land (not32 b) d), i)
    else if (i <? 32)%nat then (Z.lor (Z.land d b) (Z.land (not32 d) c), ((5 * i + 1) mod 16)%nat)
    else if (i <? 48)%nat then (Z.lxor b (Z.lxor c d), ((3 * i + 5) mod 16)%nat)
    else (Z.lxor c (Z.lor b (not32 d)), ((7 * i) mod 16)%nat) in
  let f := add32 (add32 (add32 f a) (nth i table 0)) (nth g M 0) in
  (d, add32 b (rotl32 f (nth i shifts 0)), b, c).

Definition block (st : Z * Z * Z * Z) (bs : list Z) : Z * Z * Z * Z :=
  let '(sa, sb, sc, sd) := st in
  let '(a, b, c, d) := fold_left (step (words bs)) (seq 0 64) st in
  (add32 sa a, add32 sb b, add32 sc c, add32 sd d).

Fixpoint blocks (n : nat) (st : Z * Z * Z * Z) (bs : list Z) : Z * Z * Z * Z :=
  match n with
  | O => st
  | S n' => blocks n' (block st (firstn 64 bs)) (skipn 64 bs)
  end.

(** [md5.Sum(data)]: the sixteen bytes of the digest. *)
Definition Sum (data : string) : list Z :=
  let bs := padded data in
  let '(a, b, c, d) :=
    blocks (Nat.div (List.length bs) 64)
      (1732584193, 4023233417, 2562383102, 271733878) bs in
  le_bytes 4 a ++ le_bytes 4 b ++ le_bytes 4 c ++ le_bytes 4 d.

End md5.

(** [fmt.Sprintf("%x", ...)] of a byte array: two lower-case hexadecimal
    digits per byte. *)
Fixpoint Sprintf_x (bs : list Z) : string :=
  match bs with
  | [] => EmptyString
  | b :: bs' => String (json.hex (b / 16)) (String (json.hex (b mod 16)) (Sprintf_x bs'))
  end.

(** [func md5Hash(s string) string] *)
Definition md5Hash (s : string) : string := Sprintf_x (md5.Sum s).

(** ** The storage directory

    The state of the durable backend is the content of [storageDir]: a name
    is free, a regular file with its bytes, or a subdirectory (empty or not).
    [os.Mkdir(storageDir, 0700)] succeeds or reports that the directory
    exists; both continue, so a missing directory is the empty one. Faults
    of the medium (permissions, a full disk) are outside the model: the
    system calls fail only for the reasons the directory content gives. *)

Inductive node : Type :=
| RegularFile (content : string)
| Directory (empty : bool).

Module os.

(** [os.OpenFile(path, os.O_RDWR|os.O_CREATE, 0600)]: the open file is
    identified by its name. *)
Definition OpenFile_RDWR_CREATE (name : string) (d : gmap string node)
  : gmap string node * (errno + string) :=
  match d !! name with
  | None => (<[name := RegularFile EmptyString]> d, inr name)
  | Some (RegularFile _) => (d, inr name)
  | Some (Directory _) => (d, inl EISDIR)
  end.

(** [os.OpenFile(path, os.O_RDONLY, 0600)] *)
Definition OpenFile_RDONLY (name : string) (d : gmap string node) : errno + string :=
  match d !! name with
  | None => inl ENOENT
  | Some _ => inr name
  end.

(** [f.Truncate(0)] *)
Definition Truncate0 (f : string) (d : gmap string node) : gmap string node * option errno :=
  match d !! f with
  | Some (RegularFile _) => (<[f := RegularFile EmptyString]> d, None)
  | _ => (d, Some EISDIR)
  end.

(** [f.Write(data)] at offset 0, where [f.Seek(0, 0)] has put the file. *)
Definition Write0 (f data : string) (d : gmap string node)
  : gmap string node * option errno :=
  match d !! f with
  | Some (RegularFile old) =>
    (<[f := RegularFile (data +:+ string_drop (String.length data) old)]> d, None)
  | _ => (d, Some EISDIR)
  end.

(** [ioutil.ReadAll(f)] from offset 0 *)
Definition ReadAll (f : string) (d : gmap string node) : string * option errno :=
  match d !! f with
  | Some (RegularFile content) => (content, None)
  | _ => (EmptyString, Some EISDIR)
  end.

(** [os.Remove(path)]: unlink, or rmdir for an empty directory. *)
Definition Remove (name : string) (d : gmap string node) : gmap string node * option errno :=
  match d !! name with
  | None => (d, Some ENOENT)
  | Some (RegularFile _) => (delete name d, None)
  | Some (Directory true) => (delete name d, None)
  | Some (Directory false) => (d, Some ENOTEMPTY)
  end.

(** [os.IsNotExist(err)] *)
Definition IsNotExist (e : errno) : bool := bool_decide (e = ENOENT).

(** [list[i].Name() < list[j].Name()], made reflexive for the merge. *)
Definition name_le (x y : string * node) : Prop := String.leb (fst x) (fst y) = true.

#[global] Instance name_le_dec : RelDecision name_le.
Proof. intros x y. unfold name_le. apply _. Defined.

(** [ioutil.ReadDir(dir)]: the directory entries sorted by file name. *)
Definition ReadDir (d : gmap string node) : list (string * node) :=
  merge_sort name_le (map_to_list d).

End os.

(** ** The one-file-per-key backend (storage.go) *)

Module LocalStorage.

Record t : Type := mk {
  locks : gset string;
  files : gmap string node
}.

(** [func (s *LocalStorage) Type() string] *)
Definition Type_ (s : t) : string := "local".

(** [func (s *LocalStorage) lock(key string)], as in the in-memory backend. *)
Definition lock (key : string) (s : t) : t :=
  mk ({[key]} ∪ locks s) (files s).

(** [defer s.unlock(key)] releases the mutex and leaves the registry and
    the directory as they are: the operations below return the state of
    their last step. *)
Definition unlock (key : string) (s : t) : t := s.
Definition lockAll (s : t) : t := s.
Definition unlockAll (s : t) : t := s.

(** [func getWriter(storageDir string, fileName string)], returning an open file or an error *)
Definition getWriter (fileName : string) (d : gmap string node)
  : gmap string node * (error + string) :=
  match os.OpenFile_RDWR_CREATE fileName d with
  | (d, inl e) => (d, inl (CannotAccess e))
  | (d, inr f) => (d, inr f)
  end.

(** [func getReader(storageDir string, fileName string)], returning an open file or an error *)
Definition getReader (fileName : string) (d : gmap string node) : error + string :=
  match os.OpenFile_RDONLY fileName d with
  | inl e => if os.IsNotExist e then inl NotExistsError else inl (CannotAccess e)
  | inr f => inr f
  end.

(** [func (s *LocalStorage) getAllStorageKeys() ([]string, error)] *)
Definition getAllStorageKeys (s : t) : list string * option error :=
  let files := os.ReadDir (files s) in
  let r :=
    fold_left
      (fun r file =>
         match snd file with
         | Directory _ => r
         | RegularFile _ => r ++ [fst file]
         end)
      files [] in
  (r, None).

(** [func (s *LocalStorage) getStorageData(key string) ([]byte, error)];
    [f.Sync()] and [f.Seek(0, 0)] succeed on an open file. *)
Definition getStorageData (key : string) (s : t) : string * option error :=
  match getReader key (files s) with
  | inl err => (EmptyString, Some err)
  | inr f =>
    match os.ReadAll f (files s) with
    | (b, Some e) => (b, Some (PathError e))
    | (b, None) => (b, None)
    end
  end.

(** [func (s *LocalStorage) deleteStorage(key string) error] *)
Definition deleteStorage (key : string) (s : t) : t * option error :=
  match os.Remove key (files s) with
  | (d, Some e) =>
    if negb (os.IsNotExist e) then (mk (locks s) d, Some (PathError e))
    else (mk (locks s) d, Some NotExistsError)
  | (d, None) => (mk (locks s) d, None)
  end.

(** [func (s *LocalStorage) dumpToStorage(key string, data []byte) error];
    [f.Seek(0, 0)] and [f.Sync()] succeed on an open file. On the medium of
    the model a call that fails fails at the open, before the file is
    touched; a failure of [Truncate], [Write] or [Sync], which the source
    reports after the file has been cut to length zero, is a fault of the
    medium and outside the model. *)
Definition dumpToStorage (key data : string) (s : t) : t * option error :=
  let key := md5Hash key in
  match getWriter key (files s) with
  | (d, inl err) => (mk (locks s) d, Some err)
  | (d, inr f) =>
    match os.Truncate0 f d with
    | (d, Some e) => (mk (locks s) d, Some (PathError e))
    | (d, None) =>
      match os.Write0 f data d with
      | (d, Some e) => (mk (locks s) d, Some (PathError e))
      | (d, None) => (mk (locks s) d, None)
      end
    end
  end.

(** [func (s *LocalStorage) Get(key string) (io.Reader, error)] *)
Definition Get (now : Z) (key : string) (s : t) : t * reader * option error :=
  let r := NewReader_nil in
  let s := lock key s in
  let key := md5Hash key in
  match getStorageData key s with
  | (_, Some err) => (s, r, Some err)
  | (b, None) =>
    if Nat.eqb (String.length b) 0 then (s, r, Some NotExistsError)
    else
      match json.Unmarshal b with
      | inl err => (s, r, Some err)
      | inr entry =>
        if negb (isExpired now (Expiration entry))
        then (s, NewReader (Value entry), None)
        else (s, r, Some NotExistsError)
      end
  end.

(** The body of the loop of [GetPattern] for one file name. *)
Definition GetPattern_step (now : Z) (pattern : string) (s : t)
  (ret : list string) (key : string) : list string :=
  match getStorageData key s with
  | (_, Some _) => ret
  | (b, None) =>
    if Nat.eqb (String.length b) 0 then ret
    else
      match json.Unmarshal b with
      | inl _ => ret
      | inr entry => pattern_step now pattern ret entry
      end
  end.

(** The entry a file name contributes to a scan: the decoded content of
    the file, when it can be read, is not empty and decodes. *)
Definition stored_entry (s : t) (key : string) : option entry :=
  match getStorageData key s with
  | (_, Some _) => None
  | (b, None) =>
    if Nat.eqb (String.length b) 0 then None
    else
      match json.Unmarshal b with
      | inl _ => None
      | inr entry => Some entry
      end
  end.

(** [func (s *LocalStorage) GetPattern(pattern string) (io.Reader, error)] *)
Definition GetPattern (now : Z) (pattern : string) (s : t) : t * reader * option error :=
  let r := NewReader_nil in
  let s := lockAll s in
  match getAllStorageKeys s with
  | (_, Some err) => (unlockAll s, r, Some err)
  | (keys, None) =>
    let ret := fold_left (GetPattern_step now pattern s) keys [] in
    let r := NewReader (Sprintf_array ret) in
    (unlockAll s, r, None)
  end.

(** [func (s *LocalStorage) Delete(key string) error] *)
Definition Delete (key : string) (s : t) : t * option error :=
  let s := lock key s in
  let key := md5Hash key in
  deleteStorage key s.

(** [func (s *LocalStorage) DeleteAll() error] *)
Definition DeleteAll (s : t) : t * option error :=
  let s := lockAll s in
  match getAllStorageKeys s with
  | (_, Some err) => (unlockAll s, Some err)
  | (keys, None) =>
    (unlockAll (fold_left (fun s key => fst (deleteStorage key s)) keys s), None)
  end.

(** [func (s *LocalStorage) Put(key string, value string, expiration time.Duration) error] *)
Definition Put (now : Z) (key value : string) (expiration : Z) (s : t)
  : t * option error :=
  let s := lock key s in
  let newEntry := mkEntry key value (newExpiration now expiration) in
  let dumped := json.Marshal newEntry in
  dumpToStorage key dumped s.

End LocalStorage.

(** ** Character classes used in the statements about the codec *)

Fixpoint string_forall (P : ascii -> bool) (s : string) : bool :=
  match s with
  | EmptyString => true
  | String c s' => P c && string_forall P s'
  end.

(** A printable ASCII character other than the quote and the backslash: the
    JSON decoder copies it from a string literal as it is. *)
Definition plain (c : ascii) : bool :=
  let v := byte_val c in
  (32 <=? v) && (v <? 128) && negb (v =? 34) && negb (v =? 92).

(** ** The errors [json.Unmarshal] can return *)

Definition decode_error (err : error) : Prop :=
  err = SyntaxError \/ err = UnmarshalTypeError \/ err = CorruptInputError.

(** The error saved so far while a struct is decoded, if any, is one of
    them. *)
Definition saved_ok (saved : option error) : Prop :=
  forall err, saved = Some err -> decode_error err.

(** ** Character classes used in the statements about file names and patterns *)

(** A digit or a letter from [a] to [f]: what the verb [%x] prints. *)
Definition lower_hex (c : ascii) : bool :=
  let v := byte_val c in
  ((48 <=? v) && (v <=? 57)) || ((97 <=? v) && (v <=? 102)).

(** A character that [filepath.Match] gives a meaning of its own in a
    pattern: the star, the question mark, the opening bracket and the
    backslash. *)
Definition meta (c : ascii) : bool :=
  Ascii.eqb c "*"%char || Ascii.eqb c "?"%char || Ascii.eqb c "["%char || Ascii.eqb c "\"%char.

(** A pattern in which no character has a meaning of its own. *)
Definition literal (p : string) : bool := string_forall (fun c => negb (meta c)) p.

(** ** An invariant of the in-memory table *)

(** Every entry of the table is stored under its own key: [Put] is the only
    operation that adds an entry, and it builds the entry from the key it
    stores it under. (A table loaded by [NewMemoryStorage] holds whatever
    the cache file holds.) *)
Definition keyed (s : MemoryStorage.t) : Prop :=
  forall (k : string) (e : entry), MemoryStorage.data s !! k = Some e -> Key e = k.

(** ** The HTTP layer (package [http]: handlers.go)

    A handler is a function from the request and the state of the storage
    to the new state and the response that the [http.ResponseWriter] has
    recorded when the handler returns. The calls of the logger are left
    out: they change neither the storage nor the response. *)

Module http.

(** The [storage.Storage] interface, as the handlers use it. The clock
    reading is that of the storage call. *)
Record Storage (St : Type) : Type := mkStorage {
  Put : Z -> string -> string -> Z -> St -> St * option error;
  Get : Z -> string -> St -> St * reader * option error;
  GetPattern : Z -> string -> St -> St * reader * option error;
  Delete : string -> St -> St * option error;
  DeleteAll : St -> St * option error;
  IsNotExist : option error -> bool
}.

Arguments Put {St}.
Arguments Get {St}.
Arguments GetPattern {St}.
Arguments Delete {St}.
Arguments DeleteAll {St}.
Arguments IsNotExist {St}.

(** What the handlers read of a request: [mux.Vars(req)["id"]] (empty on a
    route without [{id}]), [req.FormValue("filter")],
    [req.FormValue("expire_in")], and the result of
    [ioutil.ReadAll(req.Body)], [None] when it returns an error. *)
Record request : Type := mkRequest {
  id : string;
  filter : string;
  expire_in : string;
  Body : option string
}.

(** The response: the status code, the headers the handler has set, in the
    order of the calls, and the bytes written. *)
Record response : Type := mkResponse {
  Code : Z;
  Header : list (string * string);
  Written : string
}.

Definition StatusOK : Z := 200.
Definition StatusNoContent : Z := 204.
Definition StatusBadRequest : Z := 400.
Definition StatusNotFound : Z := 404.
Definition StatusInternalServerError : Z := 500.

(** [http.StatusText(code)] for the codes the handlers use. *)
Definition StatusText (code : Z) : string :=
  if code =? 200 then "OK"
  else if code =? 204 then "No Content"
  else if code =? 400 then "Bad Request"
  else if code =? 404 then "Not Found"
  else if code =? 500 then "Internal Server Error"
  else "".

(** [http.Error(w, error, code)] on a writer nothing has been written to:
    the two headers, the status, then [fmt.Fprintln(w, error)]. *)
Definition Error (error : string) (code : Z) : response :=
  mkResponse code
    [("Content-Type"%string, "text/plain; charset=utf-8"%string);
     ("X-Content-Type-Options"%string, "nosniff"%string)]
    (error +:+ String "010"%char EmptyString).

(** [w.WriteHeader(code)] and nothing else. *)
Definition WriteHeader (code : Z) : response := mkResponse code [] EmptyString.

(** [time.Second], in nanoseconds. *)
Definition Second : Z := 1000000000.

(** The digits of [strconv.Atoi]: [n = n*10 + int(ch)], [None] at a
    character that is not a digit. *)
Fixpoint digits (n : Z) (s : string) : option Z :=
  match s with
  | EmptyString => Some n
  | String ch s' =>
    let v := byte_val ch - 48 in
    if (0 <=? v) && (v <=? 9) then digits (n * 10 + v) s' else None
  end.

(** [strconv.Atoi(s)] where [int] has 64 bits: an optional sign and one or
    more decimal digits, of a value in the range of [int]; [None] is any
    [*NumError] (syntax or range). *)
Definition Atoi (s : string) : option Z :=
  match s with
  | EmptyString => None
  | String c s1 =>
    let neg := Ascii.eqb c "-"%char in
    let ds := if Ascii.eqb c "-"%char || Ascii.eqb c "+"%char then s1 else s in
    if Nat.eqb (String.length ds) 0 then None
    else
      match digits 0 ds with
      | None => None
      | Some n =>
        let v := if neg then - n else n in
        if (MinInt64 <=? v) && (v <=? MaxInt64) then Some v else None
      end
  end.

(** [ioutil.ReadAll(r)] on the [*bytes.Reader] the storage returns: all the
    bytes and a nil error. *)
Definition ReadAll (r : reader) : string * option error := (r, None).

(** [func healthHandler(w http.ResponseWriter, req *http.Request)] *)
Definition healthHandler : response := mkResponse StatusOK [] "OK".

(** [func (s *Server) notFoundHandler(w, req)] *)
Definition notFoundHandler : response := Error (StatusText StatusNotFound) StatusNotFound.

(** [func (s *Server) streamToWriter(value []byte, w http.ResponseWriter)];
    [io.Copy] to the writer succeeds. *)
Definition streamToWriter (value : string) : response :=
  mkResponse StatusOK
    [("Content-Type"%string, "application/json"%string);
     ("Content-Length"%string, strconv.FormatInt (Z.of_nat (String.length value)))]
    value.

Section handlers.

Context {St : Type} (storage : Storage St).

(** [func (s *Server) putHandler(w, req)] *)
Definition putHandler (now : Z) (req : request) (s : St) : St * response :=
  let key := id req in
  match Body req with
  | None => (s, Error (StatusText StatusBadRequest) StatusBadRequest)
  | Some value =>
    let expireIn := expire_in req in
    let parsed :=
      if negb (Nat.eqb (String.length expireIn) 0) then
        match Atoi expireIn with
        | None => None
        | Some expirationDuration => Some (wrap64 (expirationDuration * Second))
        end
      else Some (-1) in
    match parsed with
    | None => (s, Error (StatusText StatusBadRequest) StatusBadRequest)
    | Some expiration =>
      match Put storage now key value expiration s with
      | (s, Some _) =>
        (s, Error (StatusText StatusInternalServerError) StatusInternalServerError)
      | (s, None) => (s, WriteHeader StatusNoContent)
      end
    end
  end.

(** [func (s *Server) deleteHandler(w, req)] *)
Definition deleteHandler (req : request) (s : St) : St * response :=
  let key := id req in
  let '(s, err) :=
    if Nat.eqb (String.length key) 0 then DeleteAll storage s else Delete storage key s in
  if IsNotExist storage err then (s, Error (StatusText StatusNotFound) StatusNotFound)
  else
    match err with
    | Some _ => (s, Error (StatusText StatusInternalServerError) StatusInternalServerError)
    | None => (s, WriteHeader StatusNoContent)
    end.

(** [func (s *Server) headHandler(w, req)]: on success the handler returns
    without writing, and the server answers 200 with no body. *)
Definition headHandler (now : Z) (req : request) (s : St) : St * response :=
  let key := id req in
  let '(s, _, err) := Get storage now key s in
  if IsNotExist storage err then (s, Error (StatusText StatusNotFound) StatusNotFound)
  else
    match err with
    | Some _ => (s, Error (StatusText StatusInternalServerError) StatusInternalServerError)
    | None => (s, mkResponse StatusOK [] EmptyString)
    end.

(** [func (s *Server) getHandler(w, req)]: when the error of the storage is
    not the not-found error, [value, err = ioutil.ReadAll(r)] assigns the
    error again. *)
Definition getHandler (now : Z) (req : request) (s : St) : St * response :=
  let key := id req in
  let filter := filter req in
  let '(s, r, err) :=
    if Nat.eqb (String.length key) 0 then
      let filter := if Nat.eqb (String.length filter) 0 then "*"%string else filter in
      GetPattern storage now filter s
    else Get storage now key s in
  if IsNotExist storage err then (s, Error (StatusText StatusNotFound) StatusNotFound)
  else
    let '(value, err) := ReadAll r in
    match err with
    | Some _ => (s, Error (StatusText StatusInternalServerError) StatusInternalServerError)
    | None => (s, streamToWriter value)
    end.

End handlers.

End http.

(** The storage [main] gives the server: [storage.NewLocalStorage(basedir)]. *)
Definition local_storage : http.Storage LocalStorage.t :=
  http.mkStorage LocalStorage.t LocalStorage.Put LocalStorage.Get LocalStorage.GetPattern
    LocalStorage.Delete LocalStorage.DeleteAll IsNotExist.

(** The in-memory storage behind the same interface; [order] is the order
    in which a [range] over the table yields its entries. *)
Definition memory_storage (order : MemoryStorage.t -> list (string * entry))
  : http.Storage MemoryStorage.t :=
  http.mkStorage MemoryStorage.t MemoryStorage.Put MemoryStorage.Get
    (fun now pattern s => MemoryStorage.GetPattern now pattern (order s) s)
    MemoryStorage.Delete MemoryStorage.DeleteAll IsNotExist.

(** ** The cache file of the in-memory backend (memory.go)

    [NewMemoryStorage] loads the table from [storageDir/memory.db] and
    [dumpToFilesystem] writes it there. The goroutine that calls
    [dumpToFilesystem] on every tick of a 15 second ticker is left out:
    each of its calls is one [dumpToFilesystem], taken under [lockAll]. *)

Module MemoryCache.

Definition memoryCacheFile : string := "memory.db".

(** [sv[i].ks < sv[j].ks], made reflexive for the merge: the encoder writes
    the keys of a map in increasing byte order. *)
Definition key_le (x y : string * entry) : Prop := String.leb (fst x) (fst y) = true.

#[global] Instance key_le_dec : RelDecision key_le.
Proof. intros x y. unfold key_le. apply _. Defined.

(** One [key: value] member of the encoded map. *)
Definition member (kv : string * entry) : string :=
  json.encode_string (fst kv) +:+ ":" +:+ json.Marshal (snd kv).

(** [json.Marshal(s.data)] for the [map[string]entry] of a table (a map
    that is not nil); it cannot fail on this type. *)
Definition Marshal (data : gmap string entry) : string :=
  "{" +:+ String.concat "," (List.map member (merge_sort key_le (map_to_list data))) +:+ "}".

(** What [json.Unmarshal(cache, &data)] leaves in [data]: a table, or the
    nil map when the cache is the literal [null]. A nil map reads as an
    empty table, and a [Put] on it panics. *)
Inductive loaded : Type :=
| Table (data : gmap string entry)
| NilTable.

(** A value of the object decoded into a fresh [entry]. *)
Definition decode_entry (saved : option error) (v : json.value) : entry * option error :=
  match v with
  | json.Object l => fold_left json.decode_member l (mkEntry EmptyString EmptyString 0, saved)
  | json.Null => (mkEntry EmptyString EmptyString 0, saved)
  | _ => (mkEntry EmptyString EmptyString 0, json.saveError saved UnmarshalTypeError)
  end.

(** The members of the object stored into the map, in their order: a later
    member with the same key replaces the earlier one. *)
Definition decode_table (l : list (string * json.value)) : gmap string entry * option error :=
  fold_left
    (fun (st : gmap string entry * option error) (kv : string * json.value) =>
       let '(e, saved) := decode_entry (snd st) (snd kv) in
       (<[fst kv := e]> (fst st), saved))
    l (∅, None).

(** [var data map[string]entry; err = json.Unmarshal(cache, &data)] *)
Definition Unmarshal (cache : string) : error + loaded :=
  match json.parse cache with
  | None => inl SyntaxError
  | Some json.Null => inr NilTable
  | Some (json.Object l) =>
    match decode_table l with
    | (data, None) => inr (Table data)
    | (_, Some err) => inl err
    end
  | Some _ => inl UnmarshalTypeError
  end.

(** [func NewMemoryStorage(storageDir string)], which returns the storage
    or an error, on the content of [storageDir]: the directory after the call (the cache
    file is created when it is missing) and the error or the table of the
    new storage, whose mutex registry is empty. *)
Definition NewMemoryStorage (d : gmap string node) : gmap string node * (error + loaded) :=
  match LocalStorage.getWriter memoryCacheFile d with
  | (d, inl err) => (d, inl err)
  | (d, inr storageCache) =>
    match os.ReadAll storageCache d with
    | (_, Some e) => (d, inl (PathError e))
    | (cache, None) =>
      let cache := if Nat.eqb (String.length cache) 0 then "{}"%string else cache in
      (d, Unmarshal cache)
    end
  end.

(** [func (s *MemoryStorage) dumpToFilesystem() error]; [f.Seek(0, 0)] and
    [f.Sync()] succeed on an open file. *)
Definition dumpToFilesystem (s : MemoryStorage.t) (d : gmap string node)
  : gmap string node * option error :=
  let s := MemoryStorage.lockAll s in
  match LocalStorage.getWriter memoryCacheFile d with
  | (d, inl err) => (d, Some err)
  | (d, inr f) =>
    match os.Truncate0 f d with
    | (d, Some e) => (d, Some (PathError e))
    | (d, None) =>
      let data := Marshal (MemoryStorage.data s) in
      match os.Write0 f data d with
      | (d, Some e) => (d, Some (PathError e))
      | (d, None) => (d, None)
      end
    end
  end.

(** [func (s *MemoryStorage) Flush()]: the error of [dumpToFilesystem] is
    logged and dropped; the send on [s.quit] stops the ticker. *)
Definition Flush (s : MemoryStorage.t) (d : gmap string node) : gmap string node :=
  fst (dumpToFilesystem s d).

End MemoryCache.

(** The JSON value that the text the encoder writes for an entry is read
    back as. *)
Definition entry_value (e : entry) : json.value :=
  json.Object [("key"%string, json.Str (json.coerce 0 true (Key e)));
               ("value"%string, json.Str (base64.EncodeToString (Value e)));
               ("expiration"%string, json.Number (strconv.FormatInt (Expiration e)))].

(** A table that the codec leaves as it is: the bytes of every key, in the
    table and in the entry, are what the codec reads back (they are valid
    UTF-8), and every expiration is in the range of [int64], as the field
    type has it. *)
Definition stable (data : gmap string entry) : Prop :=
  forall (k : string) (e : entry),
    data !! k = Some e ->
    json.coerce 0 true k = k /\ json.coerce 0 true (Key e) = Key e /\ int64 (Expiration e).

(** ** The two backends side by side *)

(** The directory of a durable storage holds the table of an in-memory
    storage, as far as the keys in [K] go: no two keys of [K] have the same
    MD5 file name, the file of a key of [K] is there exactly when the key is
    in the table, and then holds what [Put] writes for the entry; the
    expirations of the table are in the range of [int64], as the field type
    has it. *)
Definition holds (K : string -> Prop) (m : MemoryStorage.t) (d : LocalStorage.t) : Prop :=
  (forall k1 k2, K k1 -> K k2 -> md5Hash k1 = md5Hash k2 -> k1 = k2)
  /\ (forall key, K key ->
        LocalStorage.files d !! md5Hash key
        = (fun e => RegularFile (json.Marshal e)) <$> MemoryStorage.data m !! key)
  /\ (forall key e, MemoryStorage.data m !! key = Some e -> int64 (Expiration e)).

(** ** The storage directory read as a table

    What a scan of the durable backend has to return is fixed by the
    content of the directory alone. *)

(** The entry a name of the directory stands for: the decoded content of the
    regular file of that name, when it is not empty and decodes. *)
Definition decoded (d : gmap string node) (name : string) : option entry :=
  match d !! name with
  | Some (RegularFile b) =>
    if Nat.eqb (String.length b) 0 then None
    else
      match json.Unmarshal b with
      | inr e => Some e
      | inl _ => None
      end
  | _ => None
  end.

(** [names] lists the regular files of the directory: every one of them,
    nothing else, each once, in increasing byte order of the names. *)
Definition listing (d : gmap string node) (names : list string) : Prop :=
  (forall name, name ∈ names <-> exists c, d !! name = Some (RegularFile c))
  /\ NoDup names
  /\ StronglySorted (fun a b => String.leb a b = true) names.

(** ** The in-memory storage with the table as [NewMemoryStorage] leaves it

    [json.Unmarshal] leaves the map of a new storage nil when the cache
    file holds the literal [null]. A nil map is read as an empty one, and
    an assignment to one of its entries panics. [MemoryStorage] above is
    the storage whose table is a map; here the table is a map or nil, as
    [MemoryCache.loaded] has it. *)

Module LoadedMemoryStorage.

Record t : Type := mk {
  locks : gset string;
  data : MemoryCache.loaded
}.

(** The storage [NewMemoryStorage] returns for a loaded table:
    [locks: map[string]*sync.Mutex{}]. *)
Definition new (data : MemoryCache.loaded) : t := mk ∅ data.

(** A call returns, or panics and leaves the storage in some state. *)
Inductive outcome (A : Type) : Type :=
| Returns (a : A)
| Panics (s : t).

Arguments Returns {A}.
Arguments Panics {A}.

(** A storage of [MemoryStorage] is one whose table is a map. *)
Definition of_map (s : MemoryStorage.t) : t :=
  mk (MemoryStorage.locks s) (MemoryCache.Table (MemoryStorage.data s)).

Definition lock (key : string) (s : t) : t :=
  mk ({[key]} ∪ locks s) (data s).

(** [entry, ok := s.data[key]]: a nil map has no entry. *)
Definition index (data : MemoryCache.loaded) (key : string) : option entry :=
  match data with
  | MemoryCache.Table m => m !! key
  | MemoryCache.NilTable => None
  end.

(** [func (s *MemoryStorage) Get(key string) (io.Reader, error)] *)
Definition Get (now : Z) (key : string) (s : t) : t * reader * option error :=
  let r := NewReader_nil in
  let s := lock key s in
  match index (data s) key with
  | None => (s, r, Some NotExistsError)
  | Some entry =>
    if negb (isExpired now (Expiration entry))
    then (s, NewReader (Value entry), None)
    else (s, r, Some NotExistsError)
  end.

(** [func (s *MemoryStorage) Put(key string, value string, expiration time.Duration) error]:
    [s.data[key] = newEntry] panics (assignment to entry in nil map) when
    the map is nil; the deferred [unlock] runs. *)
Definition Put (now : Z) (key value : string) (expiration : Z) (s : t)
  : outcome (t * option error) :=
  let s := lock key s in
  let newEntry := mkEntry key value (newExpiration now expiration) in
  match data s with
  | MemoryCache.Table m => Returns (mk (locks s) (MemoryCache.Table (<[key := newEntry]> m)), None)
  | MemoryCache.NilTable => Panics s
  end.

End LoadedMemoryStorage.

(** * Test vectors for the library models *)

Example Match_another : filepath.Match "another*" "another key" = (true, None).
Proof. reflexivity. Qed.
Example Match_another_no : filepath.Match "another*" "a key" = (false, None).
Proof. reflexivity. Qed.
Example Match_class : filepath.Match "k[a-c]?[^0-9]*z" "kbXy..z" = (true, None).
Proof. reflexivity. Qed.
Example Match_bad : filepath.Match "[" "a key" = (false, Some ErrBadPattern).
Proof. reflexivity. Qed.
Example Match_bad_late : filepath.Match "a[" "b" = (false, Some ErrBadPattern).
Proof. reflexivity. Qed.
Example base64_a_value : base64.EncodeToString "a value" = "YSB2YWx1ZQ==".
Proof. reflexivity. Qed.
Example base64_back : base64.DecodeString "YSB2YWx1ZQ==" = Some "a value".
Proof. reflexivity. Qed.
Example FormatInt_neg : strconv.FormatInt (-1203) = "-1203".
Proof. reflexivity. Qed.
Example ParseInt_big : strconv.ParseInt "9223372036854775808" = None.
Proof. reflexivity. Qed.
Example md5Hash_empty : md5Hash "" = "d41d8cd98f00b204e9800998ecf8427e".
Proof. vm_compute. reflexivity. Qed.
Example md5Hash_a_key : md5Hash "a key" = "af0711eb7dab2d53c1a580c4705d7cb7".
Proof. vm_compute. reflexivity. Qed.
Example md5Hash_two_blocks :
  md5Hash "The quick brown fox jumps over the lazy dog, twice over the lazy dog!"
  = "5983bd4026d047c06b6500ff01f840ea".
Proof. vm_compute. reflexivity. Qed.

(** * Proofs *)

#[local] Arguments String.append !s1 s2 : simpl nomatch.

(** * Bytes *)

Lemma byte_val_range (a : ascii) : 0 <= byte_val a < 256.
Proof.
  unfold byte_val. pose proof (N_ascii_bounded a) as H. lia.
Qed.

Lemma byte_of_val (a : ascii) : byte_of (byte_val a) = a.
Proof.
  unfold byte_of, byte_val. rewrite N2Z.id. apply ascii_N_embedding.
Qed.

Lemma byte_val_of (z : Z) : 0 <= z < 256 -> byte_val (byte_of z) = z.
Proof.
  intros H. unfold byte_of, byte_val.
  rewrite N_ascii_embedding by lia. lia.
Qed.

Lemma byte_val_inj (a b : ascii) : byte_val a = byte_val b -> a = b.
Proof.
  intros H. rewrite <- (byte_of_val a), <- (byte_of_val b). by rewrite H.
Qed.

Lemma ascii_eqb_val (a b : ascii) : Ascii.eqb a b = (byte_val a =? byte_val b).
Proof.
  destruct (Ascii.eqb_spec a b) as [->|Hne].
  - symmetry. apply Z.eqb_refl.
  - symmetry. apply Z.eqb_neq. intros H. apply Hne. by apply byte_val_inj.
Qed.

(** A property of the numbers below [n], checked by running it on each. *)
Lemma forall_below (P : Z -> bool) (n : nat) :
  forallb P (List.map Z.of_nat (seq 0 n)) = true ->
  forall i, 0 <= i < Z.of_nat n -> P i = true.
Proof.
  intros H i Hi. rewrite forallb_forall in H. apply H.
  apply in_map_iff. exists (Z.to_nat i). split; [lia|].
  apply in_seq. lia.
Qed.

(** * base64 *)

Lemma enc_dec (i : Z) : 0 <= i < 64 -> base64.dec (base64.enc i) = Some i.
Proof.
  intros H.
  pose proof (forall_below
    (fun i => match base64.dec (base64.enc i) with Some j => j =? i | None => false end) 64) as F.
  specialize (F eq_refl i H). cbv beta in F.
  destruct (base64.dec (base64.enc i)); [|done].
  apply Z.eqb_eq in F. by subst.
Qed.

Lemma enc_val (i : Z) :
  0 <= i < 64 ->
  let v := byte_val (base64.enc i) in
  32 <= v < 128 /\ v <> 34 /\ v <> 92 /\ v <> 61 /\ v <> 10 /\ v <> 13.
Proof.
  intros H.
  pose proof (forall_below
    (fun i => let v := byte_val (base64.enc i) in
      (32 <=? v) && (v <? 128) && negb (v =? 34) && negb (v =? 92) && negb (v =? 61)
      && negb (v =? 10) && negb (v =? 13)) 64 eq_refl i H) as F.
  cbv beta zeta in F |- *.
  repeat (apply andb_prop in F; destruct F as [F ?]).
  repeat match goal with H : negb _ = true |- _ => apply negb_true_iff, Z.eqb_neq in H end.
  lia.
Qed.

Lemma string_ind3 (P : string -> Prop) :
  P EmptyString ->
  (forall x, P (String x EmptyString)) ->
  (forall x y, P (String x (String y EmptyString))) ->
  (forall x y z r, P r -> P (String x (String y (String z r)))) ->
  forall s, P s.
Proof.
  intros H0 H1 H2 H3.
  fix IH 1. intros [|x [|y [|z r]]]; [exact H0 | apply H1 | apply H2 | apply H3, IH].
Qed.

Lemma enc_not_pad (i : Z) : 0 <= i < 64 -> Ascii.eqb (base64.enc i) base64.pad = false.
Proof.
  intros H. rewrite ascii_eqb_val. apply Z.eqb_neq.
  pose proof (enc_val i H) as E. cbv zeta in E.
  change (byte_val base64.pad) with 61. lia.
Qed.

Lemma enc_not_newline (i : Z) :
  0 <= i < 64 ->
  Ascii.eqb (base64.enc i) "010"%char || Ascii.eqb (base64.enc i) "013"%char = false.
Proof.
  intros H. rewrite !ascii_eqb_val.
  pose proof (enc_val i H) as E. cbv zeta in E.
  change (byte_val "010"%char) with 10. change (byte_val "013"%char) with 13.
  apply orb_false_iff. split; apply Z.eqb_neq; lia.
Qed.

Ltac sextet := 
  match goal with
  | |- 0 <= ?e < 64 => 
    repeat match goal with
           | |- context [byte_val ?a] =>
             let H := fresh in pose proof (byte_val_range a) as H;
             generalize dependent (byte_val a); intros
           end;
    Z.div_mod_to_equations; lia
  end.

Lemma strip_newlines_encode (b : string) :
  base64.strip_newlines (base64.EncodeToString b) = base64.EncodeToString b.
Proof.
  induction b as [|x|x y|x y z r IH] using string_ind3; cbn [base64.EncodeToString base64.strip_newlines].
  - reflexivity.
  - rewrite !enc_not_newline by sextet. reflexivity.
  - rewrite !enc_not_newline by sextet. reflexivity.
  - rewrite !enc_not_newline by sextet. by rewrite IH.
Qed.

Lemma byte_of_recombine (a : ascii) (z : Z) : z = byte_val a -> byte_of z = a.
Proof. intros ->. apply byte_of_val. Qed.

Ltac recombine :=
  apply byte_of_recombine;
  repeat match goal with
         | |- context [byte_val ?a] =>
           let H := fresh in pose proof (byte_val_range a) as H;
           generalize dependent (byte_val a); intros
         end;
  Z.div_mod_to_equations; lia.

Lemma decode_quanta_encode (b : string) :
  base64.decode_quanta (base64.EncodeToString b) = Some b.
Proof.
  induction b as [|x|x y|x y z r IH] using string_ind3;
    cbn [base64.EncodeToString base64.decode_quanta].
  - reflexivity.
  - rewrite !enc_dec by sextet. cbn.
    f_equal. f_equal. recombine.
  - rewrite !enc_dec by sextet. rewrite enc_not_pad by sextet.
    rewrite Ascii.eqb_refl. cbn [String.length Nat.eqb].
    f_equal. f_equal; [recombine|f_equal; recombine].
  - rewrite !enc_dec by sextet. rewrite !enc_not_pad by sextet.
    rewrite IH. f_equal. f_equal; [recombine|]. f_equal; [recombine|].
    f_equal; recombine.
Qed.

Lemma base64_roundtrip (b : string) :
  base64.DecodeString (base64.EncodeToString b) = Some b.
Proof.
  unfold base64.DecodeString. rewrite strip_newlines_encode. apply decode_quanta_encode.
Qed.

(** * strconv *)

Lemma to_int_proper (z : Z) :
  Z.to_int z <> Decimal.Pos Decimal.Nil /\ Z.to_int z <> Decimal.Neg Decimal.Nil.
Proof.
  destruct z as [|p|p]; cbn; split; try discriminate;
    intros [= H]; by apply (Unsigned.to_uint_nonnil p).
Qed.

Lemma ParseInt_FormatInt (z : Z) :
  int64 z -> strconv.ParseInt (strconv.FormatInt z) = Some z.
Proof.
  intros [Hlo Hhi]. unfold strconv.ParseInt, strconv.FormatInt.
  destruct (to_int_proper z) as [H1 H2].
  rewrite NilZero.isi by assumption. rewrite DecimalZ.of_to.
  apply Z.leb_le in Hlo, Hhi. by rewrite Hlo, Hhi.
Qed.

Lemma digits_of_uint (u : Decimal.uint) :
  string_forall json.is_digit (NilEmpty.string_of_uint u) = true.
Proof. induction u; cbn; auto. Qed.

(** The decimal digits of a positive number start with a non-zero digit. *)
Lemma to_uint_head (p : positive) :
  match Pos.to_uint p with
  | Decimal.Nil | Decimal.D0 _ => False
  | _ => True
  end.
Proof.
  pose proof (DecimalZ.to_of (Z.to_int (Z.pos p))) as H.
  rewrite DecimalZ.of_to in H. cbn in H. injection H as H.
  pose proof (Unsigned.to_uint_nonnil p) as Hnil.
  pose proof (Unsigned.to_uint_nonzero p) as Hzero.
  destruct (Pos.to_uint p) as [|u| | | | | | | | |]; try exact I.
  - by apply Hnil.
  - unfold Decimal.unorm in H. cbn in H.
    pose proof (nzhead_nonzero u) as Hnz.
    destruct (Decimal.nzhead u) eqn:E; try discriminate.
    + injection H as H. subst u. by apply Hzero.
    + by apply (Hnz u0).
Qed.

Lemma skip_digits_all (s : string) :
  string_forall json.is_digit s = true -> json.skip_digits s = EmptyString.
Proof.
  induction s as [|c s IH]; cbn; [done|].
  intros [Hc Hs]%andb_prop. rewrite Hc. auto.
Qed.

Lemma valid_int_uint (p : positive) :
  json.valid_int (NilZero.string_of_uint (Pos.to_uint p)) = true.
Proof.
  pose proof (to_uint_head p) as H.
  destruct (Pos.to_uint p) as [|u|u|u|u|u|u|u|u|u|u]; try done;
    cbn; rewrite (skip_digits_all _ (digits_of_uint u)); reflexivity.
Qed.

Lemma valid_number_FormatInt (z : Z) : json.valid_number (strconv.FormatInt z) = true.
Proof.
  unfold strconv.FormatInt. destruct z as [|p|p]; cbn [Z.to_int NilZero.string_of_int].
  - reflexivity.
  - pose proof (valid_int_uint p) as H. pose proof (to_uint_head p) as Hh.
    unfold json.valid_number.
    destruct (Pos.to_uint p); try done.
  - cbn. apply valid_int_uint.
Qed.

Lemma numchars_uint (u : Decimal.uint) :
  string_forall json.is_numchar (NilZero.string_of_uint u) = true.
Proof.
  assert (forall u, string_forall json.is_numchar (NilEmpty.string_of_uint u) = true) as H.
  { clear u. induction u; cbn; auto. }
  destruct u; try apply H. reflexivity.
Qed.

Lemma numchars_FormatInt (z : Z) :
  string_forall json.is_numchar (strconv.FormatInt z) = true.
Proof.
  unfold strconv.FormatInt. destruct z as [|p|p]; cbn [Z.to_int NilZero.string_of_int].
  - reflexivity.
  - apply numchars_uint.
  - cbn [string_forall]. rewrite numchars_uint. reflexivity.
Qed.

Lemma span_num_app (s : string) (c : ascii) (rest : string) :
  string_forall json.is_numchar s = true ->
  json.is_numchar c = false ->
  json.span_num (s +:+ String c rest) = (s, String c rest).
Proof.
  intros Hs Hc. induction s as [|x s IH]; cbn [json.span_num String.append].
  - by rewrite Hc.
  - cbn [string_forall] in Hs. apply andb_prop in Hs as [Hx Hs].
    rewrite Hx, (IH Hs). reflexivity.
Qed.

(** The first character of a formatted integer: a digit or the minus sign. *)
Lemma FormatInt_head (z : Z) :
  exists c s, strconv.FormatInt z = String c s
              /\ json.is_digit c || Ascii.eqb c "-"%char = true
              /\ json.is_space c = false.
Proof.
  unfold strconv.FormatInt. destruct z as [|p|p]; cbn [Z.to_int NilZero.string_of_int].
  - by eexists _, _.
  - pose proof (to_uint_head p) as Hh.
    destruct (Pos.to_uint p); try done; by eexists _, _.
  - by eexists _, _.
Qed.

#[local] Arguments byte_val : simpl never.

(** * encoding/json: a string literal written by the encoder is read back *)

Lemma emit_some (t u rest : string) (r : option (string * string)) :
  r = Some (u, rest) -> json.emit t r = Some (t +:+ u, rest).
Proof. by intros ->. Qed.

Lemma unquote_skip (j : nat) (a : ascii) (x : string) :
  json.unquote_body (S j) (String a x)
  = json.emit (String a EmptyString) (json.unquote_body j x).
Proof. reflexivity. Qed.

Lemma unquote_plain (a : ascii) (x : string) :
  32 <= byte_val a < 128 -> byte_val a <> 34 -> byte_val a <> 92 ->
  json.unquote_body 0 (String a x)
  = json.emit (String a EmptyString) (json.unquote_body 0 x).
Proof.
  intros H1 H2 H3. cbn [json.unquote_body].
  replace (byte_val a =? 34) with false by (symmetry; apply Z.eqb_neq; lia).
  replace (byte_val a =? 92) with false by (symmetry; apply Z.eqb_neq; lia).
  replace (byte_val a <? 32) with false by (symmetry; apply Z.ltb_ge; lia).
  replace (byte_val a <? 128) with true by (symmetry; apply Z.ltb_lt; lia).
  reflexivity.
Qed.

Lemma unquote_backslash_same (a : ascii) (x : string) :
  (byte_val a =? 92) || (byte_val a =? 34) = true ->
  json.unquote_body 0 (String "\"%char (String a x))
  = json.emit (String a EmptyString) (json.unquote_body 0 x).
Proof.
  intros H. cbn [json.unquote_body].
  change (byte_val "\"%char) with 92. cbn [Z.eqb Pos.eqb].
  destruct (byte_val a =? 34), (byte_val a =? 92); try discriminate; reflexivity.
Qed.

Lemma hexval_hex (n : Z) : 0 <= n < 16 -> json.hexval (json.hex n) = Some n.
Proof.
  intros H.
  pose proof (forall_below
    (fun i => match json.hexval (json.hex i) with Some j => j =? i | None => false end)
    16 eq_refl n H) as F.
  cbv beta in F. destruct (json.hexval (json.hex n)); [|done].
  apply Z.eqb_eq in F. by subst.
Qed.

Lemma unquote_u00 (h l : Z) (x : string) :
  0 <= h < 16 -> 0 <= l < 16 ->
  json.unquote_body 0
    (String "\"%char (String "u"%char (String "0"%char (String "0"%char
       (String (json.hex h) (String (json.hex l) x))))))
  = json.emit (utf8.EncodeRune (h * 16 + l)) (json.unquote_body 0 x).
Proof.
  intros Hh Hl. cbn [String.append json.unquote_body].
  change (byte_val "\"%char) with 92. change (byte_val "u"%char) with 117.
  cbn [Z.eqb Pos.eqb orb].
  assert (json.getu4 "0" "0" (json.hex h) (json.hex l) = Some (h * 16 + l)) as ->.
  { unfold json.getu4. rewrite (hexval_hex h Hh), (hexval_hex l Hl).
    reflexivity. }
  assert (json.IsSurrogate (h * 16 + l) = false) as ->; [|reflexivity].
  unfold json.IsSurrogate. apply andb_false_iff. left. apply Z.leb_gt. lia.
Qed.

(** When the encoder's rune decoder accepts a byte sequence, the decoder
    sees the same bytes in the encoder's output and decodes the same rune. *)
Lemma decode_agree (a : ascii) (s1 : string) (c : Z) (size : nat) :
  128 <= byte_val a ->
  utf8.DecodeRuneInString (String a s1) = (c, size) ->
  (c =? utf8.RuneError) && Nat.eqb size 1 = false ->
  (size - 1 <= String.length s1)%nat /\
  forall t,
    utf8.DecodeRuneInString (String a (json.string_loop (size - 1) true s1 +:+ t)) = (c, size).
Proof.
  intros Hb. unfold utf8.DecodeRuneInString.
  replace (byte_val a <? 128) with false by (symmetry; apply Z.ltb_ge; lia).
  destruct ((194 <=? byte_val a) && (byte_val a <=? 223)) eqn:E2.
  { destruct s1 as [|a1 s2].
    - intros [= <- <-]. discriminate.
    - destruct (utf8.continuation (byte_val a1)) eqn:C1.
      + intros [= <- <-] _. split; [cbn; lia|]. intros t.
        cbn [Nat.sub json.string_loop String.append]. by rewrite C1.
      + intros [= <- <-]. discriminate. }
  destruct ((224 <=? byte_val a) && (byte_val a <=? 239)) eqn:E3.
  { destruct s1 as [|a1 [|a2 s3]]; try (intros [= <- <-]; discriminate).
    match goal with |- (if ?cond then _ else _) = _ -> _ => destruct cond eqn:C end.
    - intros [= <- <-] _. split; [cbn; lia|]. intros t.
      cbn [Nat.sub json.string_loop String.append]. by rewrite C.
    - intros [= <- <-]. discriminate. }
  destruct ((240 <=? byte_val a) && (byte_val a <=? 244)) eqn:E4.
  { destruct s1 as [|a1 [|a2 [|a3 s4]]]; try (intros [= <- <-]; discriminate).
    match goal with |- (if ?cond then _ else _) = _ -> _ => destruct cond eqn:C end.
    - intros [= <- <-] _. split; [cbn; lia|]. intros t.
      cbn [Nat.sub json.string_loop String.append]. by rewrite C.
    - intros [= <- <-]. discriminate. }
  intros [= <- <-]. discriminate.
Qed.

Lemma unquote_rune (a : ascii) (x : string) (c : Z) (size : nat) :
  128 <= byte_val a ->
  utf8.DecodeRuneInString (String a x) = (c, size) ->
  (c =? utf8.RuneError) && Nat.eqb size 1 = false ->
  json.unquote_body 0 (String a x)
  = json.emit (String a EmptyString) (json.unquote_body (size - 1) x).
Proof.
  intros Hb Hd Hv. cbn [json.unquote_body].
  replace (byte_val a =? 34) with false by (symmetry; apply Z.eqb_neq; lia).
  replace (byte_val a =? 92) with false by (symmetry; apply Z.eqb_neq; lia).
  replace (byte_val a <? 32) with false by (symmetry; apply Z.ltb_ge; lia).
  replace (byte_val a <? 128) with false by (symmetry; apply Z.ltb_ge; lia).
  rewrite Hd, Hv. reflexivity.
Qed.

Lemma EncodeRune_ascii (a : ascii) :
  byte_val a < 128 -> utf8.EncodeRune (byte_val a) = String a EmptyString.
Proof.
  intros H. pose proof (byte_val_range a) as Hr. unfold utf8.EncodeRune.
  replace (byte_val a <? 0) with false by (symmetry; apply Z.ltb_ge; lia).
  replace (1114111 <? byte_val a) with false by (symmetry; apply Z.ltb_ge; lia).
  replace (55296 <=? byte_val a) with false by (symmetry; apply Z.leb_gt; lia).
  cbn [orb andb].
  replace (byte_val a <? 128) with true by (symmetry; apply Z.ltb_lt; lia).
  by rewrite byte_of_val.
Qed.

Lemma unquote_string_loop (n : nat) :
  forall (k : string) (skip : nat) (copy : bool) (rest : string),
    (String.length k <= n)%nat ->
    (copy = true -> skip <= String.length k)%nat ->
    json.unquote_body (if copy then skip else 0%nat)
      (json.string_loop skip copy k +:+ String "034"%char rest)
    = Some (json.coerce skip copy k, rest).
Proof.
  induction n as [|n IH]; intros k skip copy rest Hn Hskip.
  - destruct k; [|cbn in Hn; lia].
    assert ((if copy then skip else 0%nat) = 0%nat) as ->.
    { destruct copy; [|done]. specialize (Hskip eq_refl). cbn in Hskip. lia. }
    reflexivity.
  - destruct k as [|a s1].
    { assert ((if copy then skip else 0%nat) = 0%nat) as ->.
      { destruct copy; [|done]. specialize (Hskip eq_refl). cbn in Hskip. lia. }
      reflexivity. }
    cbn [String.length] in Hn, Hskip.
    destruct skip as [|j].
    2:{ destruct copy.
        - cbn [json.string_loop json.coerce String.append]. rewrite unquote_skip.
          rewrite (IH s1 j true rest); [reflexivity|lia|].
          intros _; specialize (Hskip eq_refl); lia.
        - cbn [json.string_loop json.coerce]. apply (IH s1 j false rest); [lia|done]. }
    assert ((if copy then 0%nat else 0%nat) = 0%nat) as -> by (by destruct copy).
    assert (forall sk cp, (cp = true -> sk <= String.length s1)%nat ->
      json.unquote_body (if cp then sk else 0%nat)
        (json.string_loop sk cp s1 +:+ String "034"%char rest)
      = Some (json.coerce sk cp s1, rest)) as IH1.
    { intros sk cp Hsk. apply IH; [lia|done]. }
    pose proof (IH1 0%nat true ltac:(lia)) as Hk0. cbn iota in Hk0.
    pose proof (byte_val_range a) as Ha.
    cbn [json.string_loop json.coerce].
    destruct (byte_val a <? 128) eqn:E128.
    + apply Z.ltb_lt in E128.
      destruct (json.htmlSafe (byte_val a)) eqn:Esafe.
      * unfold json.htmlSafe in Esafe.
        repeat (apply andb_prop in Esafe; destruct Esafe as [Esafe ?]).
        repeat match goal with
               | H : negb _ = true |- _ => apply negb_true_iff, Z.eqb_neq in H
               end.
        apply Z.leb_le in Esafe.
        cbn [String.append]. rewrite unquote_plain by lia.
        by rewrite Hk0.
      * unfold json.escape_byte.
        destruct ((byte_val a =? 92) || (byte_val a =? 34)) eqn:E1.
        { cbn [String.append]. rewrite unquote_backslash_same by done.
          by rewrite Hk0. }
        destruct (byte_val a =? 10) eqn:E2.
        { assert (a = "010"%char) as -> by (apply byte_val_inj; by apply Z.eqb_eq in E2).
          cbn [String.append].
          change (json.unquote_body 0 (String "\"%char (String "n"%char
                    (json.string_loop 0 true s1 +:+ String "034"%char rest))))
            with (json.emit (String "010"%char EmptyString)
                    (json.unquote_body 0 (json.string_loop 0 true s1 +:+ String "034"%char rest))).
          by rewrite Hk0. }
        destruct (byte_val a =? 13) eqn:E3.
        { assert (a = "013"%char) as -> by (apply byte_val_inj; by apply Z.eqb_eq in E3).
          cbn [String.append].
          change (json.unquote_body 0 (String "\"%char (String "r"%char
                    (json.string_loop 0 true s1 +:+ String "034"%char rest))))
            with (json.emit (String "013"%char EmptyString)
                    (json.unquote_body 0 (json.string_loop 0 true s1 +:+ String "034"%char rest))).
          by rewrite Hk0. }
        destruct (byte_val a =? 9) eqn:E4.
        { assert (a = "009"%char) as -> by (apply byte_val_inj; by apply Z.eqb_eq in E4).
          cbn [String.append].
          change (json.unquote_body 0 (String "\"%char (String "t"%char
                    (json.string_loop 0 true s1 +:+ String "034"%char rest))))
            with (json.emit (String "009"%char EmptyString)
                    (json.unquote_body 0 (json.string_loop 0 true s1 +:+ String "034"%char rest))).
          by rewrite Hk0. }
        cbn [String.append].
        rewrite unquote_u00 by (Z.div_mod_to_equations; lia).
        assert (byte_val a / 16 * 16 + byte_val a mod 16 = byte_val a) as ->
          by (Z.div_mod_to_equations; lia).
        rewrite EncodeRune_ascii by done. by rewrite Hk0.
    + apply Z.ltb_ge in E128.
      destruct (utf8.DecodeRuneInString (String a s1)) as [c size] eqn:Ed.
      destruct ((c =? utf8.RuneError) && Nat.eqb size 1) eqn:Einv.
      { change (json.unquote_body 0 ((("\uff" +:+ "fd") +:+ json.string_loop 0 true s1)
                  +:+ String "034"%char rest))
          with (json.emit (utf8.EncodeRune utf8.RuneError)
                  (json.unquote_body 0 (json.string_loop 0 true s1 +:+ String "034"%char rest))).
        by rewrite Hk0. }
      destruct (decode_agree a s1 c size E128 Ed Einv) as [Hlen Hagree].
      destruct ((c =? 8232) || (c =? 8233)) eqn:Els.
      * pose proof (IH1 (size - 1)%nat false ltac:(done)) as Hk1. cbn iota in Hk1.
        apply orb_true_iff in Els as [->%Z.eqb_eq | ->%Z.eqb_eq].
        -- change (json.unquote_body 0 (("\u202" +:+ String (json.hex (8232 mod 16))
                     (json.string_loop (size - 1) false s1)) +:+ String "034"%char rest))
             with (json.emit (utf8.EncodeRune 8232)
                     (json.unquote_body 0
                        (json.string_loop (size - 1) false s1 +:+ String "034"%char rest))).
           by rewrite Hk1.
        -- change (json.unquote_body 0 (("\u202" +:+ String (json.hex (8233 mod 16))
                     (json.string_loop (size - 1) false s1)) +:+ String "034"%char rest))
             with (json.emit (utf8.EncodeRune 8233)
                     (json.unquote_body 0
                        (json.string_loop (size - 1) false s1 +:+ String "034"%char rest))).
           by rewrite Hk1.
      * pose proof (IH1 (size - 1)%nat true ltac:(intros _; lia)) as Hk1. cbn iota in Hk1.
        cbn [String.append].
        rewrite (unquote_rune a _ c size E128 (Hagree _) Einv).
        by rewrite Hk1.
Qed.

(** An ASCII string comes back from the codec as it is. *)
Lemma coerce_ascii (k : string) :
  string_forall (fun c => byte_val c <? 128) k = true -> json.coerce 0 true k = k.
Proof.
  induction k as [|a k IH]; cbn [string_forall json.coerce]; [done|].
  intros [Ha Hk]%andb_prop. rewrite Ha. by rewrite (IH Hk).
Qed.

#[local] Arguments byte_val !a : simpl nomatch.

Lemma unquote_encode_string (k rest : string) :
  json.unquote_body 0 (json.string_loop 0 true k +:+ String "034"%char rest)
  = Some (json.coerce 0 true k, rest).
Proof. apply (unquote_string_loop (String.length k) k 0 true rest); lia. Qed.

Lemma unquote_plain_string (s rest : string) :
  string_forall plain s = true ->
  json.unquote_body 0 (s +:+ String "034"%char rest) = Some (s, rest).
Proof.
  induction s as [|c s IH]; intros H.
  - reflexivity.
  - cbn [string_forall] in H. apply andb_prop in H as [Hc Hs].
    unfold plain in Hc.
    repeat (apply andb_prop in Hc; destruct Hc as [Hc ?]).
    repeat match goal with
           | H : negb _ = true |- _ => apply negb_true_iff, Z.eqb_neq in H
           end.
    apply Z.leb_le in Hc.
    match goal with H : (_ <? 128) = true |- _ => apply Z.ltb_lt in H end.
    cbn [String.append]. rewrite unquote_plain by lia.
    rewrite (IH Hs). reflexivity.
Qed.

Lemma enc_plain (i : Z) : 0 <= i < 64 -> plain (base64.enc i) = true.
Proof.
  intros H. pose proof (enc_val i H) as E. cbv zeta in E. unfold plain.
  repeat (apply andb_true_intro; split);
    try apply negb_true_iff; try apply Z.eqb_neq; try apply Z.leb_le; try apply Z.ltb_lt; lia.
Qed.

Lemma plain_base64 (b : string) : string_forall plain (base64.EncodeToString b) = true.
Proof.
  induction b as [|x|x y|x y z r IH] using string_ind3;
    cbn [base64.EncodeToString string_forall].
  - reflexivity.
  - rewrite !enc_plain by sextet. reflexivity.
  - rewrite !enc_plain by sextet. reflexivity.
  - rewrite !enc_plain by sextet. by rewrite IH.
Qed.

Lemma append_assoc (a b c : string) : (a +:+ b) +:+ c = a +:+ (b +:+ c).
Proof. induction a as [|x a IH]; cbn [String.append]; [done|by rewrite IH]. Qed.

Lemma parse_value_object (f : nat) (x : string) :
  json.parse_value (S f) ("{" +:+ dquote +:+ x)
  = match json.parse_members f (dquote +:+ x) with
    | Some (l, rest) => Some (json.Object l, rest)
    | None => None
    end.
Proof. reflexivity. Qed.

Lemma parse_members_head (f : nat) (name x : string) :
  string_forall plain name = true ->
  json.parse_members (S f) (dquote +:+ name +:+ dquote +:+ ":" +:+ x)
  = match json.parse_value f x with
    | Some (v, s4) =>
      match json.skip_space s4 with
      | String ","%char s5 =>
        match json.parse_members f s5 with
        | Some (l, rest) => Some ((name, v) :: l, rest)
        | None => None
        end
      | String "}"%char s5 => Some ([(name, v)], s5)
      | _ => None
      end
    | None => None
    end.
Proof.
  intros H. unfold dquote. cbn [String.append].
  cbn [json.parse_members json.skip_space json.is_space Ascii.eqb Bool.eqb orb].
  rewrite (unquote_plain_string name _ H). reflexivity.
Qed.

Lemma parse_members_comma (f : nat) (name x y : string) (v : json.value) :
  string_forall plain name = true ->
  json.parse_value f x = Some (v, "," +:+ y) ->
  json.parse_members (S f) (dquote +:+ name +:+ dquote +:+ ":" +:+ x)
  = match json.parse_members f y with
    | Some (l, rest) => Some ((name, v) :: l, rest)
    | None => None
    end.
Proof. intros H Hv. rewrite parse_members_head by done. rewrite Hv. reflexivity. Qed.

Lemma parse_members_last (f : nat) (name x y : string) (v : json.value) :
  string_forall plain name = true ->
  json.parse_value f x = Some (v, "}" +:+ y) ->
  json.parse_members (S f) (dquote +:+ name +:+ dquote +:+ ":" +:+ x) = Some ([(name, v)], y).
Proof. intros H Hv. rewrite parse_members_head by done. rewrite Hv. reflexivity. Qed.

Lemma parse_value_encode_string (f : nat) (k r : string) :
  json.parse_value (S f) (json.encode_string k +:+ r) = Some (json.Str (json.coerce 0 true k), r).
Proof.
  unfold json.encode_string, dquote. rewrite !append_assoc. cbn [String.append].
  cbn [json.parse_value json.skip_space json.is_space Ascii.eqb Bool.eqb orb].
  by rewrite unquote_encode_string.
Qed.

Lemma parse_value_base64 (f : nat) (b r : string) :
  json.parse_value (S f) (dquote +:+ base64.EncodeToString b +:+ dquote +:+ r)
  = Some (json.Str (base64.EncodeToString b), r).
Proof.
  unfold dquote. cbn [String.append].
  cbn [json.parse_value json.skip_space json.is_space Ascii.eqb Bool.eqb orb].
  by rewrite (unquote_plain_string _ _ (plain_base64 b)).
Qed.

Lemma parse_value_number_head (f : nat) (c : ascii) (s : string) :
  json.is_digit c || Ascii.eqb c "-"%char = true ->
  json.parse_value (S f) (String c s)
  = let '(lit, rest) := json.span_num (String c s) in
    if json.valid_number lit then Some (json.Number lit, rest) else None.
Proof.
  destruct c as [[] [] [] [] [] [] [] []]; intros H; try discriminate H; reflexivity.
Qed.

Lemma parse_value_FormatInt (f : nat) (z : Z) (r : string) :
  json.parse_value (S f) (strconv.FormatInt z +:+ "}" +:+ r)
  = Some (json.Number (strconv.FormatInt z), "}" +:+ r).
Proof.
  destruct (FormatInt_head z) as (c & s & Heq & Hc & _).
  pose proof (span_num_app (strconv.FormatInt z) "}"%char r (numchars_FormatInt z) eq_refl) as Hspan.
  pose proof (valid_number_FormatInt z) as Hvalid.
  change ("}" +:+ r) with (String "}"%char r).
  rewrite Heq in *. cbn [String.append] in *.
  rewrite parse_value_number_head by done.
  rewrite Hspan, Hvalid. reflexivity.
Qed.

Lemma parse_Marshal (e : entry) (fuel : nat) :
    json.parse_value (5 + fuel) (json.Marshal e)
    = Some (json.Object [("key"%string, json.Str (json.coerce 0 true (Key e)));
                         ("value"%string, json.Str (base64.EncodeToString (Value e)));
                         ("expiration"%string, json.Number (strconv.FormatInt (Expiration e)))],
            EmptyString).
Proof.
  unfold json.Marshal. cbn [Nat.add].
  rewrite parse_value_object.
  rewrite (parse_members_comma _ "key" _ _ _ eq_refl (parse_value_encode_string _ _ _)).
  rewrite (parse_members_comma _ "value" _ _ _ eq_refl (parse_value_base64 _ _ _)).
  change ("}"%string) with ("}" +:+ "").
  rewrite (parse_members_last _ "expiration" _ _ _ eq_refl (parse_value_FormatInt _ _ _)).
  reflexivity.
Qed.

(** * The round trip of the codec *)

Lemma decode_member_key (e : entry) (saved : option error) (s : string) :
  json.decode_member (e, saved) ("key"%string, json.Str s)
  = (mkEntry s (Value e) (Expiration e), saved).
Proof. reflexivity. Qed.

Lemma decode_member_value (e : entry) (saved : option error) (s : string) :
  json.decode_member (e, saved) ("value"%string, json.Str s)
  = match base64.DecodeString s with
    | Some b => (mkEntry (Key e) b (Expiration e), saved)
    | None => (e, json.saveError saved CorruptInputError)
    end.
Proof. reflexivity. Qed.

Lemma decode_member_expiration (e : entry) (saved : option error) (lit : string) :
  json.decode_member (e, saved) ("expiration"%string, json.Number lit)
  = match strconv.ParseInt lit with
    | Some z => (mkEntry (Key e) (Value e) z, saved)
    | None => (e, json.saveError saved UnmarshalTypeError)
    end.
Proof. reflexivity. Qed.

Lemma Marshal_length (e : entry) : (5 <= String.length (json.Marshal e))%nat.
Proof. unfold json.Marshal, dquote. cbn [String.append String.length]. lia. Qed.

Lemma Unmarshal_Marshal (e : entry) :
  int64 (Expiration e) ->
  json.Unmarshal (json.Marshal e)
  = inr (mkEntry (json.coerce 0 true (Key e)) (Value e) (Expiration e)).
Proof.
  intros He. unfold json.Unmarshal, json.parse.
  pose proof (Marshal_length e) as Hlen.
  destruct (String.length (json.Marshal e)) as [|[|[|[|n]]]] eqn:E; try lia.
  pose proof (parse_Marshal e n) as Hk'.
  cbn [Nat.add] in Hk'. rewrite Hk'.
  cbn [json.skip_space String.length Nat.eqb fold_left].
  rewrite decode_member_key, decode_member_value, base64_roundtrip.
  rewrite decode_member_expiration, (ParseInt_FormatInt _ He).
  reflexivity.
Qed.

(** * Time *)

Lemma wrap64_int64 (z : Z) : int64 (wrap64 z).
Proof.
  unfold int64, wrap64, MinInt64, MaxInt64.
  pose proof (Z.mod_pos_bound (z + 2 ^ 63) (2 ^ 64) ltac:(lia)). lia.
Qed.

Lemma wrap64_id (z : Z) : int64 z -> wrap64 z = z.
Proof.
  unfold int64, wrap64, MinInt64, MaxInt64. intros H.
  rewrite Z.mod_small by lia. lia.
Qed.

Lemma newExpiration_int64 (now d : Z) : int64 (newExpiration now d).
Proof.
  unfold newExpiration. case_bool_decide.
  - apply wrap64_int64.
  - unfold int64, MinInt64, MaxInt64. lia.
Qed.

Lemma newExpiration_sentinel (now : Z) : newExpiration now NoExpiration = 0.
Proof. unfold newExpiration. by rewrite bool_decide_eq_false_2 by (intros H; by apply H). Qed.

Lemma newExpiration_duration (now d : Z) :
  d <> NoExpiration -> newExpiration now d = wrap64 (now + d).
Proof. intros H. unfold newExpiration. by rewrite bool_decide_eq_true_2. Qed.

Lemma isExpired_zero (now : Z) : isExpired now 0 = false.
Proof. reflexivity. Qed.

Lemma isExpired_true (now e : Z) : isExpired now e = true <-> 0 < e < now.
Proof. unfold isExpired. rewrite andb_true_iff, !Z.ltb_lt. lia. Qed.

Lemma isExpired_false (now e : Z) : isExpired now e = false <-> e <= 0 \/ now <= e.
Proof.
  unfold isExpired. rewrite andb_false_iff, !Z.ltb_ge. lia.
Qed.

(** * The scan shared by the two [GetPattern]s *)

Lemma pattern_step_selected (now : Z) (pattern : string) (ret : list string) (e : entry) :
  pattern_step now pattern ret e
  = if selected now pattern e then ret ++ [object_of e] else ret.
Proof.
  unfold pattern_step, selected, matches, object_of.
  destruct (filepath.Match pattern (Key e)) as [ok err].
  destruct ok, err as [err|]; cbn;
    rewrite ?bool_decide_eq_true_2, ?bool_decide_eq_false_2 by naive_solver; cbn;
    try reflexivity.
Qed.

Lemma pattern_fold (now : Z) (pattern : string) (es : list entry) (acc : list string) :
  fold_left (pattern_step now pattern) es acc
  = acc ++ List.map object_of (List.filter (selected now pattern) es).
Proof.
  revert acc. induction es as [|e es IH]; intros acc; cbn [fold_left List.filter List.map].
  - by rewrite app_nil_r.
  - rewrite IH, pattern_step_selected.
    destruct (selected now pattern e); [|done].
    cbn [List.map]. by rewrite <- app_assoc.
Qed.

Lemma fold_left_snd {A B C} (f : A -> C -> A) (l : list (B * C)) (acc : A) :
  fold_left (fun a kv => f a (snd kv)) l acc = fold_left f (List.map snd l) acc.
Proof. revert acc. induction l as [|x l IH]; intros acc; cbn; [done|apply IH]. Qed.

(** * The in-memory backend *)

Lemma Memory_GetPattern_spec (now : Z) (pattern : string)
    (visit : list (string * entry)) (s : MemoryStorage.t) :
  MemoryStorage.GetPattern now pattern visit s
  = (s, Sprintf_array
          (List.map object_of (List.filter (selected now pattern) (List.map snd visit))),
     None).
Proof.
  unfold MemoryStorage.GetPattern, MemoryStorage.lockAll, MemoryStorage.unlockAll, NewReader.
  by rewrite fold_left_snd, pattern_fold.
Qed.

Lemma Memory_Get_spec (now : Z) (key : string) (s : MemoryStorage.t) :
  MemoryStorage.Get now key s
  = match MemoryStorage.data s !! key with
    | Some e =>
      if isExpired now (Expiration e)
      then (MemoryStorage.lock key s, NewReader_nil, Some NotExistsError)
      else (MemoryStorage.lock key s, NewReader (Value e), None)
    | None => (MemoryStorage.lock key s, NewReader_nil, Some NotExistsError)
    end.
Proof.
  unfold MemoryStorage.Get, MemoryStorage.unlock. cbn [MemoryStorage.data MemoryStorage.lock].
  destruct (MemoryStorage.data s !! key) as [e|]; [|done].
  by destruct (isExpired now (Expiration e)).
Qed.

Lemma Memory_Put_spec (now : Z) (key value : string) (d : Z) (s : MemoryStorage.t) :
  MemoryStorage.Put now key value d s
  = (MemoryStorage.mk ({[key]} ∪ MemoryStorage.locks s)
       (<[key := mkEntry key value (newExpiration now d)]> (MemoryStorage.data s)),
     None).
Proof. reflexivity. Qed.

(** * The durable backend *)

Lemma string_drop_nil (n : nat) : string_drop n EmptyString = EmptyString.
Proof. by destruct n. Qed.

Lemma append_nil_r (s : string) : s +:+ EmptyString = s.
Proof. induction s as [|c s IH]; cbn [String.append]; [done|by rewrite IH]. Qed.

(** Writing a file: the open fails on a directory; otherwise the file ends
    up holding exactly [data]. *)
Lemma dumpToStorage_spec (key data : string) (s : LocalStorage.t) :
  LocalStorage.dumpToStorage key data s
  = match LocalStorage.files s !! md5Hash key with
    | Some (Directory _) => (s, Some (CannotAccess EISDIR))
    | _ =>
      (LocalStorage.mk (LocalStorage.locks s)
         (<[md5Hash key := RegularFile data]> (LocalStorage.files s)), None)
    end.
Proof.
  unfold LocalStorage.dumpToStorage, LocalStorage.getWriter, os.OpenFile_RDWR_CREATE.
  generalize (md5Hash key). intros h. destruct s as [lk fs]. cbn [LocalStorage.files LocalStorage.locks].
  destruct (fs !! h) as [[c|b]|] eqn:E.
  - unfold os.Truncate0. rewrite E. unfold os.Write0. rewrite lookup_insert_eq.
    rewrite string_drop_nil, append_nil_r, insert_insert_eq. reflexivity.
  - reflexivity.
  - unfold os.Truncate0. rewrite lookup_insert_eq. unfold os.Write0. rewrite lookup_insert_eq.
    rewrite string_drop_nil, append_nil_r, !insert_insert_eq. reflexivity.
Qed.

Lemma getStorageData_spec (name : string) (s : LocalStorage.t) :
  LocalStorage.getStorageData name s
  = match LocalStorage.files s !! name with
    | None => (EmptyString, Some NotExistsError)
    | Some (RegularFile content) => (content, None)
    | Some (Directory _) => (EmptyString, Some (PathError EISDIR))
    end.
Proof.
  unfold LocalStorage.getStorageData, LocalStorage.getReader, os.OpenFile_RDONLY, os.ReadAll.
  destruct (LocalStorage.files s !! name) as [[c|b]|] eqn:E; cbn; rewrite ?E; reflexivity.
Qed.

Lemma Local_Get_spec (now : Z) (key : string) (s : LocalStorage.t) :
  LocalStorage.Get now key s
  = let s' := LocalStorage.lock key s in
    match LocalStorage.files s !! md5Hash key with
    | None => (s', NewReader_nil, Some NotExistsError)
    | Some (Directory _) => (s', NewReader_nil, Some (PathError EISDIR))
    | Some (RegularFile b) =>
      if Nat.eqb (String.length b) 0 then (s', NewReader_nil, Some NotExistsError)
      else
        match json.Unmarshal b with
        | inl err => (s', NewReader_nil, Some err)
        | inr e =>
          if isExpired now (Expiration e)
          then (s', NewReader_nil, Some NotExistsError)
          else (s', NewReader (Value e), None)
        end
    end.
Proof.
  unfold LocalStorage.Get. rewrite getStorageData_spec.
  cbn [LocalStorage.files LocalStorage.lock].
  generalize (md5Hash key). intros h.
  destruct (LocalStorage.files s !! h) as [[b|d]|]; try reflexivity.
  destruct (Nat.eqb (String.length b) 0); [reflexivity|].
  destruct (json.Unmarshal b) as [err|e]; [reflexivity|].
  by destruct (isExpired now (Expiration e)).
Qed.

Lemma Local_Put_spec (now : Z) (key value : string) (d : Z) (s : LocalStorage.t) :
  LocalStorage.Put now key value d s
  = match LocalStorage.files s !! md5Hash key with
    | Some (Directory _) => (LocalStorage.lock key s, Some (CannotAccess EISDIR))
    | _ =>
      (LocalStorage.mk ({[key]} ∪ LocalStorage.locks s)
         (<[md5Hash key :=
              RegularFile (json.Marshal (mkEntry key value (newExpiration now d)))]>
            (LocalStorage.files s)), None)
    end.
Proof.
  unfold LocalStorage.Put. rewrite dumpToStorage_spec.
  cbn [LocalStorage.files LocalStorage.lock LocalStorage.locks]. reflexivity.
Qed.

Lemma Marshal_nonempty (e : entry) : Nat.eqb (String.length (json.Marshal e)) 0 = false.
Proof. pose proof (Marshal_length e). apply Nat.eqb_neq. lia. Qed.

(** The scan step in terms of [stored_entry]. *)
Lemma GetPattern_step_spec (now : Z) (pattern : string) (s : LocalStorage.t)
    (ret : list string) (name : string) :
  LocalStorage.GetPattern_step now pattern s ret name
  = match LocalStorage.stored_entry s name with
    | Some e => pattern_step now pattern ret e
    | None => ret
    end.
Proof.
  unfold LocalStorage.GetPattern_step, LocalStorage.stored_entry.
  destruct (LocalStorage.getStorageData name s) as [b [err|]]; [done|].
  destruct (Nat.eqb (String.length b) 0); [done|].
  by destruct (json.Unmarshal b).
Qed.

Lemma GetPattern_fold (now : Z) (pattern : string) (s : LocalStorage.t)
    (names : list string) (acc : list string) :
  fold_left (LocalStorage.GetPattern_step now pattern s) names acc
  = acc ++ List.map object_of
             (List.filter (selected now pattern) (omap (LocalStorage.stored_entry s) names)).
Proof.
  revert acc. induction names as [|name names IH]; intros acc; cbn [fold_left omap list_omap].
  - cbn. by rewrite app_nil_r.
  - rewrite IH, GetPattern_step_spec.
    destruct (LocalStorage.stored_entry s name) as [e|]; [|done].
    cbn [List.filter]. rewrite pattern_step_selected.
    destruct (selected now pattern e); [|done].
    cbn [List.map]. by rewrite <- app_assoc.
Qed.

Lemma Local_GetPattern_spec (now : Z) (pattern : string) (s : LocalStorage.t) :
  LocalStorage.GetPattern now pattern s
  = (s, Sprintf_array
          (List.map object_of
             (List.filter (selected now pattern)
                (omap (LocalStorage.stored_entry s) (fst (LocalStorage.getAllStorageKeys s))))),
     None).
Proof.
  unfold LocalStorage.GetPattern, LocalStorage.lockAll, LocalStorage.unlockAll, NewReader.
  unfold LocalStorage.getAllStorageKeys. cbn [fst].
  by rewrite GetPattern_fold.
Qed.

(** The names [getAllStorageKeys] lists are those of the regular files. *)
Lemma keys_fold_elem (l : list (string * node)) (acc : list string) (name : string) :
  name ∈ fold_left
           (fun r (file : string * node) =>
              match snd file with
              | Directory _ => r
              | RegularFile _ => r ++ [fst file]
              end) l acc
  <-> name ∈ acc \/ exists c, (name, RegularFile c) ∈ l.
Proof.
  revert acc. induction l as [|[n nd] l IH]; intros acc; cbn [fold_left snd fst].
  - split; [by left|]. intros [H|[c H]]; [done|]. by apply elem_of_nil in H.
  - rewrite IH. destruct nd as [c|b].
    + rewrite elem_of_app, list_elem_of_singleton. split.
      * intros [[H| ->]|[c' H]]; [by left| |].
        -- right. exists c. apply list_elem_of_here.
        -- right. exists c'. by apply list_elem_of_further.
      * intros [H|[c' H]]; [by left; left|].
        apply elem_of_cons in H as [[= -> ->]|H]; [by left; right|].
        right. by exists c'.
    + split.
      * intros [H|[c' H]]; [by left|]. right. exists c'. by apply list_elem_of_further.
      * intros [H|[c' H]]; [by left|].
        apply elem_of_cons in H as [[=]|H]. right. by exists c'.
Qed.

Lemma getAllStorageKeys_elem (s : LocalStorage.t) (name : string) :
  name ∈ fst (LocalStorage.getAllStorageKeys s)
  <-> exists c, LocalStorage.files s !! name = Some (RegularFile c).
Proof.
  unfold LocalStorage.getAllStorageKeys, os.ReadDir. cbn [fst].
  rewrite keys_fold_elem. split.
  - intros [H|[c H]]; [by apply elem_of_nil in H|].
    exists c. rewrite merge_sort_Permutation in H. by apply elem_of_map_to_list in H.
  - intros [c H]. right. exists c.
    rewrite merge_sort_Permutation. by apply elem_of_map_to_list.
Qed.

(** * The order of a listing *)

#[local] Instance name_le_trans : Transitive os.name_le.
Proof.
  intros x y z. unfold os.name_le. intros H1 H2.
  apply Is_true_true. apply Is_true_true in H1, H2.
  exact (transitivity (R := String.le) H1 H2).
Qed.

#[local] Instance name_le_total : Total os.name_le.
Proof. intros x y. unfold os.name_le. apply String.leb_total. Qed.

Lemma keys_fold_omap (l : list (string * node)) (acc : list string) :
  fold_left
    (fun r (file : string * node) =>
       match snd file with
       | Directory _ => r
       | RegularFile _ => r ++ [fst file]
       end) l acc
  = acc ++ omap (fun file : string * node =>
                   match snd file with
                   | Directory _ => None
                   | RegularFile _ => Some (fst file)
                   end) l.
Proof.
  revert acc. induction l as [|[n nd] l IH]; intros acc; cbn [fold_left omap list_omap fst snd].
  - by rewrite app_nil_r.
  - rewrite IH. destruct nd; [|done]. by rewrite <- app_assoc.
Qed.

Lemma omap_names_sorted (l : list (string * node)) :
  StronglySorted os.name_le l -> NoDup l.*1 ->
  let names := omap (fun file : string * node =>
                       match snd file with
                       | Directory _ => None
                       | RegularFile _ => Some (fst file)
                       end) l in
  StronglySorted (fun a b => String.leb a b = true) names /\ NoDup names
  /\ forall n, n ∈ names -> n ∈ l.*1.
Proof.
  induction l as [|[n nd] l IH]; intros Hs Hnd; cbn [omap list_omap fst snd].
  - split; [constructor|]. split; [constructor|]. by intros n H.
  - apply StronglySorted_inv in Hs as [Hs Hn].
    cbn [fmap list_fmap fst] in Hnd. apply NoDup_cons in Hnd as [Hnot Hnd].
    destruct (IH Hs Hnd) as (IH1 & IH2 & IH3).
    destruct nd as [c|b].
    + split; [|split].
      * constructor; [exact IH1|]. apply Forall_forall. intros n' Hin.
        apply IH3, list_elem_of_fmap in Hin as ([n'' nd'] & -> & Hin).
        rewrite Forall_forall in Hn. exact (Hn _ Hin).
      * apply NoDup_cons. split; [|exact IH2]. intros Hin. by apply Hnot, IH3.
      * intros n' [->|Hin]%elem_of_cons; [apply list_elem_of_here|].
        apply list_elem_of_further. by apply IH3.
    + split; [exact IH1|]. split; [exact IH2|].
      intros n' Hin. apply list_elem_of_further. by apply IH3.
Qed.

Lemma getAllStorageKeys_sorted (s : LocalStorage.t) :
  NoDup (fst (LocalStorage.getAllStorageKeys s))
  /\ StronglySorted (fun a b => String.leb a b = true) (fst (LocalStorage.getAllStorageKeys s)).
Proof.
  unfold LocalStorage.getAllStorageKeys, os.ReadDir. cbn [fst].
  rewrite keys_fold_omap. cbn [app].
  destruct (omap_names_sorted (merge_sort os.name_le (map_to_list (LocalStorage.files s))))
    as (H1 & H2 & _).
  - apply StronglySorted_merge_sort; apply _.
  - rewrite merge_sort_Permutation. apply NoDup_fst_map_to_list.
  - done.
Qed.

Lemma length_eqb_0 (s : string) : s <> EmptyString -> Nat.eqb (String.length s) 0 = false.
Proof. by destruct s. Qed.

Lemma singleton_list {A} (l : list A) (x : A) :
  NoDup l -> (forall y, y ∈ l <-> y = x) -> l = [x].
Proof.
  intros Hnd H. destruct l as [|a l].
  - assert (x ∈ @nil A) as Hx by (by apply H). by apply elem_of_nil in Hx.
  - assert (a = x) as -> by (apply H, list_elem_of_here).
    destruct l as [|b l]; [done|].
    assert (b = x) as -> by (apply H, list_elem_of_further, list_elem_of_here).
    apply NoDup_cons in Hnd as [Hnot _]. destruct Hnot. apply list_elem_of_here.
Qed.

(** * The listing of the storage directory *)

Lemma stored_entry_decoded (s : LocalStorage.t) (name : string) :
  LocalStorage.stored_entry s name = decoded (LocalStorage.files s) name.
Proof.
  unfold LocalStorage.stored_entry, decoded. rewrite getStorageData_spec.
  destruct (LocalStorage.files s !! name) as [[b|d]|]; reflexivity.
Qed.

Lemma omap_stored_entry (s : LocalStorage.t) (names : list string) :
  omap (LocalStorage.stored_entry s) names = omap (decoded (LocalStorage.files s)) names.
Proof.
  induction names as [|n names IH]; cbn [omap list_omap]; [done|].
  by rewrite stored_entry_decoded, IH.
Qed.

Lemma getAllStorageKeys_listing (s : LocalStorage.t) :
  listing (LocalStorage.files s) (fst (LocalStorage.getAllStorageKeys s)).
Proof.
  split; [intros name; apply getAllStorageKeys_elem|]. apply getAllStorageKeys_sorted.
Qed.

(** The scan of the durable backend, in terms of the directory alone. *)
Lemma Local_GetPattern_listing (now : Z) (pattern : string) (s : LocalStorage.t) :
  exists names : list string,
    listing (LocalStorage.files s) names
    /\ LocalStorage.GetPattern now pattern s
       = (s, NewReader (Sprintf_array
                          (List.map object_of
                             (List.filter (selected now pattern)
                                (omap (decoded (LocalStorage.files s)) names)))), None).
Proof.
  exists (fst (LocalStorage.getAllStorageKeys s)). split; [apply getAllStorageKeys_listing|].
  by rewrite Local_GetPattern_spec, omap_stored_entry.
Qed.

Lemma listing_singleton (name : string) (b : string) (names : list string) :
  listing {[ name := RegularFile b ]} names -> names = [name].
Proof.
  intros (Hin & Hnd & _). apply singleton_list; [exact Hnd|].
  intros n. rewrite Hin. split.
  - intros [c [-> _]%lookup_singleton_Some]. done.
  - intros ->. exists b. apply lookup_singleton_eq.
Qed.

Lemma listing_empty (names : list string) : listing ∅ names -> names = [].
Proof.
  intros (Hin & _). apply elem_of_nil_inv. intros n [c Hc]%Hin. by rewrite lookup_empty in Hc.
Qed.

#[local] Instance leb_antisymm : AntiSymm eq (fun a b : string => String.leb a b = true).
Proof. intros a b. apply String.leb_antisym. Qed.

(** The directory has one listing. *)
Lemma listing_unique (d : gmap string node) (l1 l2 : list string) :
  listing d l1 -> listing d l2 -> l1 = l2.
Proof.
  intros (Hin1 & Hnd1 & Hs1) (Hin2 & Hnd2 & Hs2).
  apply (StronglySorted_unique (fun a b : string => String.leb a b = true)); try done.
  apply NoDup_Permutation; try done. intros n. by rewrite Hin1, Hin2.
Qed.

Lemma listing_getAllStorageKeys (s : LocalStorage.t) (names : list string) :
  listing (LocalStorage.files s) names -> names = fst (LocalStorage.getAllStorageKeys s).
Proof. intros H. apply (listing_unique _ _ _ H). apply getAllStorageKeys_listing. Qed.

(** The scan of the durable backend with the selection written out. *)
Lemma Local_GetPattern_listed (now : Z) (pattern : string) (listed : entry -> bool)
    (s : LocalStorage.t) :
  (forall e, selected now pattern e = listed e) ->
  exists names : list string,
    listing (LocalStorage.files s) names
    /\ LocalStorage.GetPattern now pattern s
       = (s, NewReader (Sprintf_array
                          (List.map object_of
                             (List.filter listed
                                (omap (decoded (LocalStorage.files s)) names)))), None).
Proof.
  intros Hsel. destruct (Local_GetPattern_listing now pattern s) as (names & Hl & Hget).
  exists names. split; [exact Hl|]. by rewrite Hget, (List.filter_ext _ _ Hsel).
Qed.

(** * The in-memory storage on a loaded table *)

(** On a table that is a map the two models of the storage agree. *)
Lemma Loaded_Put_of_map (now : Z) (key value : string) (d : Z) (s : MemoryStorage.t) :
  LoadedMemoryStorage.Put now key value d (LoadedMemoryStorage.of_map s)
  = LoadedMemoryStorage.Returns
      (LoadedMemoryStorage.of_map (fst (MemoryStorage.Put now key value d s)),
       snd (MemoryStorage.Put now key value d s)).
Proof. reflexivity. Qed.

Lemma Loaded_Get_of_map (now : Z) (key : string) (s : MemoryStorage.t) :
  LoadedMemoryStorage.Get now key (LoadedMemoryStorage.of_map s)
  = (LoadedMemoryStorage.of_map (fst (fst (MemoryStorage.Get now key s))),
     snd (fst (MemoryStorage.Get now key s)), snd (MemoryStorage.Get now key s)).
Proof.
  unfold LoadedMemoryStorage.Get, MemoryStorage.Get, LoadedMemoryStorage.of_map.
  cbn [LoadedMemoryStorage.lock LoadedMemoryStorage.data LoadedMemoryStorage.index
       LoadedMemoryStorage.locks MemoryStorage.lock MemoryStorage.data MemoryStorage.locks
       MemoryStorage.unlock].
  destruct (MemoryStorage.data s !! key) as [e|]; [|reflexivity].
  by destruct (negb (isExpired now (Expiration e))).
Qed.

Lemma Loaded_Put_Table (now : Z) (key value : string) (d : Z) (s : LoadedMemoryStorage.t)
    (m : gmap string entry) :
  LoadedMemoryStorage.data s = MemoryCache.Table m ->
  LoadedMemoryStorage.Put now key value d s
  = LoadedMemoryStorage.Returns
      (LoadedMemoryStorage.mk ({[key]} ∪ LoadedMemoryStorage.locks s)
         (MemoryCache.Table (<[key := mkEntry key value (newExpiration now d)]> m)), None).
Proof.
  intros H. unfold LoadedMemoryStorage.Put.
  cbn [LoadedMemoryStorage.lock LoadedMemoryStorage.data LoadedMemoryStorage.locks].
  by rewrite H.
Qed.

Lemma Loaded_Get_Table (now : Z) (key : string) (L : gset string) (m : gmap string entry) :
  LoadedMemoryStorage.Get now key (LoadedMemoryStorage.mk L (MemoryCache.Table m))
  = let s' := LoadedMemoryStorage.lock key (LoadedMemoryStorage.mk L (MemoryCache.Table m)) in
    match m !! key with
    | Some e =>
      if isExpired now (Expiration e)
      then (s', NewReader_nil, Some NotExistsError)
      else (s', NewReader (Value e), None)
    | None => (s', NewReader_nil, Some NotExistsError)
    end.
Proof.
  unfold LoadedMemoryStorage.Get.
  cbn [LoadedMemoryStorage.lock LoadedMemoryStorage.data LoadedMemoryStorage.index].
  destruct (m !! key) as [e|]; [|done]. by destruct (isExpired now (Expiration e)).
Qed.

(** * Errors of the decoder *)

Lemma saveError_ok (saved : option error) (err : error) :
  saved_ok saved -> decode_error err -> saved_ok (json.saveError saved err).
Proof.
  intros Hs He. destruct saved as [e0|]; cbn; [done|].
  intros ? [= <-]. done.
Qed.

Lemma decode_bytes_ok (l : list json.value) (saved : option error) :
  saved_ok saved -> saved_ok (snd (json.decode_bytes l saved)).
Proof.
  revert saved. induction l as [|v l IH]; intros saved Hs; cbn [json.decode_bytes]; [done|].
  destruct (json.decode_uint8 v).
  - specialize (IH saved Hs). by destruct (json.decode_bytes l saved).
  - specialize (IH (json.saveError saved UnmarshalTypeError)
                  (saveError_ok _ _ Hs ltac:(right; by left))).
    by destruct (json.decode_bytes l (json.saveError saved UnmarshalTypeError)).
Qed.

Lemma decode_member_ok (st : entry * option error) (kv : string * json.value) :
  saved_ok (snd st) -> saved_ok (snd (json.decode_member st kv)).
Proof.
  destruct st as [e saved], kv as [k v]. cbn [snd]. intros Hs.
  assert (saved_ok (json.saveError saved UnmarshalTypeError)) as Ht
    by (apply saveError_ok; [done|right; by left]).
  assert (saved_ok (json.saveError saved CorruptInputError)) as Hc
    by (apply saveError_ok; [done|right; by right]).
  unfold json.decode_member.
  destruct (json.field_is "key" k); [by destruct v|].
  destruct (json.field_is "value" k).
  { destruct v; try done.
    - by destruct (base64.DecodeString s).
    - pose proof (decode_bytes_ok l saved Hs) as Hb.
      by destruct (json.decode_bytes l saved). }
  destruct (json.field_is "expiration" k); [|done].
  destruct v; try done. by destruct (strconv.ParseInt lit).
Qed.

Lemma decode_members_ok (l : list (string * json.value)) (st : entry * option error) :
  saved_ok (snd st) -> saved_ok (snd (fold_left json.decode_member l st)).
Proof.
  revert st. induction l as [|kv l IH]; intros st Hs; cbn [fold_left]; [done|].
  apply IH. by apply decode_member_ok.
Qed.

Lemma Unmarshal_error (b : string) (err : error) :
  json.Unmarshal b = inl err -> decode_error err.
Proof.
  unfold json.Unmarshal.
  destruct (json.parse b) as [v|]; [|intros [= <-]; by left].
  destruct v; try (intros [= <-]; right; by left); try done.
  pose proof (decode_members_ok l (mkEntry EmptyString EmptyString 0, None)) as H.
  destruct (fold_left json.decode_member l _) as [e [e0|]]; [|done].
  intros [= <-]. apply H; [|done]. intros ? [=].
Qed.

Lemma Unmarshal_error_not_NotExists (b : string) (err : error) :
  json.Unmarshal b = inl err -> IsNotExist (Some err) = false.
Proof.
  intros H. apply Unmarshal_error in H as [-> | [-> | ->]]; reflexivity.
Qed.

Lemma Unmarshal_empty : json.Unmarshal EmptyString = inl SyntaxError.
Proof. reflexivity. Qed.

Lemma stored_entry_file (s : LocalStorage.t) (name : string) (e : entry) :
  LocalStorage.stored_entry s name = Some e <->
  exists b, LocalStorage.files s !! name = Some (RegularFile b)
            /\ Nat.eqb (String.length b) 0 = false
            /\ json.Unmarshal b = inr e.
Proof.
  unfold LocalStorage.stored_entry. rewrite getStorageData_spec.
  destruct (LocalStorage.files s !! name) as [[b|d]|]; try (split; [done|by intros (? & ? & _)]).
  split.
  - destruct (Nat.eqb (String.length b) 0) eqn:E; [done|].
    destruct (json.Unmarshal b) as [err|e'] eqn:U; [done|].
    intros [= ->]. by exists b.
  - intros (b' & [= <-] & -> & ->). done.
Qed.

Lemma Local_Get_stored (now : Z) (key : string) (s : LocalStorage.t) (e : entry) :
  LocalStorage.stored_entry s (md5Hash key) = Some e ->
  LocalStorage.Get now key s
  = if isExpired now (Expiration e)
    then (LocalStorage.lock key s, NewReader_nil, Some NotExistsError)
    else (LocalStorage.lock key s, NewReader (Value e), None).
Proof.
  intros (b & Hf & Hlen & Hu)%stored_entry_file.
  rewrite Local_Get_spec. cbv zeta. rewrite Hf, Hlen, Hu. reflexivity.
Qed.

(** After a successful [Put], the file of the key decodes to the new entry
    (up to what the codec does to the bytes of the key). *)
Lemma Local_Put_stored (now : Z) (key value : string) (d : Z) (s : LocalStorage.t) :
  snd (LocalStorage.Put now key value d s) = None ->
  LocalStorage.stored_entry (fst (LocalStorage.Put now key value d s)) (md5Hash key)
  = Some (mkEntry (json.coerce 0 true key) value (newExpiration now d)).
Proof.
  rewrite Local_Put_spec.
  destruct (LocalStorage.files s !! md5Hash key) as [[c|b]|] eqn:E; cbn [fst snd]; try done;
    intros _;
    pose proof (Unmarshal_Marshal (mkEntry key value (newExpiration now d))
                  (newExpiration_int64 now d)) as Hk';
    apply stored_entry_file; eexists;
    cbn [LocalStorage.files]; rewrite lookup_insert_eq;
    (split; [reflexivity|]); (split; [apply Marshal_nonempty|exact Hk']).
Qed.

Lemma Local_Put_ok (now : Z) (key value : string) (d : Z) (s : LocalStorage.t) :
  snd (LocalStorage.Put now key value d s) = None <->
  forall b, LocalStorage.files s !! md5Hash key <> Some (Directory b).
Proof.
  rewrite Local_Put_spec.
  destruct (LocalStorage.files s !! md5Hash key) as [[c|b]|]; cbn [snd]; split; try done.
  intros H. by destruct (H b).
Qed.

Lemma Memory_Get_after_Put (now now' : Z) (key value : string) (d : Z) (s : MemoryStorage.t) :
  let s1 := fst (MemoryStorage.Put now key value d s) in
  MemoryStorage.Get now' key s1
  = if isExpired now' (newExpiration now d)
    then (MemoryStorage.lock key s1, NewReader_nil, Some NotExistsError)
    else (MemoryStorage.lock key s1, NewReader value, None).
Proof.
  cbv zeta. rewrite Memory_Get_spec, Memory_Put_spec. cbn [fst MemoryStorage.data].
  rewrite lookup_insert_eq. reflexivity.
Qed.

Lemma Local_Get_after_Put (now now' : Z) (key value : string) (d : Z) (s : LocalStorage.t) :
  snd (LocalStorage.Put now key value d s) = None ->
  let s1 := fst (LocalStorage.Put now key value d s) in
  LocalStorage.Get now' key s1
  = if isExpired now' (newExpiration now d)
    then (LocalStorage.lock key s1, NewReader_nil, Some NotExistsError)
    else (LocalStorage.lock key s1, NewReader value, None).
Proof.
  intros H. cbv zeta. pose proof (Local_Put_stored now key value d s H) as Hk'.
  by rewrite (Local_Get_stored _ _ _ _ Hk').
Qed.

(** * path/filepath: a pattern reported as malformed matches no name *)

Lemma ranges_chunk_indep (fuel : nat) :
  forall (r r' : Z) (chunk : string) (m m' : bool) (n : nat),
    option_map snd (filepath.ranges fuel r chunk m n)
    = option_map snd (filepath.ranges fuel r' chunk m' n).
Proof.
  induction fuel as [|fuel IH]; intros r r' chunk m m' n; cbn [filepath.ranges]; [done|].
  destruct (filepath.head_is "]" chunk && negb (Nat.eqb n 0)); [done|].
  destruct (filepath.getEsc chunk) as [[lo chunk1]|]; [|done].
  destruct (filepath.head_is "-" chunk1).
  - destruct (filepath.getEsc (string_drop 1 chunk1)) as [[hi chunk2]|]; [|done]. apply IH.
  - apply IH.
Qed.

Lemma matchChunk_loop_err_indep (fuel : nat) :
  forall (failed failed' : bool) (chunk s s' : string),
    snd (filepath.matchChunk_loop fuel failed chunk s)
    = snd (filepath.matchChunk_loop fuel failed' chunk s').
Proof.
  induction fuel as [|fuel IH]; intros failed failed' chunk s s';
    cbn [filepath.matchChunk_loop]; [done|].
  destruct chunk as [|c chunk1]; [by destruct failed, failed'|].
  destruct (Ascii.eqb c "[").
  { set (f1 := failed || Nat.eqb (String.length s) 0).
    set (f2 := failed' || Nat.eqb (String.length s') 0).
    set (rs1 := if f1 then (0, s) else _). set (rs2 := if f2 then (0, s') else _).
    destruct rs1 as [r1 t1], rs2 as [r2 t2].
    set (chunk2 := if filepath.head_is "^" chunk1 then _ else _).
    pose proof (ranges_chunk_indep fuel r1 r2 chunk2 false false 0) as Hr.
    destruct (filepath.ranges fuel r1 chunk2 false 0) as [[m1 c1]|],
             (filepath.ranges fuel r2 chunk2 false 0) as [[m2 c2]|];
      cbn in Hr; try done.
    injection Hr as ->. apply IH. }
  destruct (Ascii.eqb c "?").
  { destruct (failed || Nat.eqb (String.length s) 0),
             (failed' || Nat.eqb (String.length s') 0);
      repeat match goal with
             | |- context [utf8.DecodeRuneInString ?x] =>
               destruct (utf8.DecodeRuneInString x)
             end; apply IH. }
  destruct (if Ascii.eqb c "\" then chunk1 else String c chunk1) as [|d chunk2]; [done|].
  destruct (failed || Nat.eqb (String.length s) 0), s,
           (failed' || Nat.eqb (String.length s') 0), s'; apply IH.
Qed.

Lemma matchChunk_err_indep (chunk s s' : string) :
  snd (filepath.matchChunk chunk s) = snd (filepath.matchChunk chunk s').
Proof. apply matchChunk_loop_err_indep. Qed.

Lemma matchChunk_loop_ok (fuel : nat) :
  forall (failed : bool) (chunk s : string),
    snd (fst (filepath.matchChunk_loop fuel failed chunk s)) = true ->
    snd (filepath.matchChunk_loop fuel failed chunk s) = None.
Proof.
  induction fuel as [|fuel IH]; intros failed chunk s; cbn [filepath.matchChunk_loop]; [done|].
  destruct chunk as [|c chunk1]; [by destruct failed|].
  destruct (Ascii.eqb c "[").
  { destruct (if failed || Nat.eqb (String.length s) 0 then _ else _) as [r t].
    destruct (filepath.ranges fuel r _ false 0) as [[m1 c1]|]; [apply IH|done]. }
  destruct (Ascii.eqb c "?").
  { destruct (failed || Nat.eqb (String.length s) 0); [apply IH|].
    destruct (utf8.DecodeRuneInString s). apply IH. }
  destruct (if Ascii.eqb c "\" then chunk1 else String c chunk1) as [|d chunk2]; [done|].
  destruct (failed || Nat.eqb (String.length s) 0), s; apply IH.
Qed.

(** What [matchChunk] returns apart from the error. *)
Lemma matchChunk_ok (chunk s t : string) (err : option error) :
  filepath.matchChunk chunk s = (t, true, err) ->
  snd (filepath.matchChunk chunk EmptyString) = None.
Proof.
  intros H. rewrite (matchChunk_err_indep chunk EmptyString s).
  unfold filepath.matchChunk in *. apply matchChunk_loop_ok. by rewrite H.
Qed.

Lemma star_loop_error (chunk : string) (last : bool) (name : string) (e : error) :
  filepath.star_loop chunk last name = filepath.StarError e ->
  snd (filepath.matchChunk chunk EmptyString) = Some e.
Proof.
  induction name as [|c name IH]; cbn [filepath.star_loop]; [done|].
  destruct (Ascii.eqb c filepath.Separator); [done|].
  destruct (filepath.matchChunk chunk name) as [[t ok] err] eqn:E.
  destruct ok.
  - destruct (last && negb (Nat.eqb (String.length t) 0)); [exact IH|done].
  - destruct err as [e'|]; [|exact IH].
    intros [= <-]. rewrite (matchChunk_err_indep chunk EmptyString name). by rewrite E.
Qed.

Lemma star_loop_found (chunk : string) (last : bool) (name t : string) :
  filepath.star_loop chunk last name = filepath.StarFound t ->
  snd (filepath.matchChunk chunk EmptyString) = None.
Proof.
  induction name as [|c name IH]; cbn [filepath.star_loop]; [done|].
  destruct (Ascii.eqb c filepath.Separator); [done|].
  destruct (filepath.matchChunk chunk name) as [[t' ok] err] eqn:E.
  destruct ok.
  - destruct (last && negb (Nat.eqb (String.length t') 0)); [exact IH|].
    intros _. by apply (matchChunk_ok chunk name t' err).
  - destruct err as [e'|]; [done|exact IH].
Qed.

Lemma check_rest_fst (fuel : nat) (pattern : string) :
  fst (filepath.check_rest fuel pattern) = false.
Proof.
  revert pattern. induction fuel as [|fuel IH]; intros [|c p]; cbn [filepath.check_rest]; try done.
  destruct (filepath.scanChunk (String c p)) as [[star chunk] rest].
  destruct (snd (filepath.matchChunk chunk EmptyString)); [done|apply IH].
Qed.

Lemma check_rest_error (f1 : nat) :
  forall (pattern : string) (f2 : nat),
    snd (filepath.check_rest f1 pattern) <> None ->
    filepath.pattern_error f2 pattern = true.
Proof.
  induction f1 as [|f1 IH]; intros [|c p] f2; cbn [filepath.check_rest]; try done.
  destruct f2 as [|f2]; [done|]. cbn [filepath.pattern_error].
  destruct (filepath.scanChunk (String c p)) as [[star chunk] rest].
  destruct (snd (filepath.matchChunk chunk EmptyString)); [done|apply IH].
Qed.

Lemma skip_stars_head (pattern : string) :
  filepath.head_is "*" (snd (filepath.skip_stars pattern)) = false.
Proof.
  induction pattern as [|c p IH]; cbn [filepath.skip_stars]; [done|].
  destruct (Ascii.eqb c "*") eqn:E; cbn [snd filepath.head_is]; [exact IH|exact E].
Qed.

Lemma scan_empty_chunk (pattern rest : string) :
  filepath.head_is "*" pattern = false ->
  filepath.scan false pattern = (EmptyString, rest) -> rest = EmptyString.
Proof.
  destruct pattern as [|c p]; cbn [filepath.scan filepath.head_is]; [by intros _ [= <-]|].
  intros Hstar. rewrite Hstar. cbn [andb].
  destruct (Ascii.eqb c "\").
  { destruct p as [|d p2]; [done|]. by destruct (filepath.scan false p2). }
  destruct (Ascii.eqb c "["); [by destruct (filepath.scan true p)|].
  destruct (Ascii.eqb c "]"); by destruct (filepath.scan false p).
Qed.

Lemma scanChunk_empty_chunk (pattern chunk rest : string) (star : bool) :
  filepath.scanChunk pattern = (star, chunk, rest) ->
  Nat.eqb (String.length chunk) 0 = true -> rest = EmptyString.
Proof.
  unfold filepath.scanChunk. pose proof (skip_stars_head pattern) as Hh.
  destruct (filepath.skip_stars pattern) as [st p]. cbn [snd] in Hh.
  destruct (filepath.scan false p) as [ch r] eqn:E. intros [= <- <- <-] Hlen.
  destruct ch; [|done]. by apply (scan_empty_chunk p).
Qed.

Lemma Match_loop_true (fuel : nat) :
  forall pattern name : string,
    fst (filepath.Match_loop fuel pattern name) = true ->
    filepath.pattern_error fuel pattern = false.
Proof.
  induction fuel as [|fuel IH]; intros [|c p] name;
    cbn [filepath.Match_loop filepath.pattern_error]; try done.
  destruct (filepath.scanChunk (String c p)) as [[star chunk] rest] eqn:Es.
  destruct (star && Nat.eqb (String.length chunk) 0) eqn:E1.
  { intros _. apply andb_prop in E1 as [_ Hlen].
    rewrite (scanChunk_empty_chunk _ _ _ _ Es Hlen).
    destruct chunk; [|done]. by destruct fuel. }
  destruct (filepath.matchChunk chunk name) as [[t ok] err] eqn:Em.
  destruct (ok && _) eqn:E2.
  { apply andb_prop in E2 as [-> _]. intros H.
    rewrite (matchChunk_ok _ _ _ _ Em). by apply (IH rest t). }
  assert (snd (filepath.matchChunk chunk EmptyString) = err) as Herr.
  { rewrite (matchChunk_err_indep chunk EmptyString name). by rewrite Em. }
  destruct err as [e|]; [done|]. rewrite Herr.
  destruct star.
  - destruct (filepath.star_loop chunk _ name) as [t'|e|] eqn:Est.
    + apply IH.
    + done.
    + by rewrite check_rest_fst.
  - by rewrite check_rest_fst.
Qed.

Lemma Match_loop_error (fuel : nat) :
  forall pattern name : string,
    snd (filepath.Match_loop fuel pattern name) <> None ->
    filepath.pattern_error fuel pattern = true.
Proof.
  induction fuel as [|fuel IH]; intros [|c p] name;
    cbn [filepath.Match_loop filepath.pattern_error]; try done.
  destruct (filepath.scanChunk (String c p)) as [[star chunk] rest] eqn:Es.
  destruct (star && Nat.eqb (String.length chunk) 0) eqn:E1; [done|].
  destruct (filepath.matchChunk chunk name) as [[t ok] err] eqn:Em.
  assert (snd (filepath.matchChunk chunk EmptyString) = err) as Herr.
  { rewrite (matchChunk_err_indep chunk EmptyString name). by rewrite Em. }
  rewrite Herr.
  destruct (ok && _) eqn:E2.
  { intros H. destruct err; [done|]. by apply (IH rest t). }
  destruct err as [e|]; [done|].
  destruct star.
  - destruct (filepath.star_loop chunk _ name) as [t'|e|] eqn:Est.
    + apply IH.
    + apply star_loop_error in Est. congruence.
    + apply check_rest_error.
  - apply check_rest_error.
Qed.

(** If [Match] reports the pattern as malformed on one name, it matches no
    name at all. *)
Lemma Match_error_never_matches (pattern name name' : string) :
  snd (filepath.Match pattern name) <> None ->
  fst (filepath.Match pattern name') = false.
Proof.
  unfold filepath.Match. intros H%Match_loop_error.
  destruct (fst (filepath.Match_loop (String.length pattern) pattern name')) eqn:E; [|done].
  apply Match_loop_true in E. congruence.
Qed.

Lemma matches_bad_pattern (pattern name name' : string) :
  snd (filepath.Match pattern name) <> None -> matches pattern name' = false.
Proof.
  intros H. unfold matches.
  pose proof (Match_error_never_matches pattern name name' H) as Hf.
  destruct (filepath.Match pattern name') as [ok err]. cbn [fst] in Hf. by subst ok.
Qed.

(** * The claims *)

(** * Scans that pass over an entry *)

Lemma fold_left_skip {A B} (f : A -> B -> A) (l1 l2 : list B) (x : B) (acc : A) :
  (forall a, f a x = a) ->
  fold_left f (l1 ++ x :: l2) acc = fold_left f (l1 ++ l2) acc.
Proof. intros H. rewrite !fold_left_app. cbn [fold_left]. by rewrite H. Qed.

Lemma pattern_step_skip (now : Z) (pattern : string) (e : entry) (ret : list string) :
  selected now pattern e = false -> pattern_step now pattern ret e = ret.
Proof. intros H. by rewrite pattern_step_selected, H. Qed.

Lemma selected_expired (now : Z) (pattern : string) (e : entry) :
  0 < Expiration e -> Expiration e < now -> selected now pattern e = false.
Proof.
  intros H1 H2. unfold selected.
  assert (isExpired now (Expiration e) = true) as -> by (apply isExpired_true; lia).
  apply andb_false_r.
Qed.

Lemma selected_match_error (now : Z) (pattern : string) (e : entry) :
  snd (filepath.Match pattern (Key e)) <> None -> selected now pattern e = false.
Proof.
  intros H. unfold selected, matches.
  destruct (filepath.Match pattern (Key e)) as [ok err]. cbn [snd] in H.
  rewrite bool_decide_eq_false_2 by done. by rewrite andb_false_r.
Qed.

Lemma Memory_GetPattern_skip (now : Z) (pattern : string) (s : MemoryStorage.t)
    (l1 l2 : list (string * entry)) (key : string) (e : entry) :
  selected now pattern e = false ->
  MemoryStorage.GetPattern now pattern (l1 ++ (key, e) :: l2) s
  = MemoryStorage.GetPattern now pattern (l1 ++ l2) s.
Proof.
  intros H. unfold MemoryStorage.GetPattern.
  rewrite (fold_left_skip _ l1 l2 (key, e)); [done|].
  intros ret. by apply pattern_step_skip.
Qed.

Lemma Local_GetPattern_skip (now : Z) (pattern : string) (s : LocalStorage.t) (name : string) :
  (exists c, LocalStorage.files s !! name = Some (RegularFile c)) ->
  (forall ret, LocalStorage.GetPattern_step now pattern s ret name = ret) ->
  exists k1 k2,
    fst (LocalStorage.getAllStorageKeys s) = k1 ++ name :: k2 /\
    LocalStorage.GetPattern now pattern s
    = (s, NewReader (Sprintf_array
            (fold_left (LocalStorage.GetPattern_step now pattern s) (k1 ++ k2) [])), None).
Proof.
  intros Hfile Hstep. apply getAllStorageKeys_elem in Hfile.
  apply list_elem_of_split in Hfile as (k1 & k2 & Hk).
  exists k1, k2. split; [done|].
  unfold LocalStorage.GetPattern, LocalStorage.lockAll, LocalStorage.unlockAll.
  destruct (LocalStorage.getAllStorageKeys s) as [keys err] eqn:E.
  assert (err = None) as -> by (unfold LocalStorage.getAllStorageKeys in E; congruence).
  cbn [fst] in Hk. subst keys. by rewrite fold_left_skip.
Qed.

Lemma Sprintf_array_nil : Sprintf_array [] = "[]"%string.
Proof. reflexivity. Qed.

Lemma filter_none {A} (P : A -> bool) (l : list A) :
  (forall x, x ∈ l -> P x = false) -> List.filter P l = [].
Proof.
  induction l as [|x l IH]; intros H; cbn [List.filter]; [done|].
  rewrite (H x) by apply list_elem_of_here. apply IH. intros y Hy. apply H.
  by apply list_elem_of_further.
Qed.

(** * C1 *)

(** C1. On either backend, [Put(key, value, NoExpiration)] followed by
    [Get(key)] returns exactly the bytes of [value]: the in-memory [Put]
    returns nil and the next [Get], at any time, yields [value]; whenever the
    durable [Put] returns nil the next [Get] decodes the file back to
    [value]; and the durable [Put] returns nil unless a directory occupies
    the file name of the key. *)
Theorem C1_put_get_roundtrip (now now' : Z) (key value : string) :
  (forall s : MemoryStorage.t,
     let s1 := fst (MemoryStorage.Put now key value NoExpiration s) in
     snd (MemoryStorage.Put now key value NoExpiration s) = None /\
     MemoryStorage.Get now' key s1 = (MemoryStorage.lock key s1, NewReader value, None))
  /\
  (forall s : LocalStorage.t,
     snd (LocalStorage.Put now key value NoExpiration s) = None ->
     let s1 := fst (LocalStorage.Put now key value NoExpiration s) in
     LocalStorage.Get now' key s1 = (LocalStorage.lock key s1, NewReader value, None))
  /\
  (forall s : LocalStorage.t,
     (forall b, LocalStorage.files s !! md5Hash key <> Some (Directory b)) ->
     snd (LocalStorage.Put now key value NoExpiration s) = None).
Proof.
  split; [|split].
  - intros s. cbv zeta. split; [reflexivity|].
    pose proof (Memory_Get_after_Put now now' key value NoExpiration s) as H. cbv zeta in H.
    by rewrite H, newExpiration_sentinel, isExpired_zero.
  - intros s Hput. cbv zeta.
    pose proof (Local_Get_after_Put now now' key value NoExpiration s Hput) as H. cbv zeta in H.
    by rewrite H, newExpiration_sentinel, isExpired_zero.
  - intros s H. by apply Local_Put_ok.
Qed.

Lemma C1_put_get_roundtrip_witness :
  let s := LocalStorage.mk ∅ ∅ in
  let s1 := fst (LocalStorage.Put 1000 "a key" "a value" NoExpiration s) in
  snd (LocalStorage.Put 1000 "a key" "a value" NoExpiration s) = None /\
  LocalStorage.Get 2000 "a key" s1 = (LocalStorage.lock "a key" s1, NewReader "a value", None).
Proof.
  cbv zeta. split.
  - apply (C1_put_get_roundtrip 1000 2000 "a key" "a value").
    intros b. vm_compute. discriminate.
  - apply (C1_put_get_roundtrip 1000 2000 "a key" "a value").
    vm_compute. reflexivity.
Defined.

(** * C2 *)

(** C2. A stored entry with [expiration > 0] and [now > expiration] is
    treated as absent by every read path of both backends: [Get] reports the
    not-found error, and [GetPattern] returns what the scan returns when the
    entry is left out, although the entry is still in the table, or its file
    still in the directory listing. *)
Theorem C2_expired_entry_absent (now : Z) (e : entry) :
  0 < Expiration e -> Expiration e < now ->
  (forall (s : MemoryStorage.t) (key : string),
     MemoryStorage.data s !! key = Some e ->
     MemoryStorage.Get now key s
     = (MemoryStorage.lock key s, NewReader_nil, Some NotExistsError))
  /\
  (forall (s : MemoryStorage.t) (key pattern : string) (l1 l2 : list (string * entry)),
     MemoryStorage.range_order s (l1 ++ (key, e) :: l2) ->
     MemoryStorage.GetPattern now pattern (l1 ++ (key, e) :: l2) s
     = MemoryStorage.GetPattern now pattern (l1 ++ l2) s)
  /\
  (forall (s : LocalStorage.t) (key : string),
     LocalStorage.stored_entry s (md5Hash key) = Some e ->
     LocalStorage.Get now key s
     = (LocalStorage.lock key s, NewReader_nil, Some NotExistsError))
  /\
  (forall (s : LocalStorage.t) (name pattern : string),
     LocalStorage.stored_entry s name = Some e ->
     exists k1 k2,
       fst (LocalStorage.getAllStorageKeys s) = k1 ++ name :: k2 /\
       LocalStorage.GetPattern now pattern s
       = (s, NewReader (Sprintf_array
               (fold_left (LocalStorage.GetPattern_step now pattern s) (k1 ++ k2) [])), None))
  /\ IsNotExist (Some NotExistsError) = true.
Proof.
  intros H1 H2.
  assert (isExpired now (Expiration e) = true) as Hexp by (apply isExpired_true; lia).
  repeat split.
  - intros s key Hs. by rewrite Memory_Get_spec, Hs, Hexp.
  - intros s key pattern l1 l2 _. apply Memory_GetPattern_skip. by apply selected_expired.
  - intros s key Hs. by rewrite (Local_Get_stored _ _ _ _ Hs), Hexp.
  - intros s name pattern Hs. apply Local_GetPattern_skip.
    + apply stored_entry_file in Hs as (b & Hb & _). by exists b.
    + intros ret. rewrite GetPattern_step_spec, Hs.
      apply pattern_step_skip. by apply selected_expired.
Qed.

Lemma C2_expired_entry_absent_witness :
  let e := mkEntry "a key" "a value" 1500 in
  let m := MemoryStorage.mk ∅ {[ "a key"%string := e ]} in
  let d := LocalStorage.mk ∅ {[ md5Hash "a key" := RegularFile (json.Marshal e) ]} in
  MemoryStorage.Get 2000 "a key" m = (MemoryStorage.lock "a key" m, NewReader_nil, Some NotExistsError)
  /\ MemoryStorage.GetPattern 2000 "*" ([] ++ ("a key"%string, e) :: []) m
     = MemoryStorage.GetPattern 2000 "*" ([] ++ []) m
  /\ LocalStorage.Get 2000 "a key" d = (LocalStorage.lock "a key" d, NewReader_nil, Some NotExistsError)
  /\ exists k1 k2,
       fst (LocalStorage.getAllStorageKeys d) = k1 ++ md5Hash "a key" :: k2 /\
       LocalStorage.GetPattern 2000 "*" d
       = (d, NewReader (Sprintf_array
               (fold_left (LocalStorage.GetPattern_step 2000 "*" d) (k1 ++ k2) [])), None).
Proof.
  cbv zeta.
  destruct (C2_expired_entry_absent 2000 (mkEntry "a key" "a value" 1500))
    as (Hm & Hmp & Hl & Hlp & _); [cbn; lia | cbn; lia |].
  split; [|split; [|split]].
  - apply Hm. vm_compute. reflexivity.
  - apply Hmp. unfold MemoryStorage.range_order. vm_compute. reflexivity.
  - apply Hl. vm_compute. reflexivity.
  - apply Hlp. vm_compute. reflexivity.
Defined.

(** The second sentence the claim comes from: after [Put(key, value, d)]
    with [d > 0] and a wait longer than [d], [Get(key)] reports not-found. *)
Lemma put_wait_get_not_found (now now' d : Z) (key value : string) :
  0 < d -> 0 < now + d <= MaxInt64 -> now + d < now' ->
  (forall s : MemoryStorage.t,
     let s1 := fst (MemoryStorage.Put now key value d s) in
     MemoryStorage.Get now' key s1
     = (MemoryStorage.lock key s1, NewReader_nil, Some NotExistsError))
  /\
  (forall s : LocalStorage.t,
     snd (LocalStorage.Put now key value d s) = None ->
     let s1 := fst (LocalStorage.Put now key value d s) in
     LocalStorage.Get now' key s1
     = (LocalStorage.lock key s1, NewReader_nil, Some NotExistsError)).
Proof.
  intros Hd Hr Hw.
  assert (isExpired now' (newExpiration now d) = true) as Hexp.
  { rewrite newExpiration_duration by (unfold NoExpiration; lia).
    rewrite wrap64_id by (unfold int64, MinInt64, MaxInt64 in *; lia).
    apply isExpired_true. lia. }
  split.
  - intros s. pose proof (Memory_Get_after_Put now now' key value d s) as H.
    cbv zeta in *. by rewrite H, Hexp.
  - intros s Hput. pose proof (Local_Get_after_Put now now' key value d s Hput) as H.
    cbv zeta in *. by rewrite H, Hexp.
Qed.

(** * C9 *)

(** C9. Whenever [Get] returns a non-nil error, on either backend, the
    reader it returns with it is the empty one: it yields zero bytes. *)
Theorem C9_error_reader_empty (now : Z) (key : string) :
  (forall (s s' : MemoryStorage.t) (r : reader) (err : error),
     MemoryStorage.Get now key s = (s', r, Some err) ->
     r = NewReader_nil /\ String.length r = 0%nat)
  /\
  (forall (s s' : LocalStorage.t) (r : reader) (err : error),
     LocalStorage.Get now key s = (s', r, Some err) ->
     r = NewReader_nil /\ String.length r = 0%nat).
Proof.
  split.
  - intros s s' r err. rewrite Memory_Get_spec.
    destruct (MemoryStorage.data s !! key) as [e|].
    + destruct (isExpired now (Expiration e)); intros [= <- <- <-]; done.
    + intros [= <- <- <-]; done.
  - intros s s' r err. rewrite Local_Get_spec. cbv zeta.
    destruct (LocalStorage.files s !! md5Hash key) as [[b|d]|];
      try (intros [= <- <- <-]; done).
    destruct (Nat.eqb (String.length b) 0); [intros [= <- <- <-]; done|].
    destruct (json.Unmarshal b) as [e0|e]; [intros [= <- <- <-]; done|].
    destruct (isExpired now (Expiration e)); intros [= <- <- <-]; done.
Qed.

Lemma C9_error_reader_empty_witness :
  let m := MemoryStorage.mk ∅ ∅ in
  let d := LocalStorage.mk ∅ {[ md5Hash "a key" := RegularFile "not json" ]} in
  (MemoryStorage.Get 1000 "a key" m
   = (MemoryStorage.lock "a key" m, NewReader_nil, Some NotExistsError)
   /\ String.length (snd (fst (MemoryStorage.Get 1000 "a key" m))) = 0%nat)
  /\
  (LocalStorage.Get 1000 "a key" d
   = (LocalStorage.lock "a key" d, NewReader_nil, Some SyntaxError)
   /\ String.length (snd (fst (LocalStorage.Get 1000 "a key" d))) = 0%nat).
Proof.
  cbv zeta. split.
  - assert (MemoryStorage.Get 1000 "a key" (MemoryStorage.mk ∅ ∅)
            = (MemoryStorage.lock "a key" (MemoryStorage.mk ∅ ∅), NewReader_nil,
               Some NotExistsError)) as Hm by (vm_compute; reflexivity).
    split; [exact Hm|]. rewrite Hm. cbn [fst snd].
    apply (proj1 (C9_error_reader_empty 1000 "a key") _ _ _ _ Hm).
  - assert (LocalStorage.Get 1000 "a key"
              (LocalStorage.mk ∅ {[ md5Hash "a key" := RegularFile "not json" ]})
            = (LocalStorage.lock "a key"
                 (LocalStorage.mk ∅ {[ md5Hash "a key" := RegularFile "not json" ]}),
               NewReader_nil, Some SyntaxError)) as Hd by (vm_compute; reflexivity).
    split; [exact Hd|]. rewrite Hd. cbn [fst snd].
    apply (proj2 (C9_error_reader_empty 1000 "a key") _ _ _ _ Hd).
Defined.

(** * C6 *)

(** C6. [GetPattern] returns the bytes [[{"key1":"value1"},...]]: an opening
    bracket, one object per entry that is stored, matches the pattern and
    has not expired, the objects separated by commas, and a closing
    bracket, with a nil error. In memory the entries are those of the
    table, in the order of the [range]; on the durable backend they are the
    decoded contents of the regular files of the storage directory, every
    one of them, each once, in the order of the file names. When no entry
    is selected, and so on the empty store, the result is exactly [[]]. *)
Theorem C6_GetPattern_output (now : Z) (pattern : string) :
  (forall (s : MemoryStorage.t) (visit : list (string * entry)),
     MemoryStorage.range_order s visit ->
     let hits := List.filter (selected now pattern) (List.map snd visit) in
     MemoryStorage.GetPattern now pattern visit s
     = (s, NewReader ("[" +:+ String.concat "," (List.map object_of hits) +:+ "]"), None)
     /\ (hits = [] -> MemoryStorage.GetPattern now pattern visit s = (s, NewReader "[]", None))
     /\ (MemoryStorage.data s = ∅ ->
         MemoryStorage.GetPattern now pattern visit s = (s, NewReader "[]", None)))
  /\
  (forall s : LocalStorage.t,
     exists names : list string,
       listing (LocalStorage.files s) names
       /\ let hits :=
            List.filter (selected now pattern)
              (omap (decoded (LocalStorage.files s)) names) in
          LocalStorage.GetPattern now pattern s
          = (s, NewReader ("[" +:+ String.concat "," (List.map object_of hits) +:+ "]"), None)
          /\ (hits = [] -> LocalStorage.GetPattern now pattern s = (s, NewReader "[]", None))
          /\ (LocalStorage.files s = ∅ ->
              LocalStorage.GetPattern now pattern s = (s, NewReader "[]", None)))
  /\
  (forall (s : LocalStorage.t) (name b : string) (e : entry),
     LocalStorage.files s !! name = Some (RegularFile b) ->
     b <> EmptyString -> json.Unmarshal b = inr e -> selected now pattern e = true ->
     exists l1 l2 : list string,
       LocalStorage.GetPattern now pattern s
       = (s, NewReader ("[" +:+ String.concat "," (l1 ++ object_of e :: l2) +:+ "]"), None))
  /\
  (forall e : entry,
     object_of e
     = "{" +:+ dquote +:+ Key e +:+ dquote +:+ ":" +:+ dquote +:+ Value e +:+ dquote +:+ "}").
Proof.
  split; [|split; [|split]].
  - intros s visit Hvisit hits. rewrite Memory_GetPattern_spec. fold hits.
    split; [reflexivity|]. split.
    + intros ->. reflexivity.
    + intros Hempty. unfold MemoryStorage.range_order in Hvisit.
      rewrite Hempty, map_to_list_empty in Hvisit.
      apply Permutation_nil_r in Hvisit. subst visit hits. reflexivity.
  - intros s. destruct (Local_GetPattern_listing now pattern s) as (names & Hl & Hget).
    exists names. split; [exact Hl|]. cbv zeta. rewrite Hget.
    split; [reflexivity|]. split.
    + intros ->. reflexivity.
    + intros Hempty. rewrite Hempty in Hl. by rewrite (listing_empty _ Hl).
  - intros s name b e Hf Hb Hu Hsel.
    destruct (Local_GetPattern_listing now pattern s) as (names & (Hin & _) & Hget).
    assert (name ∈ names) as Hname by (apply Hin; by exists b).
    apply list_elem_of_split in Hname as (n1 & n2 & ->).
    assert (decoded (LocalStorage.files s) name = Some e) as Hd.
    { unfold decoded. by rewrite Hf, (length_eqb_0 _ Hb), Hu. }
    rewrite omap_app in Hget. cbn [omap list_omap] in Hget. rewrite Hd in Hget.
    rewrite List.filter_app in Hget. cbn [List.filter] in Hget. rewrite Hsel in Hget.
    rewrite List.map_app in Hget. cbn [List.map] in Hget.
    eexists _, _. exact Hget.
  - reflexivity.
Qed.

Lemma C6_GetPattern_output_witness :
  let e1 := mkEntry "a key" "a value" 0 in
  let e2 := mkEntry "another key" "another value" 0 in
  let m := MemoryStorage.mk ∅ {[ "a key"%string := e1; "another key"%string := e2 ]} in
  let visit := [("another key"%string, e2); ("a key"%string, e1)] in
  let d := LocalStorage.mk ∅ {[ md5Hash "a key" := RegularFile (json.Marshal e1) ]} in
  MemoryStorage.GetPattern 1000 "another*" visit m
  = (m, NewReader ("[" +:+ object_of e2 +:+ "]"), None)
  /\ MemoryStorage.GetPattern 1000 "*" [] (MemoryStorage.mk ∅ ∅)
     = (MemoryStorage.mk ∅ ∅, NewReader "[]", None)
  /\ LocalStorage.GetPattern 1000 "*" (LocalStorage.mk ∅ ∅)
     = (LocalStorage.mk ∅ ∅, NewReader "[]", None)
  /\ LocalStorage.GetPattern 1000 "a*" d
     = (d, NewReader ("[" +:+ object_of e1 +:+ "]"), None).
Proof.
  intros e1 e2 m visit d.
  pose proof (C6_GetPattern_output 1000 "another*") as (Hm1 & _).
  pose proof (C6_GetPattern_output 1000 "*") as (Hm2 & Hd2 & _).
  pose proof (C6_GetPattern_output 1000 "a*") as (_ & Hd3 & _).
  split; [|split; [|split]].
  - apply Hm1. unfold MemoryStorage.range_order. vm_compute. reflexivity.
  - apply (Hm2 (MemoryStorage.mk ∅ ∅) []).
    + unfold MemoryStorage.range_order. vm_compute. reflexivity.
    + reflexivity.
  - destruct (Hd2 (LocalStorage.mk ∅ ∅)) as (names & _ & _ & _ & H). by apply H.
  - destruct (Hd3 d) as (names & Hl & H & _).
    pose proof (listing_singleton _ _ _ Hl) as Hn.
    rewrite Hn in H. rewrite H.
    assert (decoded (LocalStorage.files d) (md5Hash "a key") = Some e1) as Hdec.
    { unfold decoded. subst d. cbn [LocalStorage.files]. rewrite lookup_singleton_eq.
      rewrite Marshal_nonempty. by rewrite (Unmarshal_Marshal e1 ltac:(vm_compute; split; discriminate)). }
    cbn [omap list_omap]. rewrite Hdec. reflexivity.
Defined.

(** The test of the repository: two entries, the pattern ["another*"]. *)
Example GetPattern_another :
  let s0 := LocalStorage.mk ∅ ∅ in
  let s1 := fst (LocalStorage.Put 1000 "a key" "a value" NoExpiration s0) in
  let s2 := fst (LocalStorage.Put 1000 "another key" "another value" NoExpiration s1) in
  snd (fst (LocalStorage.GetPattern 2000 "another*" s2))
  = "[{" +:+ dquote +:+ "another key" +:+ dquote +:+ ":"
    +:+ dquote +:+ "another value" +:+ dquote +:+ "}]".
Proof. vm_compute. reflexivity. Qed.

(** * C7 *)

(** C7. A pattern that [filepath.Match] reports as malformed (on any name)
    matches no key: both [GetPattern]s return the empty array and no error,
    whatever the store holds. Entry by entry: when [filepath.Match] reports
    the error for the key of an entry, [GetPattern] passes over that entry
    and goes on with the scan, so the result is that of the scan without
    the entry, and the empty array when it is so for every entry. *)
Theorem C7_invalid_pattern (now : Z) (pattern : string) :
  (forall name0 : string,
     snd (filepath.Match pattern name0) <> None ->
     (forall key : string, matches pattern key = false)
     /\ (forall (s : MemoryStorage.t) (visit : list (string * entry)),
           MemoryStorage.GetPattern now pattern visit s = (s, NewReader "[]", None))
     /\ (forall s : LocalStorage.t,
           LocalStorage.GetPattern now pattern s = (s, NewReader "[]", None)))
  /\
  (forall (s : MemoryStorage.t) (l1 l2 : list (string * entry)) (key : string) (e : entry),
     MemoryStorage.range_order s (l1 ++ (key, e) :: l2) ->
     snd (filepath.Match pattern (Key e)) <> None ->
     MemoryStorage.GetPattern now pattern (l1 ++ (key, e) :: l2) s
     = MemoryStorage.GetPattern now pattern (l1 ++ l2) s
     /\ snd (MemoryStorage.GetPattern now pattern (l1 ++ (key, e) :: l2) s) = None)
  /\
  (forall (s : MemoryStorage.t) (visit : list (string * entry)),
     MemoryStorage.range_order s visit ->
     (forall kv, kv ∈ visit -> snd (filepath.Match pattern (Key (snd kv))) <> None) ->
     MemoryStorage.GetPattern now pattern visit s = (s, NewReader "[]", None))
  /\
  (forall (s : LocalStorage.t) (name : string) (e : entry),
     LocalStorage.stored_entry s name = Some e ->
     snd (filepath.Match pattern (Key e)) <> None ->
     exists k1 k2,
       fst (LocalStorage.getAllStorageKeys s) = k1 ++ name :: k2 /\
       LocalStorage.GetPattern now pattern s
       = (s, NewReader (Sprintf_array
               (fold_left (LocalStorage.GetPattern_step now pattern s) (k1 ++ k2) [])), None))
  /\
  (forall s : LocalStorage.t,
     (forall name e, LocalStorage.stored_entry s name = Some e ->
                     snd (filepath.Match pattern (Key e)) <> None) ->
     LocalStorage.GetPattern now pattern s = (s, NewReader "[]", None)).
Proof.
  split; [|split; [|split; [|split]]].
  - intros name0 Hbad.
    assert (forall e : entry, selected now pattern e = false) as Hsel.
    { intros e. unfold selected. by rewrite (matches_bad_pattern _ _ _ Hbad). }
    split; [intros key; by apply (matches_bad_pattern _ name0)|]. split.
    + intros s visit. rewrite Memory_GetPattern_spec.
      rewrite filter_none; [reflexivity|]. intros e _. apply Hsel.
    + intros s. rewrite Local_GetPattern_spec.
      rewrite filter_none; [reflexivity|]. intros e _. apply Hsel.
  - intros s l1 l2 key e _ Hbad. split.
    + apply Memory_GetPattern_skip. by apply selected_match_error.
    + by rewrite Memory_GetPattern_spec.
  - intros s visit _ Hbad. rewrite Memory_GetPattern_spec.
    rewrite filter_none; [reflexivity|].
    intros e He. apply list_elem_of_fmap in He as (kv & -> & Hkv).
    apply selected_match_error. by apply Hbad.
  - intros s name e Hs Hbad. apply Local_GetPattern_skip.
    + apply stored_entry_file in Hs as (b & Hb & _). by exists b.
    + intros ret. rewrite GetPattern_step_spec, Hs.
      apply pattern_step_skip. by apply selected_match_error.
  - intros s Hbad. rewrite Local_GetPattern_spec.
    rewrite filter_none; [reflexivity|].
    intros e He. apply list_elem_of_omap in He as (name & _ & Hs).
    apply selected_match_error. by apply (Hbad name).
Qed.

Lemma C7_invalid_pattern_witness :
  let e := mkEntry "a key" "a value" 0 in
  let m := MemoryStorage.mk ∅ {[ "a key"%string := e ]} in
  let d := LocalStorage.mk ∅ {[ md5Hash "a key" := RegularFile (json.Marshal e) ]} in
  filepath.Match "[" "a key" = (false, Some ErrBadPattern)
  /\ matches "[" "any key" = false
  /\ LocalStorage.GetPattern 1000 "[" (LocalStorage.mk ∅ ∅) = (LocalStorage.mk ∅ ∅, NewReader "[]", None)
  /\ MemoryStorage.GetPattern 1000 "[" ([] ++ ("a key"%string, e) :: []) m
     = MemoryStorage.GetPattern 1000 "[" ([] ++ []) m
  /\ MemoryStorage.GetPattern 1000 "[" [("a key"%string, e)] m = (m, NewReader "[]", None)
  /\ LocalStorage.GetPattern 1000 "[" d = (d, NewReader "[]", None).
Proof.
  cbv zeta.
  destruct (C7_invalid_pattern 1000 "[") as (H0 & H1 & H2 & _ & H4).
  assert (snd (filepath.Match "[" "a key") <> None) as Hbad by (vm_compute; discriminate).
  destruct (H0 "a key"%string Hbad) as (Hm & _ & Hl).
  split; [reflexivity|]. split; [apply Hm|]. split; [apply Hl|]. split; [|split].
  - apply H1.
    + unfold MemoryStorage.range_order. vm_compute. reflexivity.
    + vm_compute. discriminate.
  - apply H2.
    + unfold MemoryStorage.range_order. vm_compute. reflexivity.
    + intros kv ->%list_elem_of_singleton. vm_compute. discriminate.
  - apply H4. intros name e (b & Hb & _ & Hu)%stored_entry_file.
    cbn [LocalStorage.files] in Hb.
    apply lookup_singleton_Some in Hb as [_ [= <-]].
    vm_compute in Hu. injection Hu as <-. vm_compute. discriminate.
Defined.

(** * C3 *)

(** C3 (as amended). [Put(key, value2, e2)] overwrites the entry of the key
    and never fails because the key exists: after a prior [Put] of the same
    key (one that succeeded, on the durable backend), the second [Put]
    returns nil, and a later [Get] never observes [value1]: it returns
    [value2] while the second entry has not expired and reports not-found
    once the expiration of that entry has passed. *)
Theorem C3_put_overwrites (now1 now2 now3 : Z) (key value1 value2 : string) (e1 e2 : Z) :
  (forall s : MemoryStorage.t,
     let s1 := fst (MemoryStorage.Put now1 key value1 e1 s) in
     let s2 := fst (MemoryStorage.Put now2 key value2 e2 s1) in
     snd (MemoryStorage.Put now2 key value2 e2 s1) = None
     /\ MemoryStorage.data s2 !! key = Some (mkEntry key value2 (newExpiration now2 e2))
     /\ MemoryStorage.Get now3 key s2
        = if isExpired now3 (newExpiration now2 e2)
          then (MemoryStorage.lock key s2, NewReader_nil, Some NotExistsError)
          else (MemoryStorage.lock key s2, NewReader value2, None))
  /\
  (forall s : LocalStorage.t,
     snd (LocalStorage.Put now1 key value1 e1 s) = None ->
     let s1 := fst (LocalStorage.Put now1 key value1 e1 s) in
     let s2 := fst (LocalStorage.Put now2 key value2 e2 s1) in
     snd (LocalStorage.Put now2 key value2 e2 s1) = None
     /\ LocalStorage.files s2 !! md5Hash key
        = Some (RegularFile (json.Marshal (mkEntry key value2 (newExpiration now2 e2))))
     /\ LocalStorage.Get now3 key s2
        = if isExpired now3 (newExpiration now2 e2)
          then (LocalStorage.lock key s2, NewReader_nil, Some NotExistsError)
          else (LocalStorage.lock key s2, NewReader value2, None)).
Proof.
  split.
  - intros s. cbv zeta. split; [reflexivity|]. split.
    + rewrite !Memory_Put_spec. cbn [fst MemoryStorage.data]. apply lookup_insert_eq.
    + apply (Memory_Get_after_Put now2 now3 key value2 e2).
  - intros s Hput1. cbv zeta.
    assert (snd (LocalStorage.Put now2 key value2 e2
                   (fst (LocalStorage.Put now1 key value1 e1 s))) = None) as Hput2.
    { pose proof (proj1 (Local_Put_ok now1 key value1 e1 s) Hput1) as Hall.
      apply Local_Put_ok. intros b. rewrite Local_Put_spec.
      destruct (LocalStorage.files s !! md5Hash key) as [[c|b']|] eqn:E;
        cbn [fst LocalStorage.files]; rewrite ?lookup_insert_eq; try done.
      by destruct (Hall b'). }
    split; [exact Hput2|]. split.
    + pose proof (proj1 (Local_Put_ok _ _ _ _ _) Hput2) as Hall2.
      rewrite (Local_Put_spec now2).
      destruct (LocalStorage.files (fst (LocalStorage.Put now1 key value1 e1 s))
                  !! md5Hash key) as [[c|b']|] eqn:E;
        cbn [fst LocalStorage.files]; rewrite ?lookup_insert_eq; try done.
      by destruct (Hall2 b').
    + apply (Local_Get_after_Put now2 now3 key value2 e2 _ Hput2).
Qed.

Lemma C3_put_overwrites_witness :
  let s := LocalStorage.mk ∅ ∅ in
  let s1 := fst (LocalStorage.Put 1000 "a key" "first" NoExpiration s) in
  let s2 := fst (LocalStorage.Put 2000 "a key" "second" 500 s1) in
  snd (LocalStorage.Put 2000 "a key" "second" 500 s1) = None
  /\ LocalStorage.Get 2400 "a key" s2 = (LocalStorage.lock "a key" s2, NewReader "second", None)
  /\ LocalStorage.Get 2600 "a key" s2
     = (LocalStorage.lock "a key" s2, NewReader_nil, Some NotExistsError).
Proof.
  cbv zeta.
  destruct (proj2 (C3_put_overwrites 1000 2000 2400 "a key" "first" "second" NoExpiration 500)
              (LocalStorage.mk ∅ ∅)) as (H1 & _ & H2); [vm_compute; reflexivity|].
  destruct (proj2 (C3_put_overwrites 1000 2000 2600 "a key" "first" "second" NoExpiration 500)
              (LocalStorage.mk ∅ ∅)) as (_ & _ & H3); [vm_compute; reflexivity|].
  split; [exact H1|]. split; [exact H2 | exact H3].
Defined.

(** The claim as it is written fails when the second entry has expired by
    the time of the [Get]: a second [Put] with the duration [-2] stores an
    entry that is expired from the start, and [PUT /keys/k?expire_in=0]
    stores one whose deadline is the write time, so that a [Get] one
    nanosecond later observes neither value. *)
Lemma C3_counterexample :
  let s := MemoryStorage.mk ∅ ∅ in
  let now := 1700000000000000000 in
  let s1 := fst (MemoryStorage.Put now "k" "value1" NoExpiration s) in
  (let s2 := fst (MemoryStorage.Put now "k" "value2" (-2) s1) in
   snd (MemoryStorage.Put now "k" "value2" (-2) s1) = None
   /\ MemoryStorage.Get now "k" s2
      = (MemoryStorage.lock "k" s2, NewReader_nil, Some NotExistsError))
  /\
  (let s2 := fst (MemoryStorage.Put now "k" "value2" 0 s1) in
   snd (MemoryStorage.Put now "k" "value2" 0 s1) = None
   /\ MemoryStorage.Get (now + 1) "k" s2
      = (MemoryStorage.lock "k" s2, NewReader_nil, Some NotExistsError)
   /\ snd (fst (MemoryStorage.Get (now + 1) "k" s2)) <> NewReader "value2").
Proof.
  vm_compute. split; [split; reflexivity|]. split; [reflexivity|].
  split; [reflexivity|discriminate].
Qed.

(** * C4 *)

(** C4 (as amended). When the bytes stored for a key cannot be decoded into
    an entry, a single-key [Get] returns the error of the decoder, together
    with the empty reader; that error is not the not-found error
    ([IsNotExist] is false for it). Only a file of length zero is reported
    as not-found. On a [GetPattern] scan the undecodable file is passed over
    and the scan goes on without error. *)
Theorem C4_undecodable (now : Z) (s : LocalStorage.t) (b : string) (err : error) :
  json.Unmarshal b = inl err ->
  (forall key : string,
     LocalStorage.files s !! md5Hash key = Some (RegularFile b) ->
     LocalStorage.Get now key s
     = if Nat.eqb (String.length b) 0
       then (LocalStorage.lock key s, NewReader_nil, Some NotExistsError)
       else (LocalStorage.lock key s, NewReader_nil, Some err))
  /\ IsNotExist (Some err) = false
  /\
  (forall name pattern : string,
     LocalStorage.files s !! name = Some (RegularFile b) ->
     exists k1 k2,
       fst (LocalStorage.getAllStorageKeys s) = k1 ++ name :: k2 /\
       LocalStorage.GetPattern now pattern s
       = (s, NewReader (Sprintf_array
               (fold_left (LocalStorage.GetPattern_step now pattern s) (k1 ++ k2) [])), None)).
Proof.
  intros Hu. split; [|split].
  - intros key Hf. rewrite Local_Get_spec. cbv zeta. rewrite Hf, Hu. reflexivity.
  - by apply (Unmarshal_error_not_NotExists b).
  - intros name pattern Hf. apply Local_GetPattern_skip; [by exists b|].
    intros ret. rewrite GetPattern_step_spec.
    assert (LocalStorage.stored_entry s name = None) as ->; [|done].
    unfold LocalStorage.stored_entry. rewrite getStorageData_spec, Hf, Hu.
    by destruct (Nat.eqb (String.length b) 0).
Qed.

Lemma C4_undecodable_witness :
  let d := LocalStorage.mk ∅ {[ md5Hash "a key" := RegularFile "{" ]} in
  json.Unmarshal "{" = inl SyntaxError
  /\ LocalStorage.Get 1000 "a key" d = (LocalStorage.lock "a key" d, NewReader_nil, Some SyntaxError)
  /\ IsNotExist (Some SyntaxError) = false
  /\ exists k1 k2,
       fst (LocalStorage.getAllStorageKeys d) = k1 ++ md5Hash "a key" :: k2 /\
       LocalStorage.GetPattern 1000 "*" d
       = (d, NewReader (Sprintf_array
               (fold_left (LocalStorage.GetPattern_step 1000 "*" d) (k1 ++ k2) [])), None).
Proof.
  cbv zeta.
  destruct (C4_undecodable 1000
              (LocalStorage.mk ∅ {[ md5Hash "a key" := RegularFile "{" ]}) "{" SyntaxError)
    as (Hget & Hne & Hpat); [vm_compute; reflexivity|].
  split; [vm_compute; reflexivity|]. split; [|split].
  - apply Hget. vm_compute. reflexivity.
  - exact Hne.
  - apply Hpat. vm_compute. reflexivity.
Defined.

(** The claim as it is written fails: the bytes ["{"] are not an entry, and
    [Get] hands on the syntax error of the decoder, which [IsNotExist]
    does not accept. *)
Lemma C4_counterexample :
  let d := LocalStorage.mk ∅ {[ md5Hash "a key" := RegularFile "{" ]} in
  json.Unmarshal "{" = inl SyntaxError
  /\ snd (LocalStorage.Get 1000 "a key" d) = Some SyntaxError
  /\ IsNotExist (snd (LocalStorage.Get 1000 "a key" d)) = false.
Proof. vm_compute. repeat split. Qed.

(** * C5 *)

(** C5 (as amended). [Delete(key)] reports the not-found error exactly when
    nothing is stored under the key: the key is not in the table, or no file
    has the name of the key. The expiration of the entry plays no part: an
    entry that is stored, expired or not, is removed and [Delete] returns
    nil (on the durable backend the removal of a regular file, or of an
    empty directory of that name, succeeds, and a non-empty directory gives
    an error of the file system, which is not the not-found error). *)
Theorem C5_delete (key : string) :
  (forall s : MemoryStorage.t,
     (snd (MemoryStorage.Delete key s) = Some NotExistsError
      <-> MemoryStorage.data s !! key = None)
     /\ (forall e, MemoryStorage.data s !! key = Some e ->
           MemoryStorage.Delete key s
           = (MemoryStorage.mk ({[key]} ∪ MemoryStorage.locks s)
                (delete key (MemoryStorage.data s)), None))
     /\ (forall now e, MemoryStorage.data s !! key = Some e ->
           isExpired now (Expiration e) = true ->
           snd (MemoryStorage.Delete key s) = None
           /\ MemoryStorage.data (fst (MemoryStorage.Delete key s)) !! key = None))
  /\
  (forall s : LocalStorage.t,
     (snd (LocalStorage.Delete key s) = Some NotExistsError
      <-> LocalStorage.files s !! md5Hash key = None)
     /\ (forall b, LocalStorage.files s !! md5Hash key = Some (RegularFile b) ->
           LocalStorage.Delete key s
           = (LocalStorage.mk ({[key]} ∪ LocalStorage.locks s)
                (delete (md5Hash key) (LocalStorage.files s)), None))
     /\ (forall now e, LocalStorage.stored_entry s (md5Hash key) = Some e ->
           isExpired now (Expiration e) = true ->
           snd (LocalStorage.Delete key s) = None
           /\ LocalStorage.files (fst (LocalStorage.Delete key s)) !! md5Hash key = None)
     /\ (LocalStorage.files s !! md5Hash key = Some (Directory true) ->
           snd (LocalStorage.Delete key s) = None)
     /\ (LocalStorage.files s !! md5Hash key = Some (Directory false) ->
           snd (LocalStorage.Delete key s) = Some (PathError ENOTEMPTY))).
Proof.
  split.
  - intros s. unfold MemoryStorage.Delete, MemoryStorage.unlock.
    cbn [MemoryStorage.lock MemoryStorage.data MemoryStorage.locks].
    destruct (MemoryStorage.data s !! key) as [e|] eqn:E; cbn [fst snd MemoryStorage.data].
    + split; [split; discriminate|]. split.
      * intros e' _. reflexivity.
      * intros now e' _ _. split; [reflexivity|]. apply lookup_delete_eq.
    + split; [done|]. split; [discriminate|]. intros now e' H. discriminate H.
  - intros s.
    assert (forall b, LocalStorage.stored_entry s (md5Hash key) = Some b ->
              exists c, LocalStorage.files s !! md5Hash key = Some (RegularFile c)) as Hstored.
    { intros e (c & Hc & _)%stored_entry_file. by exists c. }
    unfold LocalStorage.Delete, LocalStorage.deleteStorage, os.Remove in *.
    cbn [LocalStorage.lock LocalStorage.files LocalStorage.locks] in *.
    generalize dependent (md5Hash key). intros h Hstored.
    destruct (LocalStorage.files s !! h) as [[c|[|]]|] eqn:E; cbn [fst snd LocalStorage.files].
    + split; [split; discriminate|]. split; [intros b _; reflexivity|].
      split; [|split; discriminate].
      intros now e _ _. split; [reflexivity|]. apply lookup_delete_eq.
    + split; [split; discriminate|]. split; [discriminate|].
      split; [|split; [reflexivity|discriminate]].
      intros now e He _. destruct (Hstored e He) as [c Hc]. discriminate Hc.
    + split; [split; discriminate|]. split; [discriminate|].
      split; [|split; [discriminate|reflexivity]].
      intros now e He _. destruct (Hstored e He) as [c Hc]. discriminate Hc.
    + split; [done|]. split; [discriminate|].
      split; [|split; discriminate].
      intros now e He _. destruct (Hstored e He) as [c Hc]. discriminate Hc.
Qed.

Lemma C5_delete_witness :
  let e := mkEntry "a key" "a value" 1500 in
  let m := MemoryStorage.mk ∅ {[ "a key"%string := e ]} in
  let d := LocalStorage.mk ∅ {[ md5Hash "a key" := RegularFile (json.Marshal e) ]} in
  isExpired 2000 (Expiration e) = true
  /\ (snd (MemoryStorage.Delete "a key" m) = None
      /\ MemoryStorage.data (fst (MemoryStorage.Delete "a key" m)) !! "a key"%string = None)
  /\ (snd (LocalStorage.Delete "a key" d) = None
      /\ LocalStorage.files (fst (LocalStorage.Delete "a key" d)) !! md5Hash "a key" = None).
Proof.
  cbv zeta. split; [reflexivity|]. split.
  - apply (proj1 (C5_delete "a key") (MemoryStorage.mk ∅ {[ "a key"%string := _ ]}))
      with (now := 2000) (e := mkEntry "a key" "a value" 1500).
    + vm_compute. reflexivity.
    + reflexivity.
  - apply (proj2 (C5_delete "a key")
             (LocalStorage.mk ∅ {[ md5Hash "a key" := RegularFile _ ]}))
      with (now := 2000) (e := mkEntry "a key" "a value" 1500).
    + vm_compute. reflexivity.
    + reflexivity.
Defined.

(** The claim as it is written fails: an entry past its expiration is
    deleted like any other, and [Delete] returns nil, not the not-found
    error. *)
Lemma C5_counterexample :
  let e := mkEntry "a key" "a value" 1500 in
  let m := MemoryStorage.mk ∅ {[ "a key"%string := e ]} in
  isExpired 2000 (Expiration e) = true
  /\ MemoryStorage.Get 2000 "a key" m
     = (MemoryStorage.lock "a key" m, NewReader_nil, Some NotExistsError)
  /\ snd (MemoryStorage.Delete "a key" m) = None
  /\ IsNotExist (snd (MemoryStorage.Delete "a key" m)) = false.
Proof. vm_compute. repeat split. Qed.

(** * C8 *)

(** C8 (as amended). For every key, value and expiration argument, [Put] on
    an in-memory storage whose table is a map (not the nil map that a cache
    file holding [null] leaves) returns a nil error and stores the new entry
    under the key. A later [Get] returns the value unless the expiration of
    the new entry has passed at the time of the [Get]; a [Get] at the clock
    reading of the [Put] returns it when the expiration argument is the
    sentinel or is not negative. *)
Theorem C8_memory_put (now : Z) (key value : string) (d : Z)
    (s : LoadedMemoryStorage.t) (m : gmap string entry) :
  LoadedMemoryStorage.data s = MemoryCache.Table m ->
  let s1 :=
    LoadedMemoryStorage.mk ({[key]} ∪ LoadedMemoryStorage.locks s)
      (MemoryCache.Table (<[key := mkEntry key value (newExpiration now d)]> m)) in
  LoadedMemoryStorage.Put now key value d s = LoadedMemoryStorage.Returns (s1, None)
  /\ LoadedMemoryStorage.index (LoadedMemoryStorage.data s1) key
     = Some (mkEntry key value (newExpiration now d))
  /\ (forall now',
        LoadedMemoryStorage.Get now' key s1
        = if isExpired now' (newExpiration now d)
          then (LoadedMemoryStorage.lock key s1, NewReader_nil, Some NotExistsError)
          else (LoadedMemoryStorage.lock key s1, NewReader value, None))
  /\ (int64 now -> int64 d -> d = NoExpiration \/ 0 <= d ->
        LoadedMemoryStorage.Get now key s1
        = (LoadedMemoryStorage.lock key s1, NewReader value, None)).
Proof.
  intros Hs s1.
  assert (forall now',
            LoadedMemoryStorage.Get now' key s1
            = if isExpired now' (newExpiration now d)
              then (LoadedMemoryStorage.lock key s1, NewReader_nil, Some NotExistsError)
              else (LoadedMemoryStorage.lock key s1, NewReader value, None)) as Hget.
  { intros now'. subst s1. rewrite Loaded_Get_Table. cbv zeta.
    rewrite lookup_insert_eq. reflexivity. }
  split; [by apply Loaded_Put_Table|]. split; [|split].
  - subst s1. cbn [LoadedMemoryStorage.data LoadedMemoryStorage.index]. apply lookup_insert_eq.
  - exact Hget.
  - intros Hnow Hd Hcase. rewrite Hget.
    assert (isExpired now (newExpiration now d) = false) as ->; [|reflexivity].
    destruct Hcase as [-> | Hpos].
    + by rewrite newExpiration_sentinel.
    + unfold newExpiration. case_bool_decide; [|reflexivity].
      apply isExpired_false. unfold wrap64, int64, MinInt64, MaxInt64 in *.
      destruct (Z_lt_le_dec (now + d) (2 ^ 63)) as [Hsmall | Hbig].
      * right. rewrite Z.mod_small by lia. lia.
      * left.
        replace (now + d + 2 ^ 63) with (now + d - 2 ^ 63 + 1 * 2 ^ 64) by lia.
        rewrite Z.mod_add by lia. rewrite Z.mod_small by lia. lia.
Qed.

Lemma C8_memory_put_witness :
  let now := 1700000000000000000 in
  let s := LoadedMemoryStorage.new (MemoryCache.Table ∅) in
  let s1 :=
    LoadedMemoryStorage.mk {[ "a key"%string ]}
      (MemoryCache.Table {[ "a key"%string := mkEntry "a key" "a value" 1700000002000000000 ]}) in
  snd (MemoryCache.NewMemoryStorage ∅) = inr (MemoryCache.Table ∅)
  /\ LoadedMemoryStorage.Put now "a key" "a value" 2000000000 s
     = LoadedMemoryStorage.Returns (s1, None)
  /\ LoadedMemoryStorage.Get now "a key" s1
     = (LoadedMemoryStorage.lock "a key" s1, NewReader "a value", None).
Proof.
  intros now s s1.
  pose proof (C8_memory_put now "a key" "a value" 2000000000 s ∅ eq_refl) as H.
  cbv zeta in H. destruct H as (HPut & _ & _ & HGet).
  split; [reflexivity|]. split.
  - rewrite HPut. subst s1 s. unfold LoadedMemoryStorage.new.
    cbn [LoadedMemoryStorage.locks]. rewrite union_empty_r_L, insert_empty. reflexivity.
  - specialize (HGet ltac:(unfold int64, MinInt64, MaxInt64; lia)
                     ltac:(unfold int64, MinInt64, MaxInt64; lia) ltac:(right; lia)).
    subst s1 s. unfold LoadedMemoryStorage.new in HGet.
    cbn [LoadedMemoryStorage.locks] in HGet. rewrite union_empty_r_L, insert_empty in HGet.
    exact HGet.
Defined.

(** The claim as it is written fails for a negative duration other than the
    sentinel, whose entry is expired from the start, and for the duration
    zero as soon as the clock has moved: [Put] on the storage that
    [NewMemoryStorage] returns for an empty directory returns nil, and the
    [Get] that follows reports not-found. *)
Lemma C8_counterexample :
  let s := LoadedMemoryStorage.new (MemoryCache.Table ∅) in
  let now := 1700000000000000000 in
  let s1 := LoadedMemoryStorage.mk {[ "k"%string ]}
              (MemoryCache.Table {[ "k"%string := mkEntry "k" "v" (now - 2) ]}) in
  let s2 := LoadedMemoryStorage.mk {[ "k"%string ]}
              (MemoryCache.Table {[ "k"%string := mkEntry "k" "v" now ]}) in
  snd (MemoryCache.NewMemoryStorage ∅) = inr (MemoryCache.Table ∅)
  /\
  (LoadedMemoryStorage.Put now "k" "v" (-2) s = LoadedMemoryStorage.Returns (s1, None)
   /\ LoadedMemoryStorage.Get now "k" s1
      = (LoadedMemoryStorage.lock "k" s1, NewReader_nil, Some NotExistsError))
  /\
  (LoadedMemoryStorage.Put now "k" "v" 0 s = LoadedMemoryStorage.Returns (s2, None)
   /\ LoadedMemoryStorage.Get (now + 1) "k" s2
      = (LoadedMemoryStorage.lock "k" s2, NewReader_nil, Some NotExistsError)).
Proof. vm_compute. repeat split. Qed.

(** On the storage that [NewMemoryStorage] returns for a cache file holding
    [null], the table is the nil map: [Get] reports not-found and [Put]
    panics. *)
Example Put_on_nil_table :
  let s := LoadedMemoryStorage.new MemoryCache.NilTable in
  snd (MemoryCache.NewMemoryStorage {[ MemoryCache.memoryCacheFile := RegularFile "null" ]})
  = inr MemoryCache.NilTable
  /\ LoadedMemoryStorage.Get 1000 "k" s
     = (LoadedMemoryStorage.lock "k" s, NewReader_nil, Some NotExistsError)
  /\ LoadedMemoryStorage.Put 1000 "k" "v" NoExpiration s
     = LoadedMemoryStorage.Panics (LoadedMemoryStorage.lock "k" s).
Proof. vm_compute. repeat split. Qed.

(** * C10 *)

(** C10 (as amended). [Put(key, value, d)] with a duration [d] other than
    the sentinel stores an entry whose expiration is the write time plus
    [d], truncated to 64 bits. When [0 < now + d] and [d <= 0] the entry is
    already expired: every strictly later [Get] reports not-found. When
    [now + d <= 0] the stored expiration is not positive and the entry never
    expires. The sentinel gives the expiration 0, and so does every [d]
    with [now + d] equal to 0 modulo [2^64]. *)
Theorem C10_put_expiration (now d : Z) (key value : string) :
  d <> NoExpiration ->
  (forall s : MemoryStorage.t,
     MemoryStorage.data (fst (MemoryStorage.Put now key value d s)) !! key
     = Some (mkEntry key value (wrap64 (now + d))))
  /\
  (forall s : LocalStorage.t,
     snd (LocalStorage.Put now key value d s) = None ->
     LocalStorage.stored_entry (fst (LocalStorage.Put now key value d s)) (md5Hash key)
     = Some (mkEntry (json.coerce 0 true key) value (wrap64 (now + d))))
  /\ (int64 (now + d) -> wrap64 (now + d) = now + d)
  /\
  (0 < now + d <= MaxInt64 -> d <= 0 -> forall now', now < now' ->
     (forall s : MemoryStorage.t,
        let s1 := fst (MemoryStorage.Put now key value d s) in
        MemoryStorage.Get now' key s1
        = (MemoryStorage.lock key s1, NewReader_nil, Some NotExistsError))
     /\
     (forall s : LocalStorage.t,
        snd (LocalStorage.Put now key value d s) = None ->
        let s1 := fst (LocalStorage.Put now key value d s) in
        LocalStorage.Get now' key s1
        = (LocalStorage.lock key s1, NewReader_nil, Some NotExistsError)))
  /\
  (MinInt64 <= now + d <= 0 -> forall now',
     (forall s : MemoryStorage.t,
        let s1 := fst (MemoryStorage.Put now key value d s) in
        MemoryStorage.Get now' key s1 = (MemoryStorage.lock key s1, NewReader value, None))
     /\
     (forall s : LocalStorage.t,
        snd (LocalStorage.Put now key value d s) = None ->
        let s1 := fst (LocalStorage.Put now key value d s) in
        LocalStorage.Get now' key s1 = (LocalStorage.lock key s1, NewReader value, None)))
  /\ newExpiration now NoExpiration = 0
  /\ (newExpiration now d = 0 <-> wrap64 (now + d) = 0).
Proof.
  intros Hd. pose proof (newExpiration_duration now d Hd) as Hnew.
  split; [|split; [|split; [|split; [|split; [|split]]]]].
  - intros s. rewrite Memory_Put_spec. cbn [fst MemoryStorage.data].
    rewrite lookup_insert_eq. by rewrite Hnew.
  - intros s Hput. rewrite <- Hnew. by apply Local_Put_stored.
  - apply wrap64_id.
  - intros Hr Hneg now' Hlater.
    assert (isExpired now' (newExpiration now d) = true) as Hexp.
    { rewrite Hnew, wrap64_id by (unfold int64, MinInt64, MaxInt64 in *; lia).
      apply isExpired_true. lia. }
    split.
    + intros s. pose proof (Memory_Get_after_Put now now' key value d s) as H.
      cbv zeta in *. by rewrite H, Hexp.
    + intros s Hput. pose proof (Local_Get_after_Put now now' key value d s Hput) as H.
      cbv zeta in *. by rewrite H, Hexp.
  - intros Hr now'.
    assert (isExpired now' (newExpiration now d) = false) as Hexp.
    { rewrite Hnew, wrap64_id by (unfold int64, MinInt64, MaxInt64 in *; lia).
      apply isExpired_false. lia. }
    split.
    + intros s. pose proof (Memory_Get_after_Put now now' key value d s) as H.
      cbv zeta in *. by rewrite H, Hexp.
    + intros s Hput. pose proof (Local_Get_after_Put now now' key value d s Hput) as H.
      cbv zeta in *. by rewrite H, Hexp.
  - apply newExpiration_sentinel.
  - by rewrite Hnew.
Qed.

Lemma C10_put_expiration_witness :
  let s := LocalStorage.mk ∅ ∅ in
  let now := 1700000000000000000 in
  let s1 := fst (LocalStorage.Put now "a key" "a value" (-5) s) in
  LocalStorage.stored_entry s1 (md5Hash "a key")
  = Some (mkEntry (json.coerce 0 true "a key") "a value" (wrap64 (now + -5)))
  /\ wrap64 (now + -5) = now + -5
  /\ LocalStorage.Get (now + 1) "a key" s1
     = (LocalStorage.lock "a key" s1, NewReader_nil, Some NotExistsError).
Proof.
  cbv zeta.
  destruct (C10_put_expiration 1700000000000000000 (-5) "a key" "a value")
    as (_ & Hstored & Hwrap & Hexp & _); [unfold NoExpiration; lia|].
  split; [|split].
  - apply Hstored. vm_compute. reflexivity.
  - apply Hwrap. unfold int64, MinInt64, MaxInt64. lia.
  - apply Hexp; [unfold MaxInt64; lia | lia | lia | vm_compute; reflexivity].
Defined.

(** The claim as it is written fails at [d = -now]: the duration is not the
    sentinel and is negative, yet the stored expiration is 0 and a strictly
    later [Get] returns the value. *)
Lemma C10_counterexample :
  let s := MemoryStorage.mk ∅ ∅ in
  let now := 1700000000000000000 in
  let d := -1700000000000000000 in
  let s1 := fst (MemoryStorage.Put now "k" "v" d s) in
  d <> NoExpiration /\ d <= 0
  /\ MemoryStorage.data s1 !! "k"%string = Some (mkEntry "k" "v" 0)
  /\ MemoryStorage.Get (now + 1) "k" s1 = (MemoryStorage.lock "k" s1, NewReader "v", None).
Proof.
  cbv zeta. split; [unfold NoExpiration; lia|]. split; [lia|].
  split; vm_compute; reflexivity.
Qed.

(** * Beyond the claims: further properties of the code *)

(** * Deleting *)

Lemma Memory_Delete_spec (key : string) (s : MemoryStorage.t) :
  MemoryStorage.Delete key s
  = match MemoryStorage.data s !! key with
    | None => (MemoryStorage.lock key s, Some NotExistsError)
    | Some _ =>
      (MemoryStorage.mk ({[key]} ∪ MemoryStorage.locks s) (delete key (MemoryStorage.data s)),
       None)
    end.
Proof.
  unfold MemoryStorage.Delete, MemoryStorage.unlock.
  cbn [MemoryStorage.lock MemoryStorage.data MemoryStorage.locks].
  by destruct (MemoryStorage.data s !! key).
Qed.

Lemma Memory_Delete_data (key : string) (s : MemoryStorage.t) :
  MemoryStorage.data (fst (MemoryStorage.Delete key s)) = delete key (MemoryStorage.data s).
Proof.
  rewrite Memory_Delete_spec.
  destruct (MemoryStorage.data s !! key) eqn:E; cbn [fst MemoryStorage.data MemoryStorage.lock];
    [done|]. symmetry. by apply delete_id.
Qed.

Lemma deleteStorage_spec (name : string) (s : LocalStorage.t) :
  LocalStorage.deleteStorage name s
  = match LocalStorage.files s !! name with
    | None => (s, Some NotExistsError)
    | Some (Directory false) => (s, Some (PathError ENOTEMPTY))
    | Some _ => (LocalStorage.mk (LocalStorage.locks s) (delete name (LocalStorage.files s)), None)
    end.
Proof.
  unfold LocalStorage.deleteStorage, os.Remove. destruct s as [L F]. cbn [LocalStorage.files LocalStorage.locks].
  destruct (F !! name) as [[b|[|]]|]; reflexivity.
Qed.

Lemma Local_Delete_spec (key : string) (s : LocalStorage.t) :
  LocalStorage.Delete key s
  = match LocalStorage.files s !! md5Hash key with
    | None => (LocalStorage.lock key s, Some NotExistsError)
    | Some (Directory false) => (LocalStorage.lock key s, Some (PathError ENOTEMPTY))
    | Some _ =>
      (LocalStorage.mk ({[key]} ∪ LocalStorage.locks s)
         (delete (md5Hash key) (LocalStorage.files s)), None)
    end.
Proof.
  unfold LocalStorage.Delete. rewrite deleteStorage_spec.
  cbn [LocalStorage.lock LocalStorage.files LocalStorage.locks]. reflexivity.
Qed.

Lemma Memory_Delete_absent (key : string) (s : MemoryStorage.t) :
  MemoryStorage.data (fst (MemoryStorage.Delete key s)) !! key = None.
Proof. rewrite Memory_Delete_data. apply lookup_delete_eq. Qed.

Lemma Local_Delete_absent (key : string) (s : LocalStorage.t) :
  LocalStorage.files s !! md5Hash key <> Some (Directory false) ->
  LocalStorage.files (fst (LocalStorage.Delete key s)) !! md5Hash key = None.
Proof.
  rewrite Local_Delete_spec.
  destruct (LocalStorage.files s !! md5Hash key) as [[b|[|]]|] eqn:E;
    cbn [fst snd LocalStorage.files LocalStorage.lock]; intros Hne;
    rewrite ?lookup_delete_eq; done.
Qed.

(** X1. After [Delete(key)] the key is absent: on the in-memory backend,
    whatever [Delete] returned, and on the durable backend unless [Delete]
    failed on a non-empty directory, a following [Get] returns the empty
    reader with the not-found error, at any time, and a second [Delete]
    reports not-found. *)
Theorem X1_delete_then_absent (now : Z) (key : string) :
  (forall s : MemoryStorage.t,
     let s1 := fst (MemoryStorage.Delete key s) in
     MemoryStorage.Get now key s1
     = (MemoryStorage.lock key s1, NewReader_nil, Some NotExistsError)
     /\ snd (MemoryStorage.Delete key s1) = Some NotExistsError)
  /\
  (forall s : LocalStorage.t,
     snd (LocalStorage.Delete key s) <> Some (PathError ENOTEMPTY) ->
     let s1 := fst (LocalStorage.Delete key s) in
     LocalStorage.Get now key s1
     = (LocalStorage.lock key s1, NewReader_nil, Some NotExistsError)
     /\ snd (LocalStorage.Delete key s1) = Some NotExistsError).
Proof.
  split.
  - intros s s1.
    pose proof (Memory_Delete_absent key s) as Hk. fold s1 in Hk.
    rewrite Memory_Get_spec, Memory_Delete_spec, Hk. done.
  - intros s Hne s1.
    assert (LocalStorage.files s1 !! md5Hash key = None) as Hk.
    { apply Local_Delete_absent. intros E. apply Hne. by rewrite Local_Delete_spec, E. }
    rewrite Local_Get_spec, Local_Delete_spec, Hk. done.
Qed.

Lemma X1_delete_then_absent_witness :
  let s := fst (LocalStorage.Put 1000 "a key" "a value" NoExpiration (LocalStorage.mk ∅ ∅)) in
  let s1 := fst (LocalStorage.Delete "a key" s) in
  snd (LocalStorage.Delete "a key" s) = None
  /\ LocalStorage.Get 2000 "a key" s1
     = (LocalStorage.lock "a key" s1, NewReader_nil, Some NotExistsError)
  /\ snd (LocalStorage.Delete "a key" s1) = Some NotExistsError.
Proof.
  cbv zeta. split; [vm_compute; reflexivity|].
  apply (proj2 (X1_delete_then_absent 2000 "a key")).
  vm_compute. discriminate.
Defined.

(** * Deleting everything *)

Lemma fold_delete_lookup {A} (l : list (string * A)) (m : gmap string A) (k : string) :
  fold_left (fun m kv => delete (fst kv) m) l m !! k
  = if bool_decide (k ∈ l.*1) then None else m !! k.
Proof.
  revert m. induction l as [|[k0 a] l IH]; intros m; cbn [fold_left fmap list_fmap fst].
  - rewrite bool_decide_eq_false_2; [done|]. apply not_elem_of_nil.
  - rewrite IH. destruct (decide (k ∈ l.*1)) as [Hin|Hin].
    + rewrite !bool_decide_eq_true_2; [done| |done]. by apply list_elem_of_further.
    + rewrite (bool_decide_eq_false_2 _ Hin).
      destruct (decide (k = k0)) as [->|Hne].
      * rewrite bool_decide_eq_true_2 by apply list_elem_of_here. apply lookup_delete_eq.
      * rewrite bool_decide_eq_false_2.
        -- by apply lookup_delete_ne.
        -- intros [?|?]%elem_of_cons; done.
Qed.

Lemma Memory_DeleteAll_spec (s : MemoryStorage.t) :
  MemoryStorage.DeleteAll s = (MemoryStorage.mk (MemoryStorage.locks s) ∅, None).
Proof.
  unfold MemoryStorage.DeleteAll, MemoryStorage.lockAll, MemoryStorage.unlockAll.
  cbv zeta. f_equal. f_equal. apply map_eq. intros k.
  rewrite fold_delete_lookup, lookup_empty.
  destruct (MemoryStorage.data s !! k) as [e|] eqn:E.
  - rewrite bool_decide_eq_true_2; [done|].
    apply list_elem_of_fmap. exists (k, e). split; [done|]. by apply elem_of_map_to_list.
  - by destruct (bool_decide _).
Qed.

(** What the loop of the durable [DeleteAll] leaves under a name: the
    names it is run on lose their regular file (or empty directory). *)
Lemma fold_deleteStorage_files (l : list string) (s : LocalStorage.t) (n : string) :
  LocalStorage.files (fold_left (fun s key => fst (LocalStorage.deleteStorage key s)) l s) !! n
  = if bool_decide (n ∈ l)
    then match LocalStorage.files s !! n with
         | Some (Directory false) => Some (Directory false)
         | _ => None
         end
    else LocalStorage.files s !! n.
Proof.
  revert s. induction l as [|k l IH]; intros s; cbn [fold_left].
  - rewrite bool_decide_eq_false_2; [done|]. apply not_elem_of_nil.
  - rewrite IH. rewrite deleteStorage_spec.
    destruct (decide (n = k)) as [->|Hne].
    + rewrite (bool_decide_eq_true_2 (k ∈ k :: l)) by apply list_elem_of_here.
      destruct (LocalStorage.files s !! k) as [[b|[|]]|] eqn:E;
        cbn [fst LocalStorage.files]; rewrite ?lookup_delete_eq, ?E;
        by destruct (bool_decide (k ∈ l)).
    + assert (LocalStorage.files
                (fst match LocalStorage.files s !! k with
                     | Some (Directory false) => (s, Some (PathError ENOTEMPTY))
                     | Some _ =>
                       (LocalStorage.mk (LocalStorage.locks s) (delete k (LocalStorage.files s)),
                        None)
                     | None => (s, Some NotExistsError)
                     end) !! n = LocalStorage.files s !! n) as ->.
      { destruct (LocalStorage.files s !! k) as [[b|[|]]|]; cbn [fst LocalStorage.files];
          rewrite ?lookup_delete_ne; done. }
      destruct (decide (n ∈ l)) as [Hin|Hin].
      * rewrite !bool_decide_eq_true_2; [done| |done]. by apply list_elem_of_further.
      * rewrite !bool_decide_eq_false_2; [done| |done]. intros [?|?]%elem_of_cons; done.
Qed.

Lemma fold_deleteStorage_locks (l : list string) (s : LocalStorage.t) :
  LocalStorage.locks (fold_left (fun s key => fst (LocalStorage.deleteStorage key s)) l s)
  = LocalStorage.locks s.
Proof.
  revert s. induction l as [|k l IH]; intros s; cbn [fold_left]; [done|].
  rewrite IH, deleteStorage_spec.
  by destruct (LocalStorage.files s !! k) as [[b|[|]]|].
Qed.

Lemma Local_DeleteAll_files (s : LocalStorage.t) (n : string) :
  LocalStorage.files (fst (LocalStorage.DeleteAll s)) !! n
  = match LocalStorage.files s !! n with
    | Some (Directory b) => Some (Directory b)
    | _ => None
    end.
Proof.
  unfold LocalStorage.DeleteAll, LocalStorage.lockAll, LocalStorage.unlockAll. cbv zeta.
  destruct (LocalStorage.getAllStorageKeys s) as [keys err] eqn:Ek.
  assert (keys = fst (LocalStorage.getAllStorageKeys s)) as Hkeys by (by rewrite Ek).
  assert (err = None) as -> by (by inversion Ek).
  cbn [fst]. rewrite fold_deleteStorage_files.
  destruct (decide (n ∈ keys)) as [Hin|Hin].
  - rewrite bool_decide_eq_true_2 by done.
    rewrite Hkeys in Hin. apply getAllStorageKeys_elem in Hin as [c ->]. done.
  - rewrite bool_decide_eq_false_2 by done.
    destruct (LocalStorage.files s !! n) as [[c|b]|] eqn:E; try done.
    destruct Hin. rewrite Hkeys. apply getAllStorageKeys_elem. by exists c.
Qed.

Lemma Local_DeleteAll_ok (s : LocalStorage.t) : snd (LocalStorage.DeleteAll s) = None.
Proof. reflexivity. Qed.

Lemma Local_DeleteAll_regular (s : LocalStorage.t) (n c : string) :
  LocalStorage.files (fst (LocalStorage.DeleteAll s)) !! n <> Some (RegularFile c).
Proof.
  rewrite Local_DeleteAll_files. by destruct (LocalStorage.files s !! n) as [[c'|b]|].
Qed.

Lemma Local_DeleteAll_GetPattern (now : Z) (pattern : string) (s : LocalStorage.t) :
  LocalStorage.GetPattern now pattern (fst (LocalStorage.DeleteAll s))
  = (fst (LocalStorage.DeleteAll s), NewReader "[]", None).
Proof.
  rewrite Local_GetPattern_spec.
  assert (fst (LocalStorage.getAllStorageKeys (fst (LocalStorage.DeleteAll s))) = []) as ->.
  { apply elem_of_nil_inv. intros n [c Hc]%getAllStorageKeys_elem.
    by apply (Local_DeleteAll_regular s n c). }
  reflexivity.
Qed.

Lemma Memory_GetPattern_empty (now : Z) (pattern : string) (L : gset string)
    (visit : list (string * entry)) :
  MemoryStorage.range_order (MemoryStorage.mk L ∅) visit ->
  MemoryStorage.GetPattern now pattern visit (MemoryStorage.mk L ∅)
  = (MemoryStorage.mk L ∅, NewReader "[]", None).
Proof.
  unfold MemoryStorage.range_order. cbn [MemoryStorage.data]. rewrite map_to_list_empty.
  intros ->%Permutation_nil_r. reflexivity.
Qed.

(** X2. [DeleteAll] returns nil and empties the store. In memory the table
    is left empty: every [Get] reports not-found and [GetPattern] returns
    the empty array. On the durable backend every regular file is removed
    while subdirectories stay as they are: [GetPattern] returns the empty
    array, and [Get] reports not-found for every key whose file name is not
    that of a subdirectory. *)
Theorem X2_DeleteAll_empties (now : Z) :
  (forall s : MemoryStorage.t,
     let s1 := fst (MemoryStorage.DeleteAll s) in
     snd (MemoryStorage.DeleteAll s) = None
     /\ MemoryStorage.data s1 = ∅
     /\ (forall key, MemoryStorage.Get now key s1
                     = (MemoryStorage.lock key s1, NewReader_nil, Some NotExistsError))
     /\ (forall pattern visit,
           MemoryStorage.range_order s1 visit ->
           MemoryStorage.GetPattern now pattern visit s1 = (s1, NewReader "[]", None)))
  /\
  (forall s : LocalStorage.t,
     let s1 := fst (LocalStorage.DeleteAll s) in
     snd (LocalStorage.DeleteAll s) = None
     /\ (forall n c, LocalStorage.files s1 !! n <> Some (RegularFile c))
     /\ (forall n b, LocalStorage.files s1 !! n = Some (Directory b)
                     <-> LocalStorage.files s !! n = Some (Directory b))
     /\ (forall key,
           (forall b, LocalStorage.files s !! md5Hash key <> Some (Directory b)) ->
           LocalStorage.Get now key s1
           = (LocalStorage.lock key s1, NewReader_nil, Some NotExistsError))
     /\ (forall pattern,
           LocalStorage.GetPattern now pattern s1 = (s1, NewReader "[]", None))).
Proof.
  split.
  - intros s s1. subst s1. rewrite Memory_DeleteAll_spec. cbn [fst snd MemoryStorage.data].
    split; [done|]. split; [done|]. split.
    + intros key. rewrite Memory_Get_spec. cbn [MemoryStorage.data]. by rewrite lookup_empty.
    + intros pattern visit Hvisit. by apply Memory_GetPattern_empty.
  - intros s s1. split; [reflexivity|].
    split; [apply Local_DeleteAll_regular|]. split; [|split].
    + intros n b. subst s1. rewrite Local_DeleteAll_files.
      destruct (LocalStorage.files s !! n) as [[c'|b']|]; split; done.
    + intros key Hdir. rewrite Local_Get_spec. cbv zeta.
      subst s1. rewrite Local_DeleteAll_files.
      destruct (LocalStorage.files s !! md5Hash key) as [[c'|b']|]; try done.
      by destruct (Hdir b').
    + intros pattern. apply Local_DeleteAll_GetPattern.
Qed.

Lemma X2_DeleteAll_empties_witness :
  let m := fst (MemoryStorage.Put 1000 "a key" "a value" NoExpiration (MemoryStorage.mk ∅ ∅)) in
  let d := fst (LocalStorage.Put 1000 "a key" "a value" NoExpiration (LocalStorage.mk ∅ ∅)) in
  MemoryStorage.GetPattern 2000 "*" [] (fst (MemoryStorage.DeleteAll m))
  = (fst (MemoryStorage.DeleteAll m), NewReader "[]", None)
  /\ LocalStorage.Get 2000 "a key" (fst (LocalStorage.DeleteAll d))
     = (LocalStorage.lock "a key" (fst (LocalStorage.DeleteAll d)),
        NewReader_nil, Some NotExistsError).
Proof.
  intros m d.
  pose proof (proj1 (X2_DeleteAll_empties 2000) m) as Hm.
  pose proof (proj2 (X2_DeleteAll_empties 2000) d) as Hd.
  cbv zeta in Hm, Hd.
  destruct Hm as (_ & _ & _ & Hm). destruct Hd as (_ & _ & _ & Hd & _).
  split.
  - apply Hm. unfold MemoryStorage.range_order.
    rewrite Memory_DeleteAll_spec. cbn [fst MemoryStorage.data].
    by rewrite map_to_list_empty.
  - apply Hd. intros b. subst d. vm_compute. discriminate.
Defined.

(** * Operations on one key leave the other keys alone *)

(** What [Get] returns to its caller: the reader and the error. *)
Lemma Memory_Get_result (now : Z) (key : string) (s s' : MemoryStorage.t) :
  MemoryStorage.data s' !! key = MemoryStorage.data s !! key ->
  snd (fst (MemoryStorage.Get now key s')) = snd (fst (MemoryStorage.Get now key s))
  /\ snd (MemoryStorage.Get now key s') = snd (MemoryStorage.Get now key s).
Proof.
  intros H. rewrite !Memory_Get_spec, H.
  destruct (MemoryStorage.data s !! key) as [e|]; [|done].
  by destruct (isExpired now (Expiration e)).
Qed.

Lemma Local_Get_result (now : Z) (key : string) (s s' : LocalStorage.t) :
  LocalStorage.files s' !! md5Hash key = LocalStorage.files s !! md5Hash key ->
  snd (fst (LocalStorage.Get now key s')) = snd (fst (LocalStorage.Get now key s))
  /\ snd (LocalStorage.Get now key s') = snd (LocalStorage.Get now key s).
Proof.
  intros H. rewrite !Local_Get_spec. cbv zeta. rewrite H.
  destruct (LocalStorage.files s !! md5Hash key) as [[b|d]|]; try done.
  destruct (Nat.eqb (String.length b) 0); [done|].
  destruct (json.Unmarshal b) as [err|e]; [done|].
  by destruct (isExpired now (Expiration e)).
Qed.

Lemma Local_Put_files_ne (now : Z) (key value : string) (d : Z) (s : LocalStorage.t)
    (n : string) :
  n <> md5Hash key ->
  LocalStorage.files (fst (LocalStorage.Put now key value d s)) !! n = LocalStorage.files s !! n.
Proof.
  intros Hne. rewrite Local_Put_spec.
  destruct (LocalStorage.files s !! md5Hash key) as [[c|b]|];
    cbn [fst LocalStorage.files LocalStorage.lock]; rewrite ?lookup_insert_ne; done.
Qed.

Lemma Local_Delete_files_ne (key : string) (s : LocalStorage.t) (n : string) :
  n <> md5Hash key ->
  LocalStorage.files (fst (LocalStorage.Delete key s)) !! n = LocalStorage.files s !! n.
Proof.
  intros Hne. rewrite Local_Delete_spec.
  destruct (LocalStorage.files s !! md5Hash key) as [[c|[|]]|];
    cbn [fst LocalStorage.files LocalStorage.lock]; rewrite ?lookup_delete_ne; done.
Qed.

(** X3. [Put] and [Delete] of one key do not change what [Get] returns for
    another key: in memory for every other key, on the durable backend for
    every key whose MD5 file name differs from that of the key written or
    deleted. *)
Theorem X3_other_keys_unchanged (now now' : Z) (key key' value : string) (d : Z) :
  (key' <> key ->
   forall s : MemoryStorage.t,
     let got s0 := (snd (fst (MemoryStorage.Get now' key' s0)), snd (MemoryStorage.Get now' key' s0)) in
     got (fst (MemoryStorage.Put now key value d s)) = got s
     /\ got (fst (MemoryStorage.Delete key s)) = got s)
  /\
  (md5Hash key' <> md5Hash key ->
   forall s : LocalStorage.t,
     let got s0 := (snd (fst (LocalStorage.Get now' key' s0)), snd (LocalStorage.Get now' key' s0)) in
     got (fst (LocalStorage.Put now key value d s)) = got s
     /\ got (fst (LocalStorage.Delete key s)) = got s).
Proof.
  split.
  - intros Hne s got. subst got. cbv beta. split.
    + destruct (Memory_Get_result now' key' s (fst (MemoryStorage.Put now key value d s)))
        as [-> ->]; [|done].
      rewrite Memory_Put_spec. cbn [fst MemoryStorage.data]. by apply lookup_insert_ne.
    + destruct (Memory_Get_result now' key' s (fst (MemoryStorage.Delete key s)))
        as [-> ->]; [|done].
      rewrite Memory_Delete_data. by apply lookup_delete_ne.
  - intros Hne s got. subst got. cbv beta. split.
    + destruct (Local_Get_result now' key' s (fst (LocalStorage.Put now key value d s)))
        as [-> ->]; [|done].
      by apply Local_Put_files_ne.
    + destruct (Local_Get_result now' key' s (fst (LocalStorage.Delete key s)))
        as [-> ->]; [|done].
      by apply Local_Delete_files_ne.
Qed.

Lemma X3_other_keys_unchanged_witness :
  let m := fst (MemoryStorage.Put 1000 "a key" "a value" NoExpiration (MemoryStorage.mk ∅ ∅)) in
  let d := fst (LocalStorage.Put 1000 "a key" "a value" NoExpiration (LocalStorage.mk ∅ ∅)) in
  snd (fst (MemoryStorage.Get 2000 "a key" (fst (MemoryStorage.Put 1500 "another key" "x" 5 m))))
  = snd (fst (MemoryStorage.Get 2000 "a key" m))
  /\ snd (fst (LocalStorage.Get 2000 "a key" (fst (LocalStorage.Delete "another key" d))))
     = snd (fst (LocalStorage.Get 2000 "a key" d)).
Proof.
  intros m d.
  destruct (X3_other_keys_unchanged 1500 2000 "another key" "a key" "x" 5) as [Hm Hd].
  split.
  - assert ("a key"%string <> "another key"%string) as Hne by discriminate.
    pose proof (Hm Hne m) as H. cbv zeta beta in H. destruct H as [H _].
    exact (f_equal fst H).
  - assert (md5Hash "a key" <> md5Hash "another key") as Hne by (vm_compute; discriminate).
    pose proof (Hd Hne d) as H. cbv zeta beta in H. destruct H as [_ H].
    exact (f_equal fst H).
Defined.

(** * How two [Put]s compose *)

Lemma Memory_eq (s s' : MemoryStorage.t) :
  MemoryStorage.locks s = MemoryStorage.locks s' ->
  MemoryStorage.data s = MemoryStorage.data s' -> s = s'.
Proof. destruct s, s'. cbn. by intros -> ->. Qed.

Lemma Local_eq (s s' : LocalStorage.t) :
  LocalStorage.locks s = LocalStorage.locks s' ->
  LocalStorage.files s = LocalStorage.files s' -> s = s'.
Proof. destruct s, s'. cbn. by intros -> ->. Qed.

Lemma Local_Put_locks (now : Z) (key value : string) (d : Z) (s : LocalStorage.t) :
  LocalStorage.locks (fst (LocalStorage.Put now key value d s)) = {[key]} ∪ LocalStorage.locks s.
Proof.
  rewrite Local_Put_spec. by destruct (LocalStorage.files s !! md5Hash key) as [[c|b]|].
Qed.

Lemma Local_Put_files (now : Z) (key value : string) (d : Z) (s : LocalStorage.t) :
  LocalStorage.files (fst (LocalStorage.Put now key value d s))
  = match LocalStorage.files s !! md5Hash key with
    | Some (Directory _) => LocalStorage.files s
    | _ => <[md5Hash key := RegularFile (json.Marshal (mkEntry key value (newExpiration now d)))]>
             (LocalStorage.files s)
    end.
Proof.
  rewrite Local_Put_spec. by destruct (LocalStorage.files s !! md5Hash key) as [[c|b]|].
Qed.

(** X4. The last [Put] of a key wins: the store after two [Put]s of the same
    key is the store after the second one alone (table or directory, and
    mutex registry), whatever the first wrote and whether or not it
    succeeded. *)
Theorem X4_last_put_wins (now1 now2 : Z) (key value1 value2 : string) (d1 d2 : Z) :
  (forall s : MemoryStorage.t,
     fst (MemoryStorage.Put now2 key value2 d2 (fst (MemoryStorage.Put now1 key value1 d1 s)))
     = fst (MemoryStorage.Put now2 key value2 d2 s))
  /\
  (forall s : LocalStorage.t,
     LocalStorage.Put now2 key value2 d2 (fst (LocalStorage.Put now1 key value1 d1 s))
     = LocalStorage.Put now2 key value2 d2 s).
Proof.
  split.
  - intros s. rewrite !Memory_Put_spec. cbn [fst MemoryStorage.locks MemoryStorage.data].
    apply Memory_eq; cbn [MemoryStorage.locks MemoryStorage.data].
    + by rewrite (assoc_L (∪)), (idemp_L (∪)).
    + apply insert_insert_eq.
  - intros s. rewrite (Local_Put_spec now2), (Local_Put_spec now2 _ _ _ s).
    rewrite Local_Put_locks, Local_Put_files.
    destruct (LocalStorage.files s !! md5Hash key) as [[c|b]|] eqn:E;
      rewrite ?lookup_insert_eq, ?E.
    + f_equal. apply Local_eq; cbn [LocalStorage.locks LocalStorage.files];
        [by rewrite (assoc_L (∪)), (idemp_L (∪))|apply insert_insert_eq].
    + f_equal. apply Local_eq; cbn [LocalStorage.locks LocalStorage.files LocalStorage.lock].
      * rewrite Local_Put_locks. by rewrite (assoc_L (∪)), (idemp_L (∪)).
      * by rewrite Local_Put_files, E.
    + f_equal. apply Local_eq; cbn [LocalStorage.locks LocalStorage.files];
        [by rewrite (assoc_L (∪)), (idemp_L (∪))|apply insert_insert_eq].
Qed.

(** X5. [Put]s of different keys commute: the store after both is the same
    in either order, in memory for distinct keys and on the durable backend
    for keys with distinct MD5 file names. *)
Theorem X5_puts_commute (now1 now2 : Z) (key1 key2 value1 value2 : string) (d1 d2 : Z) :
  (key1 <> key2 ->
   forall s : MemoryStorage.t,
     fst (MemoryStorage.Put now2 key2 value2 d2 (fst (MemoryStorage.Put now1 key1 value1 d1 s)))
     = fst (MemoryStorage.Put now1 key1 value1 d1 (fst (MemoryStorage.Put now2 key2 value2 d2 s))))
  /\
  (md5Hash key1 <> md5Hash key2 ->
   forall s : LocalStorage.t,
     fst (LocalStorage.Put now2 key2 value2 d2 (fst (LocalStorage.Put now1 key1 value1 d1 s)))
     = fst (LocalStorage.Put now1 key1 value1 d1 (fst (LocalStorage.Put now2 key2 value2 d2 s)))).
Proof.
  split.
  - intros Hne s. rewrite !Memory_Put_spec. cbn [fst MemoryStorage.locks MemoryStorage.data].
    apply Memory_eq; cbn [MemoryStorage.locks MemoryStorage.data].
    + by rewrite !(assoc_L (∪)), (comm_L (∪) {[key2]}).
    + by apply insert_insert_ne.
  - intros Hne s. apply Local_eq.
    + rewrite !Local_Put_locks. by rewrite !(assoc_L (∪)), (comm_L (∪) {[key2]}).
    + rewrite (Local_Put_files now2 key2 value2 d2 (fst (LocalStorage.Put now1 key1 value1 d1 s))).
      rewrite (Local_Put_files now1 key1 value1 d1 (fst (LocalStorage.Put now2 key2 value2 d2 s))).
      rewrite (Local_Put_files_ne now1 key1 value1 d1 s (md5Hash key2)) by done.
      rewrite (Local_Put_files_ne now2 key2 value2 d2 s (md5Hash key1)) by done.
      rewrite !Local_Put_files.
      destruct (LocalStorage.files s !! md5Hash key1) as [[c1|b1]|] eqn:E1;
        destruct (LocalStorage.files s !! md5Hash key2) as [[c2|b2]|] eqn:E2;
        try done; by apply insert_insert_ne.
Qed.

Lemma X5_puts_commute_witness :
  let s := LocalStorage.mk ∅ ∅ in
  fst (LocalStorage.Put 2000 "another key" "another value" 5
         (fst (LocalStorage.Put 1000 "a key" "a value" NoExpiration s)))
  = fst (LocalStorage.Put 1000 "a key" "a value" NoExpiration
           (fst (LocalStorage.Put 2000 "another key" "another value" 5 s))).
Proof.
  intros s.
  apply (proj2 (X5_puts_commute 1000 2000 "a key" "another key" "a value" "another value"
                  NoExpiration 5)).
  vm_compute. discriminate.
Defined.

(** * Reads as time passes *)

Lemma isExpired_mono (now now' e : Z) :
  now <= now' -> isExpired now e = true -> isExpired now' e = true.
Proof.
  unfold isExpired. intros Hle [H1 H2]%andb_prop.
  apply Z.ltb_lt in H1, H2. apply andb_true_intro. split; apply Z.ltb_lt; lia.
Qed.

(** X6. Reads only lose entries as time passes. On a given store, the error
    a [Get] returns at some time is returned at every later time too, and a
    [Get] that returns a value at some time returned the same value at every
    earlier time. *)
Theorem X6_get_monotone_in_time (now now' : Z) (key : string) :
  now <= now' ->
  (forall (s : MemoryStorage.t) (err : error),
     snd (MemoryStorage.Get now key s) = Some err ->
     MemoryStorage.Get now' key s = (MemoryStorage.lock key s, NewReader_nil, Some err))
  /\ (forall s : MemoryStorage.t,
        snd (MemoryStorage.Get now' key s) = None ->
        MemoryStorage.Get now key s = MemoryStorage.Get now' key s)
  /\ (forall (s : LocalStorage.t) (err : error),
        snd (LocalStorage.Get now key s) = Some err ->
        LocalStorage.Get now' key s = (LocalStorage.lock key s, NewReader_nil, Some err))
  /\ (forall s : LocalStorage.t,
        snd (LocalStorage.Get now' key s) = None ->
        LocalStorage.Get now key s = LocalStorage.Get now' key s).
Proof.
  intros Hle. split; [|split; [|split]].
  - intros s err. rewrite !Memory_Get_spec.
    destruct (MemoryStorage.data s !! key) as [e|]; cbn [snd]; [|by intros [= <-]].
    destruct (isExpired now (Expiration e)) eqn:E; cbn [snd]; [|done].
    intros [= <-]. by rewrite (isExpired_mono now now' _ Hle E).
  - intros s. rewrite !Memory_Get_spec.
    destruct (MemoryStorage.data s !! key) as [e|]; cbn [snd]; [|done].
    destruct (isExpired now' (Expiration e)) eqn:E'; cbn [snd]; [done|]. intros _.
    destruct (isExpired now (Expiration e)) eqn:E; [|done].
    by rewrite (isExpired_mono now now' _ Hle E) in E'.
  - intros s err. rewrite !Local_Get_spec. cbv zeta.
    destruct (LocalStorage.files s !! md5Hash key) as [[b|d]|]; cbn [snd];
      try (by intros [= <-]).
    destruct (Nat.eqb (String.length b) 0); cbn [snd]; [by intros [= <-]|].
    destruct (json.Unmarshal b) as [e0|e]; cbn [snd]; [by intros [= <-]|].
    destruct (isExpired now (Expiration e)) eqn:E; cbn [snd]; [|done].
    intros [= <-]. by rewrite (isExpired_mono now now' _ Hle E).
  - intros s. rewrite !Local_Get_spec. cbv zeta.
    destruct (LocalStorage.files s !! md5Hash key) as [[b|d]|]; cbn [snd]; try done.
    destruct (Nat.eqb (String.length b) 0); cbn [snd]; [done|].
    destruct (json.Unmarshal b) as [e0|e]; cbn [snd]; [done|].
    destruct (isExpired now' (Expiration e)) eqn:E'; cbn [snd]; [done|]. intros _.
    destruct (isExpired now (Expiration e)) eqn:E; [|done].
    by rewrite (isExpired_mono now now' _ Hle E) in E'.
Qed.

Lemma X6_get_monotone_in_time_witness :
  let m := fst (MemoryStorage.Put 1000 "a key" "a value" 500 (MemoryStorage.mk ∅ ∅)) in
  MemoryStorage.Get 1400 "a key" m = MemoryStorage.Get 1500 "a key" m
  /\ MemoryStorage.Get 1700 "a key" m = (MemoryStorage.lock "a key" m, NewReader_nil, Some NotExistsError).
Proof.
  intros m. split.
  - apply (proj1 (proj2 (X6_get_monotone_in_time 1400 1500 "a key" ltac:(lia)))).
    vm_compute. reflexivity.
  - apply (proj1 (X6_get_monotone_in_time 1501 1700 "a key" ltac:(lia))).
    vm_compute. reflexivity.
Defined.

(** * The file name of a key *)

Lemma hex_lower_hex (n : Z) : 0 <= n < 16 -> lower_hex (json.hex n) = true.
Proof.
  intros Hn. revert n Hn.
  apply (forall_below (fun n => lower_hex (json.hex n)) 16). reflexivity.
Qed.

Lemma Sprintf_x_length (bs : list Z) :
  String.length (Sprintf_x bs) = (2 * List.length bs)%nat.
Proof. induction bs as [|b bs IH]; cbn [Sprintf_x String.length List.length]; lia. Qed.

Lemma Sprintf_x_lower_hex (bs : list Z) :
  Forall (fun b => 0 <= b < 256) bs -> string_forall lower_hex (Sprintf_x bs) = true.
Proof.
  induction 1 as [|b bs Hb _ IH]; cbn [Sprintf_x string_forall]; [done|].
  rewrite !hex_lower_hex, IH; [done| |]; Z.div_mod_to_equations; lia.
Qed.

Lemma le_bytes_range (n : nat) (x : Z) : Forall (fun b => 0 <= b < 256) (md5.le_bytes n x).
Proof.
  unfold md5.le_bytes. apply Forall_forall. intros b Hb%list_elem_of_In.
  apply in_map_iff in Hb as (i & <- & _).
  apply Z.mod_pos_bound. lia.
Qed.

Lemma le_bytes_length (n : nat) (x : Z) : List.length (md5.le_bytes n x) = n.
Proof. unfold md5.le_bytes. by rewrite length_map, length_seq. Qed.

Lemma Sum_bytes (data : string) :
  List.length (md5.Sum data) = 16%nat /\ Forall (fun b => 0 <= b < 256) (md5.Sum data).
Proof.
  unfold md5.Sum. cbv zeta.
  destruct (md5.blocks _ _ _) as [[[a b] c] d]. split.
  - by rewrite !length_app, !le_bytes_length.
  - repeat apply Forall_app_2; apply le_bytes_range.
Qed.

Lemma string_forall_contains (P : ascii -> bool) (c : ascii) (s : string) :
  string_forall P s = true -> P c = false -> filepath.contains_byte c s = false.
Proof.
  intros Hs Hc. induction s as [|x s IH]; cbn [filepath.contains_byte]; [done|].
  cbn [string_forall] in Hs. apply andb_prop in Hs as [Hx Hs].
  rewrite (IH Hs), orb_false_r. destruct (Ascii.eqb_spec x c) as [->|]; [congruence|done].
Qed.

(** X7. The file name of a key is always 32 characters, each a digit or a
    letter from [a] to [f]: whatever bytes the key holds, the name has no
    path separator and is not the cache file [memory.db] of the in-memory
    backend. *)
Theorem X7_md5Hash_file_name (key : string) :
  String.length (md5Hash key) = 32%nat
  /\ string_forall lower_hex (md5Hash key) = true
  /\ filepath.contains_byte filepath.Separator (md5Hash key) = false
  /\ md5Hash key <> "memory.db"%string.
Proof.
  destruct (Sum_bytes key) as [Hlen Hrange].
  assert (String.length (md5Hash key) = 32%nat) as H32.
  { unfold md5Hash. rewrite Sprintf_x_length, Hlen. reflexivity. }
  assert (string_forall lower_hex (md5Hash key) = true) as Hhex.
  { unfold md5Hash. by apply Sprintf_x_lower_hex. }
  split; [exact H32|]. split; [exact Hhex|]. split.
  - by apply (string_forall_contains lower_hex).
  - intros E. rewrite E in H32. discriminate.
Qed.

(** * Patterns without a malformation: the star, and literal patterns *)

Lemma Match_star (name : string) :
  filepath.Match "*" name = (negb (filepath.contains_byte filepath.Separator name), None).
Proof. reflexivity. Qed.

Lemma meta_false (c : ascii) :
  meta c = false ->
  Ascii.eqb c "*"%char = false /\ Ascii.eqb c "?"%char = false
  /\ Ascii.eqb c "["%char = false /\ Ascii.eqb c "\"%char = false.
Proof.
  unfold meta. intros H.
  apply orb_false_elim in H as [H H4]. apply orb_false_elim in H as [H H3].
  apply orb_false_elim in H as [H1 H2]. done.
Qed.

Lemma scan_literal (p : string) (inrange : bool) :
  literal p = true -> filepath.scan inrange p = (p, EmptyString).
Proof.
  revert inrange. induction p as [|c p IH]; intros inrange; cbn [literal string_forall filepath.scan];
    [done|].
  intros [Hc Hp]%andb_prop. apply negb_true_iff, meta_false in Hc as (H1 & H2 & H3 & H4).
  rewrite H4, H3, H1. cbn [andb].
  destruct (Ascii.eqb c "]"%char); by rewrite (IH _ Hp).
Qed.

Lemma scanChunk_literal (p : string) :
  literal p = true -> filepath.scanChunk p = (false, p, EmptyString).
Proof.
  intros Hp. unfold filepath.scanChunk.
  assert (filepath.skip_stars p = (false, p)) as ->.
  { destruct p as [|c p]; [done|]. cbn [filepath.skip_stars].
    cbn [literal string_forall] in Hp. apply andb_prop in Hp as [Hc _].
    apply negb_true_iff, meta_false in Hc as (-> & _). done. }
  by rewrite scan_literal.
Qed.

Lemma matchChunk_loop_literal (chunk : string) :
  forall (fuel : nat) (failed : bool) (s : string),
    literal chunk = true -> (String.length chunk < fuel)%nat ->
    filepath.matchChunk_loop fuel failed chunk s
    = if negb failed && String.prefix chunk s
      then (string_drop (String.length chunk) s, true, None)
      else (EmptyString, false, None).
Proof.
  induction chunk as [|c chunk IH]; intros fuel failed s Hlit Hfuel.
  - destruct fuel as [|fuel]; [cbn in Hfuel; lia|]. cbn [filepath.matchChunk_loop].
    destruct failed; cbn [negb andb]; [done|]. by destruct s.
  - destruct fuel as [|fuel]; [cbn in Hfuel; lia|]. cbn [String.length] in Hfuel.
    cbn [literal string_forall] in Hlit. apply andb_prop in Hlit as [Hc Hlit].
    apply negb_true_iff, meta_false in Hc as (H1 & H2 & H3 & H4).
    cbn [filepath.matchChunk_loop]. rewrite H3, H2, H4.
    destruct failed; cbn [orb negb andb].
    + rewrite IH by (done || lia). done.
    + destruct s as [|x s]; cbn [String.length Nat.eqb].
      * rewrite IH by (done || lia). done.
      * rewrite IH by (done || lia). cbn [String.prefix string_drop String.length].
        destruct (ascii_dec c x) as [->|Hne].
        -- rewrite Ascii.eqb_refl. done.
        -- apply Ascii.eqb_neq in Hne. rewrite Hne. done.
Qed.

Lemma prefix_drop_eqb (p name : string) :
  String.prefix p name && Nat.eqb (String.length (string_drop (String.length p) name)) 0
  = String.eqb p name.
Proof.
  revert name. induction p as [|c p IH]; intros name.
  - destruct name; reflexivity.
  - destruct name as [|x name]; [reflexivity|].
    cbn [String.prefix String.length string_drop String.eqb].
    destruct (ascii_dec c x) as [->|Hne].
    + rewrite Ascii.eqb_refl. apply IH.
    + apply Ascii.eqb_neq in Hne. by rewrite Hne.
Qed.

Lemma Match_loop_nil (fuel : nat) (name : string) :
  filepath.Match_loop fuel EmptyString name = (Nat.eqb (String.length name) 0, None).
Proof. by destruct fuel. Qed.

Lemma Match_literal (p name : string) :
  literal p = true -> filepath.Match p name = (String.eqb p name, None).
Proof.
  intros Hp. unfold filepath.Match. destruct p as [|c p].
  - destruct name; reflexivity.
  - cbn [String.length filepath.Match_loop]. rewrite (scanChunk_literal _ Hp).
    cbn [andb]. unfold filepath.matchChunk.
    rewrite matchChunk_loop_literal by (done || lia). cbn [negb andb].
    rewrite <- prefix_drop_eqb.
    destruct (String.prefix (String c p) name); cbn [andb orb String.length Nat.eqb negb].
    + rewrite orb_false_r.
      destruct (Nat.eqb (String.length (string_drop (S (String.length p)) name)) 0) eqn:E.
      * by rewrite Match_loop_nil, E.
      * reflexivity.
    + reflexivity.
Qed.

Lemma matches_star (key : string) :
  matches "*" key = negb (filepath.contains_byte filepath.Separator key).
Proof. unfold matches. rewrite Match_star. cbn. by rewrite andb_true_r. Qed.

Lemma matches_literal (p key : string) :
  literal p = true -> matches p key = String.eqb p key.
Proof. intros Hp. unfold matches. rewrite (Match_literal _ _ Hp). cbn. by rewrite andb_true_r. Qed.

(** X8. [GetPattern("*")], the listing the HTTP layer asks for when no
    filter is given, returns the entries that have not expired and whose key
    holds no slash, and only those: an entry stored under a key with a slash
    is never listed by the star. In memory the entries are those the
    [range] yields; on the durable backend they are the decoded contents of
    the regular files of the storage directory, every one of them, each
    once, in the order of the file names. *)
Theorem X8_GetPattern_star (now : Z) :
  let listed e :=
    negb (filepath.contains_byte "/" (Key e)) && negb (isExpired now (Expiration e)) in
  (forall (s : MemoryStorage.t) (visit : list (string * entry)),
     MemoryStorage.GetPattern now "*" visit s
     = (s, NewReader (Sprintf_array
                        (List.map object_of (List.filter listed (List.map snd visit)))), None))
  /\
  (forall s : LocalStorage.t,
     exists names : list string,
       listing (LocalStorage.files s) names
       /\ LocalStorage.GetPattern now "*" s
          = (s, NewReader (Sprintf_array
                             (List.map object_of
                                (List.filter listed
                                   (omap (decoded (LocalStorage.files s)) names)))), None)).
Proof.
  intros listed.
  assert (forall e, selected now "*" e = listed e) as Hsel.
  { intros e. unfold selected, listed. by rewrite matches_star. }
  split.
  - intros s visit. rewrite Memory_GetPattern_spec. by rewrite (List.filter_ext _ _ Hsel).
  - intros s. by apply Local_GetPattern_listed.
Qed.

Lemma X8_GetPattern_star_witness :
  let e1 := mkEntry "a key" "a value" 0 in
  let e2 := mkEntry "a/key" "another value" 0 in
  let d := LocalStorage.mk ∅ {[ md5Hash "a key" := RegularFile (json.Marshal e1);
                                md5Hash "a/key" := RegularFile (json.Marshal e2) ]} in
  LocalStorage.GetPattern 1000 "*" d
  = (d, NewReader ("[{" +:+ dquote +:+ "a key" +:+ dquote +:+ ":"
                   +:+ dquote +:+ "a value" +:+ dquote +:+ "}]"), None).
Proof.
  intros e1 e2 d.
  pose proof (X8_GetPattern_star 1000) as H. cbv zeta in H. destruct H as [_ H].
  destruct (H d) as (names & Hl & Hget).
  rewrite (listing_getAllStorageKeys _ _ Hl) in Hget.
  rewrite Hget. vm_compute. reflexivity.
Defined.

(** X9. A pattern without a star, a question mark, an opening bracket or a
    backslash matches exactly the key equal to it: [GetPattern] with such a
    pattern returns the entries whose key is the pattern and that have not
    expired. In memory the entries are those the [range] yields; on the
    durable backend they are the decoded contents of the regular files of
    the storage directory, every one of them, each once, in the order of
    the file names. *)
Theorem X9_GetPattern_literal (now : Z) (pattern : string) :
  literal pattern = true ->
  let listed e := String.eqb pattern (Key e) && negb (isExpired now (Expiration e)) in
  (forall key : string, filepath.Match pattern key = (String.eqb pattern key, None))
  /\
  (forall (s : MemoryStorage.t) (visit : list (string * entry)),
     MemoryStorage.GetPattern now pattern visit s
     = (s, NewReader (Sprintf_array
                        (List.map object_of (List.filter listed (List.map snd visit)))), None))
  /\
  (forall s : LocalStorage.t,
     exists names : list string,
       listing (LocalStorage.files s) names
       /\ LocalStorage.GetPattern now pattern s
          = (s, NewReader (Sprintf_array
                             (List.map object_of
                                (List.filter listed
                                   (omap (decoded (LocalStorage.files s)) names)))), None)).
Proof.
  intros Hp listed.
  assert (forall e, selected now pattern e = listed e) as Hsel.
  { intros e. unfold selected, listed. by rewrite matches_literal. }
  split; [intros key; by apply Match_literal|]. split.
  - intros s visit. rewrite Memory_GetPattern_spec. by rewrite (List.filter_ext _ _ Hsel).
  - intros s. by apply Local_GetPattern_listed.
Qed.

Lemma X9_GetPattern_literal_witness :
  let e1 := mkEntry "a key" "a value" 0 in
  let e2 := mkEntry "a key2" "another value" 0 in
  let m := MemoryStorage.mk ∅ {[ "a key"%string := e1; "a key2"%string := e2 ]} in
  let d := LocalStorage.mk ∅ {[ md5Hash "a key" := RegularFile (json.Marshal e1);
                                md5Hash "a key2" := RegularFile (json.Marshal e2) ]} in
  let one := "[{" +:+ dquote +:+ "a key" +:+ dquote +:+ ":"
             +:+ dquote +:+ "a value" +:+ dquote +:+ "}]" in
  filepath.Match "a key" "a key2" = (false, None)
  /\ MemoryStorage.GetPattern 1000 "a key" [("a key2"%string, e2); ("a key"%string, e1)] m
     = (m, NewReader one, None)
  /\ LocalStorage.GetPattern 1000 "a key" d = (d, NewReader one, None).
Proof.
  intros e1 e2 m d one.
  pose proof (X9_GetPattern_literal 1000 "a key" eq_refl) as H. cbv zeta in H.
  destruct H as (Hm & Hg & Hd). split; [|split].
  - rewrite Hm. reflexivity.
  - rewrite Hg. reflexivity.
  - destruct (Hd d) as (names & Hl & Hget).
    rewrite (listing_getAllStorageKeys _ _ Hl) in Hget.
    rewrite Hget. vm_compute. reflexivity.
Defined.

(** * Entries are stored under their own key *)

Lemma Memory_Get_data (now : Z) (key : string) (s : MemoryStorage.t) :
  MemoryStorage.data (fst (fst (MemoryStorage.Get now key s))) = MemoryStorage.data s.
Proof.
  rewrite Memory_Get_spec. destruct (MemoryStorage.data s !! key) as [e|]; [|done].
  by destruct (isExpired now (Expiration e)).
Qed.

(** X10. In the in-memory table every entry is stored under its own key:
    this holds of the empty table and is kept by [Put], [Delete],
    [DeleteAll], [Get] and [GetPattern], so it holds of every table built
    by the operations from an empty one. *)
Theorem X10_memory_entries_keyed :
  (forall L, keyed (MemoryStorage.mk L ∅))
  /\
  (forall s : MemoryStorage.t,
     keyed s ->
     (forall now key value d, keyed (fst (MemoryStorage.Put now key value d s)))
     /\ (forall key, keyed (fst (MemoryStorage.Delete key s)))
     /\ keyed (fst (MemoryStorage.DeleteAll s))
     /\ (forall now key, keyed (fst (fst (MemoryStorage.Get now key s))))
     /\ (forall now pattern visit,
           keyed (fst (fst (MemoryStorage.GetPattern now pattern visit s))))).
Proof.
  split.
  - intros L k e. cbn [MemoryStorage.data]. by rewrite lookup_empty.
  - intros s Hs. split; [|split; [|split; [|split]]].
    + intros now key value d k e. rewrite Memory_Put_spec. cbn [fst MemoryStorage.data].
      destruct (decide (k = key)) as [->|Hne].
      * rewrite lookup_insert_eq. by intros [= <-].
      * rewrite lookup_insert_ne by done. apply Hs.
    + intros key k e. rewrite Memory_Delete_data.
      intros [_ H]%lookup_delete_Some. by apply Hs.
    + intros k e. rewrite Memory_DeleteAll_spec. cbn [fst MemoryStorage.data].
      by rewrite lookup_empty.
    + intros now key k e. rewrite Memory_Get_data. apply Hs.
    + intros now pattern visit k e. rewrite Memory_GetPattern_spec. cbn [fst]. apply Hs.
Qed.

Lemma X10_memory_entries_keyed_witness :
  keyed (fst (MemoryStorage.Put 1000 "a key" "a value" NoExpiration (MemoryStorage.mk ∅ ∅))).
Proof.
  destruct X10_memory_entries_keyed as [H0 H].
  destruct (H (MemoryStorage.mk ∅ ∅) (H0 ∅)) as (HPut & _).
  apply HPut.
Defined.

(** * A literal pattern and [Get] agree *)

Lemma filter_key {A} (live : A -> bool) (p : string) (l : list (string * A)) :
  NoDup l.*1 ->
  List.filter (fun kv => String.eqb p (fst kv) && live (snd kv)) l
  = match list_find (fun kv => fst kv = p) l with
    | Some (_, kv) => if live (snd kv) then [kv] else []
    | None => []
    end.
Proof.
  induction l as [|[k a] l IH]; intros Hnd; cbn [List.filter fst snd]; [done|].
  cbn [fmap list_fmap fst] in Hnd. apply NoDup_cons in Hnd as [Hk Hnd].
  cbn [list_find]. destruct (decide ((k, a).1 = p)) as [Heq|Hne]; cbn [fst] in *.
  - subst k. rewrite String.eqb_refl. cbn [andb fst snd].
    assert (List.filter (fun kv : string * A => String.eqb p kv.1 && live kv.2) l = []) as ->.
    { apply filter_none. intros [k' a'] Hin. cbn [fst snd].
      destruct (String.eqb_spec p k') as [<-|]; [|done].
      destruct Hk. apply list_elem_of_fmap. by exists (p, a'). }
    by destruct (live a).
  - assert (String.eqb p k = false) as -> by (apply String.eqb_neq; congruence).
    cbn [andb]. rewrite (IH Hnd).
    destruct (list_find (fun kv : string * A => kv.1 = p) l) as [[i kv]|]; done.
Qed.

Lemma filter_map_snd {A} (f : A -> bool) (g : string * A -> bool) (l : list (string * A)) :
  (forall kv, kv ∈ l -> f (snd kv) = g kv) ->
  List.filter f (List.map snd l) = List.map snd (List.filter g l).
Proof.
  induction l as [|kv l IH]; intros H; cbn [List.map List.filter]; [done|].
  rewrite (H kv) by apply list_elem_of_here.
  rewrite IH by (intros kv' Hin; apply H; by apply list_elem_of_further).
  by destruct (g kv).
Qed.

Lemma range_order_elem (s : MemoryStorage.t) (visit : list (string * entry)) (kv : string * entry) :
  MemoryStorage.range_order s visit ->
  kv ∈ visit <-> MemoryStorage.data s !! fst kv = Some (snd kv).
Proof.
  unfold MemoryStorage.range_order. intros ->. destruct kv as [k e]. apply elem_of_map_to_list.
Qed.

Lemma range_order_NoDup (s : MemoryStorage.t) (visit : list (string * entry)) :
  MemoryStorage.range_order s visit -> NoDup visit.*1.
Proof.
  unfold MemoryStorage.range_order. intros ->. apply NoDup_fst_map_to_list.
Qed.

(** X11. On an in-memory table that stores every entry under its own key,
    [GetPattern] with a literal pattern agrees with [Get] of that key: it
    returns the array of the one object [{"key":"value"}] when [Get] returns
    the value, and the empty array when [Get] reports not-found. *)
Theorem X11_literal_pattern_agrees_with_Get (now : Z) (key : string)
    (s : MemoryStorage.t) (visit : list (string * entry)) :
  literal key = true -> keyed s -> MemoryStorage.range_order s visit ->
  MemoryStorage.GetPattern now key visit s
  = (s,
     match snd (MemoryStorage.Get now key s) with
     | None =>
       NewReader ("[" +:+ Sprintf_object key (snd (fst (MemoryStorage.Get now key s))) +:+ "]")
     | Some _ => NewReader "[]"
     end,
     None).
Proof.
  intros Hlit Hkeyed Hvisit.
  rewrite Memory_GetPattern_spec.
  rewrite (filter_map_snd _
             (fun kv => String.eqb key (fst kv) && negb (isExpired now (Expiration (snd kv))))).
  2:{ intros [k e] Hin. apply (range_order_elem s visit _ Hvisit) in Hin. cbn [fst snd] in *.
      unfold selected. rewrite (matches_literal _ _ Hlit). by rewrite (Hkeyed k e Hin). }
  rewrite (filter_key (fun e => negb (isExpired now (Expiration e))))
    by (by apply (range_order_NoDup s)).
  rewrite Memory_Get_spec.
  destruct (list_find _ visit) as [[i [k e]]|] eqn:Ef.
  - apply list_find_Some in Ef as (Hi & Hk & _). cbn [fst snd] in *. subst k.
    assert ((key, e) ∈ visit) as Hin by (by apply list_elem_of_lookup_2 in Hi).
    apply (range_order_elem s visit _ Hvisit) in Hin. cbn [fst snd] in Hin. rewrite Hin.
    destruct (isExpired now (Expiration e)); cbn [negb snd fst List.map]; [done|].
    unfold object_of. by rewrite (Hkeyed key e Hin).
  - assert (MemoryStorage.data s !! key = None) as ->; [|done].
    destruct (MemoryStorage.data s !! key) as [e|] eqn:E; [|done].
    apply list_find_None in Ef. apply (range_order_elem s visit (key, e) Hvisit) in E.
    rewrite Forall_forall in Ef. by destruct (Ef _ E).
Qed.

Lemma X11_literal_pattern_agrees_with_Get_witness :
  let e1 := mkEntry "a key" "a value" 0 in
  let e2 := mkEntry "a key2" "another value" 0 in
  let m := MemoryStorage.mk ∅ {[ "a key"%string := e1; "a key2"%string := e2 ]} in
  MemoryStorage.GetPattern 1000 "a key" [("a key"%string, e1); ("a key2"%string, e2)] m
  = (m,
     NewReader ("[{" +:+ dquote +:+ "a key" +:+ dquote +:+ ":"
                +:+ dquote +:+ "a value" +:+ dquote +:+ "}]"),
     None).
Proof.
  intros e1 e2 m.
  rewrite (X11_literal_pattern_agrees_with_Get 1000 "a key" m).
  - reflexivity.
  - reflexivity.
  - intros k e. subst m. cbn [MemoryStorage.data]. 
    intros [[<- <-]|[_ [<- <-]%lookup_singleton_Some]]%lookup_insert_Some; done.
  - unfold MemoryStorage.range_order. subst m. cbn [MemoryStorage.data].
    vm_compute. first [reflexivity | apply perm_swap].
Defined.

(** * The durable backend: a [Put] on a subdirectory, and the order of a listing *)

(** X12. A [Put] on the durable backend for a key whose MD5 file name is
    that of a subdirectory fails at the open: it returns the cannot-access
    error of [getWriter], for which [IsNotExist] is false, and leaves the
    directory as it was. *)
Theorem X12_Put_on_subdirectory (now : Z) (key value : string) (d : Z)
    (s : LocalStorage.t) (b : bool) :
  LocalStorage.files s !! md5Hash key = Some (Directory b) ->
  LocalStorage.Put now key value d s = (LocalStorage.lock key s, Some (CannotAccess EISDIR))
  /\ LocalStorage.files (fst (LocalStorage.Put now key value d s)) = LocalStorage.files s
  /\ IsNotExist (snd (LocalStorage.Put now key value d s)) = false.
Proof.
  intros H. rewrite Local_Put_spec, H. done.
Qed.

Lemma X12_Put_on_subdirectory_witness :
  let s := LocalStorage.mk ∅ {[ md5Hash "a key" := Directory true ]} in
  LocalStorage.Put 1000 "a key" "a value" NoExpiration s
  = (LocalStorage.lock "a key" s, Some (CannotAccess EISDIR))
  /\ LocalStorage.files (fst (LocalStorage.Put 1000 "a key" "a value" NoExpiration s))
     = LocalStorage.files s.
Proof.
  intros s.
  destruct (X12_Put_on_subdirectory 1000 "a key" "a value" NoExpiration s true) as (H1 & H2 & _).
  - subst s. cbn [LocalStorage.files]. apply lookup_singleton_eq.
  - split; [exact H1|exact H2].
Defined.

(** X13. [getAllStorageKeys] returns the names of the regular files of the
    storage directory (subdirectories are left out), each once, in
    increasing byte order of the names: a durable [GetPattern] visits the
    entries in the order of their MD5 file names, whatever the order in
    which they were written. *)
Theorem X13_getAllStorageKeys_listing (s : LocalStorage.t) :
  let keys := fst (LocalStorage.getAllStorageKeys s) in
  snd (LocalStorage.getAllStorageKeys s) = None
  /\ (forall name, name ∈ keys <-> exists c, LocalStorage.files s !! name = Some (RegularFile c))
  /\ NoDup keys
  /\ StronglySorted (fun a b => String.leb a b = true) keys.
Proof.
  intros keys. split; [reflexivity|]. split; [intros name; apply getAllStorageKeys_elem|].
  apply getAllStorageKeys_sorted.
Qed.

(** * The HTTP layer *)

Example Atoi_vectors :
  http.Atoi "1" = Some 1 /\ http.Atoi "-5" = Some (-5) /\ http.Atoi "+007" = Some 7
  /\ http.Atoi "" = None /\ http.Atoi "-" = None /\ http.Atoi "1s" = None
  /\ http.Atoi "1_000" = None
  /\ http.Atoi "9223372036854775807" = Some MaxInt64
  /\ http.Atoi "9223372036854775808" = None
  /\ http.Atoi "-9223372036854775808" = Some MinInt64.
Proof. repeat split. Qed.

(** The tests [TestServer_Get], [TestServer_Head] and
    [TestServer_GetWithFilter] of handlers_test.go, on the model. *)
Example TestServer_Get :
  let s0 := LocalStorage.mk ∅ ∅ in
  let '(s1, r1) := http.putHandler local_storage 1000
                     (http.mkRequest "a key" "" "" (Some "a value"%string)) s0 in
  let '(s2, r2) := http.getHandler local_storage 2000 (http.mkRequest "a key" "" "" None) s1 in
  let '(s3, r3) := http.headHandler local_storage 3000 (http.mkRequest "a key" "" "" None) s2 in
  http.Code r1 = 204 /\ http.Code r2 = 200 /\ http.Written r2 = "a value"%string
  /\ http.Code r3 = 200 /\ http.Written r3 = EmptyString.
Proof. vm_compute. repeat split. Qed.

Example TestServer_GetWithFilter :
  let s0 := LocalStorage.mk ∅ ∅ in
  let '(s1, _) := http.putHandler local_storage 1000
                    (http.mkRequest "a key" "" "" (Some "a value"%string)) s0 in
  let '(s2, _) := http.putHandler local_storage 1001
                    (http.mkRequest "another key" "" "" (Some "another value"%string)) s1 in
  let '(_, r) := http.getHandler local_storage 2000 (http.mkRequest "" "another*" "" None) s2 in
  http.Code r = 200
  /\ http.Written r = ("[{" +:+ dquote +:+ "another key" +:+ dquote +:+ ":"
                       +:+ dquote +:+ "another value" +:+ dquote +:+ "}]").
Proof. vm_compute. repeat split. Qed.

Example TestServer_PutWithExpiration :
  let s0 := LocalStorage.mk ∅ ∅ in
  let now := 1700000000000000000 in
  let '(s1, r1) := http.putHandler local_storage now
                     (http.mkRequest "a key" "" "1" (Some "a value"%string)) s0 in
  let '(_, r2) := http.getHandler local_storage (now + 2 * http.Second)
                    (http.mkRequest "a key" "" "" None) s1 in
  http.Code r1 = 204 /\ http.Code r2 = 404.
Proof. vm_compute. repeat split. Qed.

Section generic.

Context {St : Type} (storage : http.Storage St).

Lemma getHandler_spec (now : Z) (req : http.request) (s : St) :
  http.getHandler storage now req s
  = let '(s', r, err) :=
      if Nat.eqb (String.length (http.id req)) 0
      then http.GetPattern storage now
             (if Nat.eqb (String.length (http.filter req)) 0 then "*"%string
              else http.filter req) s
      else http.Get storage now (http.id req) s in
    if http.IsNotExist storage err
    then (s', http.Error "Not Found" 404)
    else (s', http.streamToWriter r).
Proof.
  unfold http.getHandler. cbv zeta.
  destruct (if Nat.eqb (String.length (http.id req)) 0 then _ else _) as [[s' r] err].
  reflexivity.
Qed.

Lemma headHandler_spec (now : Z) (req : http.request) (s : St) :
  http.headHandler storage now req s
  = let '(s', _, err) := http.Get storage now (http.id req) s in
    if http.IsNotExist storage err then (s', http.Error "Not Found" 404)
    else match err with
         | Some _ => (s', http.Error "Internal Server Error" 500)
         | None => (s', http.mkResponse 200 [] EmptyString)
         end.
Proof. reflexivity. Qed.

End generic.

Lemma putHandler_sentinel {St : Type} (storage : http.Storage St) (now : Z)
    (key flt value : string) (s : St) :
  http.putHandler storage now (http.mkRequest key flt "" (Some value)) s
  = match http.Put storage now key value NoExpiration s with
    | (s', Some _) => (s', http.Error "Internal Server Error" 500)
    | (s', None) => (s', http.WriteHeader 204)
    end.
Proof. reflexivity. Qed.

(** X14. A value written over HTTP is read back over HTTP. After
    [PUT /keys/{id}] without [expire_in], answered 204, a [GET] of the same
    key answers 200 with exactly the bytes of the request body, the content
    type [application/json] and their length as [Content-Length], at any
    later time, and a [HEAD] answers 200 with no body. This holds for the
    in-memory storage, and for the durable one unless a subdirectory has the
    file name of the key. *)
Theorem X14_http_put_then_get (now now' : Z) (key value f1 f2 e2 : string) (b2 : option string) :
  key <> EmptyString ->
  let put := http.mkRequest key f1 "" (Some value) in
  let get := http.mkRequest key f2 e2 b2 in
  let ok :=
    http.mkResponse 200
      [("Content-Type"%string, "application/json"%string);
       ("Content-Length"%string, strconv.FormatInt (Z.of_nat (String.length value)))]
      value in
  (forall s : LocalStorage.t,
     (forall b, LocalStorage.files s !! md5Hash key <> Some (Directory b)) ->
     let s1 := fst (http.putHandler local_storage now put s) in
     snd (http.putHandler local_storage now put s) = http.WriteHeader 204
     /\ snd (http.getHandler local_storage now' get s1) = ok
     /\ snd (http.headHandler local_storage now' get s1) = http.mkResponse 200 [] EmptyString)
  /\
  (forall (order : MemoryStorage.t -> list (string * entry)) (s : MemoryStorage.t),
     let s1 := fst (http.putHandler (memory_storage order) now put s) in
     snd (http.putHandler (memory_storage order) now put s) = http.WriteHeader 204
     /\ snd (http.getHandler (memory_storage order) now' get s1) = ok
     /\ snd (http.headHandler (memory_storage order) now' get s1)
        = http.mkResponse 200 [] EmptyString).
Proof.
  intros Hkey put get ok. subst put get. split.
  - intros s Hdir.
    rewrite putHandler_sentinel. cbn [http.Put local_storage].
    pose proof (proj2 (Local_Put_ok now key value NoExpiration s) Hdir) as Hput.
    pose proof (Local_Get_after_Put now now' key value NoExpiration s Hput) as Hget.
    cbv zeta in Hget. rewrite newExpiration_sentinel, isExpired_zero in Hget.
    destruct (LocalStorage.Put now key value NoExpiration s) as [s1 err] eqn:E.
    cbn [fst snd] in *. subst err. cbv zeta. cbn [fst snd].
    split; [done|].
    rewrite getHandler_spec, headHandler_spec.
    cbn [http.id http.Get local_storage]. rewrite (length_eqb_0 _ Hkey), Hget.
    cbn [http.IsNotExist local_storage IsNotExist fst snd]. done.
  - intros order s.
    rewrite putHandler_sentinel. cbn [http.Put memory_storage].
    pose proof (Memory_Get_after_Put now now' key value NoExpiration s) as Hget.
    cbv zeta in Hget. rewrite newExpiration_sentinel, isExpired_zero in Hget.
    rewrite Memory_Put_spec in *. cbv zeta. cbn [fst snd] in *.
    split; [done|].
    rewrite getHandler_spec, headHandler_spec.
    cbn [http.id http.Get memory_storage]. rewrite (length_eqb_0 _ Hkey), Hget.
    cbn [http.IsNotExist memory_storage IsNotExist fst snd]. done.
Qed.

Lemma X14_http_put_then_get_witness :
  let s := LocalStorage.mk ∅ ∅ in
  let s1 := fst (http.putHandler local_storage 1000
                   (http.mkRequest "a key" "" "" (Some "a value"%string)) s) in
  snd (http.getHandler local_storage 2000 (http.mkRequest "a key" "" "" None) s1)
  = http.mkResponse 200
      [("Content-Type"%string, "application/json"%string); ("Content-Length"%string, "7"%string)]
      "a value".
Proof.
  intros s s1.
  pose proof (X14_http_put_then_get 1000 2000 "a key" "a value" "" "" "" None) as H.
  cbv zeta in H. destruct H as [H _]; [discriminate|].
  destruct (H s) as (_ & Hget & _); [intros b; vm_compute; discriminate|].
  exact Hget.
Defined.

Lemma IsNotExist_false (err : error) : err <> NotExistsError -> IsNotExist (Some err) = false.
Proof. intros H. cbn [IsNotExist]. by rewrite bool_decide_eq_false_2. Qed.

Lemma Local_Get_error_reader (now : Z) (key : string) (s : LocalStorage.t) (err : error) :
  snd (LocalStorage.Get now key s) = Some err ->
  LocalStorage.Get now key s = (LocalStorage.lock key s, NewReader_nil, Some err).
Proof.
  rewrite Local_Get_spec. cbv zeta.
  destruct (LocalStorage.files s !! md5Hash key) as [[b|d]|]; cbn [snd]; try (by intros [= <-]).
  destruct (Nat.eqb (String.length b) 0); cbn [snd]; [by intros [= <-]|].
  destruct (json.Unmarshal b) as [e0|e]; cbn [snd]; [by intros [= <-]|].
  destruct (isExpired now (Expiration e)); cbn [snd]; [by intros [= <-]|done].
Qed.

(** X15. [getHandler] never answers 500: whatever the storage, it answers
    404 when the storage reports not-found and 200 otherwise, because the
    error of the storage is assigned again by [ioutil.ReadAll], which
    succeeds. On the durable storage, a key whose [Get] fails with another
    error (a file that does not decode, a subdirectory in place of the
    file) is answered by [GET] with 200, [Content-Length: 0] and an empty
    body, while [HEAD] of the same key answers 500. *)
Theorem X15_getHandler_never_500 (now : Z) :
  (forall (St : Type) (storage : http.Storage St) (req : http.request) (s : St),
     let resp := snd (http.getHandler storage now req s) in
     (http.Code resp = 404 /\ resp = http.Error "Not Found" 404)
     \/ (http.Code resp = 200 /\ exists value, resp = http.streamToWriter value))
  /\
  (forall (s : LocalStorage.t) (key f e : string) (b : option string) (err : error),
     key <> EmptyString ->
     snd (LocalStorage.Get now key s) = Some err -> err <> NotExistsError ->
     let req := http.mkRequest key f e b in
     snd (http.getHandler local_storage now req s)
     = http.mkResponse 200
         [("Content-Type"%string, "application/json"%string);
          ("Content-Length"%string, "0"%string)] EmptyString
     /\ snd (http.headHandler local_storage now req s)
        = http.Error "Internal Server Error" 500).
Proof.
  split.
  - intros St storage req s resp. subst resp. rewrite getHandler_spec.
    destruct (if Nat.eqb (String.length (http.id req)) 0 then _ else _) as [[s' r] err].
    destruct (http.IsNotExist storage err); cbn [snd]; [by left|].
    right. split; [done|]. by exists r.
  - intros s key f e b err Hkey Hget Hne req. subst req.
    rewrite getHandler_spec, headHandler_spec. cbn [http.id http.Get local_storage].
    rewrite (length_eqb_0 _ Hkey), (Local_Get_error_reader _ _ _ _ Hget).
    cbn [http.IsNotExist local_storage]. rewrite (IsNotExist_false _ Hne). done.
Qed.

Lemma X15_getHandler_never_500_witness :
  let s := LocalStorage.mk ∅ {[ md5Hash "a key" := RegularFile "{" ]} in
  let req := http.mkRequest "a key" "" "" None in
  snd (LocalStorage.Get 1000 "a key" s) = Some SyntaxError
  /\ http.Code (snd (http.getHandler local_storage 1000 req s)) = 200
  /\ http.Written (snd (http.getHandler local_storage 1000 req s)) = EmptyString
  /\ http.Code (snd (http.headHandler local_storage 1000 req s)) = 500.
Proof.
  intros s req.
  assert (snd (LocalStorage.Get 1000 "a key" s) = Some SyntaxError) as Hget
    by (vm_compute; reflexivity).
  destruct (proj2 (X15_getHandler_never_500 1000) s "a key" "" "" None SyntaxError)
    as [H1 H2]; [discriminate|exact Hget|discriminate|].
  split; [exact Hget|]. split; [exact (f_equal http.Code H1)|].
  split; [exact (f_equal http.Written H1)|exact (f_equal http.Code H2)].
Defined.

Lemma putHandler_seconds {St : Type} (storage : http.Storage St) (now n : Z)
    (key flt e value : string) (s : St) :
  http.Atoi e = Some n ->
  http.putHandler storage now (http.mkRequest key flt e (Some value)) s
  = match http.Put storage now key value (wrap64 (n * http.Second)) s with
    | (s', Some _) => (s', http.Error "Internal Server Error" 500)
    | (s', None) => (s', http.WriteHeader 204)
    end.
Proof.
  intros Hn. destruct e as [|c e]; [discriminate|].
  unfold http.putHandler. cbn [http.Body http.expire_in http.id String.length Nat.eqb negb].
  rewrite Hn. reflexivity.
Qed.

Lemma expiration_seconds (now n : Z) :
  0 < now -> 0 <= n -> now + n * http.Second <= MaxInt64 ->
  newExpiration now (wrap64 (n * http.Second)) = now + n * http.Second.
Proof.
  intros Hnow Hn Hmax. unfold http.Second, MaxInt64 in *.
  rewrite (wrap64_id (n * 1000000000)) by (unfold int64, MinInt64, MaxInt64; lia).
  rewrite newExpiration_duration by (unfold NoExpiration; lia).
  apply wrap64_id. unfold int64, MinInt64, MaxInt64. lia.
Qed.

(** X16. [putHandler] and [expire_in]. A request whose body cannot be read,
    or whose [expire_in] is not empty and is not a decimal integer in the
    range of [int], is answered 400 and the storage is not called. With
    [expire_in] the decimal integer [n >= 0], the entry is stored with the
    deadline [now + n] seconds: a [GET] of the key answers 200 up to and
    including the deadline and 404 after it, so [expire_in=0] gives an entry
    that is gone as soon as the clock has moved. *)
Theorem X16_putHandler_expire_in (now now' n : Z) (key value f e : string) :
  (forall (St : Type) (storage : http.Storage St) (req : http.request) (s : St),
     http.Body req = None \/
     (http.expire_in req <> EmptyString /\ http.Atoi (http.expire_in req) = None) ->
     http.putHandler storage now req s = (s, http.Error "Bad Request" 400))
  /\
  (key <> EmptyString -> http.Atoi e = Some n ->
   0 < now -> 0 <= n -> now + n * http.Second <= MaxInt64 ->
   let put := http.mkRequest key f e (Some value) in
   let get := http.mkRequest key EmptyString EmptyString None in
   (forall (order : MemoryStorage.t -> list (string * entry)) (s : MemoryStorage.t),
      let s1 := fst (http.putHandler (memory_storage order) now put s) in
      snd (http.putHandler (memory_storage order) now put s) = http.WriteHeader 204
      /\ MemoryStorage.data s1 !! key = Some (mkEntry key value (now + n * http.Second))
      /\ snd (http.getHandler (memory_storage order) now' get s1)
         = if now' <=? now + n * http.Second
           then http.streamToWriter value else http.Error "Not Found" 404)
   /\
   (forall s : LocalStorage.t,
      (forall b, LocalStorage.files s !! md5Hash key <> Some (Directory b)) ->
      let s1 := fst (http.putHandler local_storage now put s) in
      snd (http.putHandler local_storage now put s) = http.WriteHeader 204
      /\ snd (http.getHandler local_storage now' get s1)
         = if now' <=? now + n * http.Second
           then http.streamToWriter value else http.Error "Not Found" 404)).
Proof.
  split.
  - intros St storage req s [Hb|[He Ha]]; unfold http.putHandler.
    + by rewrite Hb.
    + destruct (http.Body req) as [v|]; [|done].
      cbv zeta. rewrite (length_eqb_0 _ He), Ha. done.
  - intros Hkey Hn Hnow H0 Hmax put get. subst put get.
    pose proof (expiration_seconds now n Hnow H0 Hmax) as Hexp.
    assert (isExpired now' (now + n * http.Second)
            = negb (now' <=? now + n * http.Second)) as Hle.
    { unfold isExpired.
      replace (0 <? now + n * http.Second) with true
        by (symmetry; apply Z.ltb_lt; unfold http.Second; lia).
      cbn [andb]. destruct (Z.leb_spec now' (now + n * http.Second));
        [apply Z.ltb_ge|apply Z.ltb_lt]; lia. }
    split.
    + intros order s. rewrite (putHandler_seconds _ _ _ _ _ _ _ _ Hn).
      cbn [http.Put memory_storage].
      pose proof (Memory_Get_after_Put now now' key value (wrap64 (n * http.Second)) s) as Hget.
      cbv zeta in Hget. rewrite Hexp, Hle in Hget.
      rewrite Memory_Put_spec in *. cbv zeta. cbn [fst snd MemoryStorage.data] in *.
      split; [done|]. split; [by rewrite lookup_insert_eq, Hexp|].
      rewrite getHandler_spec. cbn [http.id http.Get memory_storage].
      rewrite (length_eqb_0 _ Hkey), Hget.
      by destruct (now' <=? now + n * http.Second).
    + intros s Hdir. rewrite (putHandler_seconds _ _ _ _ _ _ _ _ Hn).
      cbn [http.Put local_storage].
      pose proof (proj2 (Local_Put_ok now key value (wrap64 (n * http.Second)) s) Hdir) as Hput.
      pose proof (Local_Get_after_Put now now' key value _ s Hput) as Hget.
      cbv zeta in Hget. rewrite Hexp, Hle in Hget.
      destruct (LocalStorage.Put now key value (wrap64 (n * http.Second)) s) as [s1 err] eqn:E.
      cbn [fst snd] in *. subst err. cbv zeta. cbn [fst snd].
      split; [done|].
      rewrite getHandler_spec. cbn [http.id http.Get local_storage].
      rewrite (length_eqb_0 _ Hkey), Hget.
      by destruct (now' <=? now + n * http.Second).
Qed.

Lemma X16_putHandler_expire_in_witness :
  let now := 1700000000000000000 in
  let put := http.mkRequest "a key" "" "1" (Some "a value"%string) in
  let get := http.mkRequest "a key" "" "" None in
  let s1 := fst (http.putHandler local_storage now put (LocalStorage.mk ∅ ∅)) in
  http.putHandler local_storage now (http.mkRequest "a key" "" "1s" (Some "a value"%string))
    (LocalStorage.mk ∅ ∅)
  = (LocalStorage.mk ∅ ∅, http.Error "Bad Request" 400)
  /\ snd (http.getHandler local_storage (now + 1000000000) get s1)
     = http.streamToWriter "a value"
  /\ snd (http.getHandler local_storage (now + 1000000001) get s1)
     = http.Error "Not Found" 404.
Proof.
  intros now put get s1. split; [|split].
  - apply (proj1 (X16_putHandler_expire_in now now 0 "" "" "" "")).
    right. split; [discriminate|reflexivity].
  - destruct (proj2 (X16_putHandler_expire_in now (now + 1000000000) 1 "a key" "a value" "" "1"))
      as [_ H]; [discriminate|reflexivity|lia|lia|unfold http.Second, MaxInt64; lia|].
    destruct (H (LocalStorage.mk ∅ ∅)) as [_ Hget]; [intros b; vm_compute; discriminate|].
    exact Hget.
  - destruct (proj2 (X16_putHandler_expire_in now (now + 1000000001) 1 "a key" "a value" "" "1"))
      as [_ H]; [discriminate|reflexivity|lia|lia|unfold http.Second, MaxInt64; lia|].
    destruct (H (LocalStorage.mk ∅ ∅)) as [_ Hget]; [intros b; vm_compute; discriminate|].
    exact Hget.
Defined.

Lemma deleteHandler_key {St : Type} (storage : http.Storage St) (key f e : string)
    (b : option string) (s : St) :
  key <> EmptyString ->
  http.deleteHandler storage (http.mkRequest key f e b) s
  = let '(s', err) := http.Delete storage key s in
    if http.IsNotExist storage err then (s', http.Error "Not Found" 404)
    else match err with
         | Some _ => (s', http.Error "Internal Server Error" 500)
         | None => (s', http.WriteHeader 204)
         end.
Proof.
  intros Hkey. unfold http.deleteHandler. cbn [http.id]. by rewrite (length_eqb_0 _ Hkey).
Qed.

Lemma deleteHandler_key_fst {St : Type} (storage : http.Storage St) (key f e : string)
    (b : option string) (s : St) :
  key <> EmptyString ->
  fst (http.deleteHandler storage (http.mkRequest key f e b) s)
  = fst (http.Delete storage key s).
Proof.
  intros Hkey. rewrite (deleteHandler_key _ _ _ _ _ _ Hkey).
  destruct (http.Delete storage key s) as [s' [err|]]; cbn [fst];
    by destruct (http.IsNotExist storage _).
Qed.

Lemma deleteHandler_key_snd {St : Type} (storage : http.Storage St) (key f e : string)
    (b : option string) (s : St) :
  key <> EmptyString ->
  snd (http.deleteHandler storage (http.mkRequest key f e b) s)
  = let err := snd (http.Delete storage key s) in
    if http.IsNotExist storage err then http.Error "Not Found" 404
    else match err with
         | Some _ => http.Error "Internal Server Error" 500
         | None => http.WriteHeader 204
         end.
Proof.
  intros Hkey. rewrite (deleteHandler_key _ _ _ _ _ _ Hkey).
  destruct (http.Delete storage key s) as [s' [err|]]; cbn [fst snd];
    by destruct (http.IsNotExist storage _).
Qed.

(** X17. [deleteHandler]. With a key, [DELETE] answers 204 when something is
    stored under the key and 404 when nothing is (on the durable storage 500
    when a non-empty subdirectory has the file name of the key); after a 204
    or a 404 a [GET] of the key answers 404 and a second [DELETE] answers
    404. Without a key, [DELETE /keys] deletes everything and always answers
    204, and the listing [GET /keys] then answers 200 with the empty array,
    whatever the filter. *)
Theorem X17_deleteHandler (now : Z) (key f e f' : string) (b : option string) :
  let del := http.mkRequest key f e b in
  let get := http.mkRequest key EmptyString EmptyString None in
  let delall := http.mkRequest EmptyString f e b in
  let listing := http.mkRequest EmptyString f' EmptyString None in
  (key <> EmptyString ->
   forall s : LocalStorage.t,
     let s1 := fst (http.deleteHandler local_storage del s) in
     snd (http.deleteHandler local_storage del s)
     = match LocalStorage.files s !! md5Hash key with
       | None => http.Error "Not Found" 404
       | Some (Directory false) => http.Error "Internal Server Error" 500
       | Some _ => http.WriteHeader 204
       end
     /\ (LocalStorage.files s !! md5Hash key <> Some (Directory false) ->
         snd (http.getHandler local_storage now get s1) = http.Error "Not Found" 404
         /\ snd (http.deleteHandler local_storage del s1) = http.Error "Not Found" 404))
  /\
  (key <> EmptyString ->
   forall (order : MemoryStorage.t -> list (string * entry)) (s : MemoryStorage.t),
     let s1 := fst (http.deleteHandler (memory_storage order) del s) in
     snd (http.deleteHandler (memory_storage order) del s)
     = match MemoryStorage.data s !! key with
       | None => http.Error "Not Found" 404
       | Some _ => http.WriteHeader 204
       end
     /\ snd (http.getHandler (memory_storage order) now get s1) = http.Error "Not Found" 404
     /\ snd (http.deleteHandler (memory_storage order) del s1) = http.Error "Not Found" 404)
  /\
  (forall s : LocalStorage.t,
     let s1 := fst (http.deleteHandler local_storage delall s) in
     snd (http.deleteHandler local_storage delall s) = http.WriteHeader 204
     /\ snd (http.getHandler local_storage now listing s1) = http.streamToWriter "[]")
  /\
  (forall (order : MemoryStorage.t -> list (string * entry)) (s : MemoryStorage.t),
     (forall s', MemoryStorage.range_order s' (order s')) ->
     let s1 := fst (http.deleteHandler (memory_storage order) delall s) in
     snd (http.deleteHandler (memory_storage order) delall s) = http.WriteHeader 204
     /\ snd (http.getHandler (memory_storage order) now listing s1) = http.streamToWriter "[]").
Proof.
  intros del get delall listing. subst del get delall listing.
  split; [|split; [|split]].
  - intros Hkey s. cbv zeta.
    rewrite (deleteHandler_key_fst _ _ _ _ _ _ Hkey), !(deleteHandler_key_snd _ _ _ _ _ _ Hkey).
    cbn [http.Delete local_storage http.IsNotExist]. cbv zeta.
    split.
    + rewrite Local_Delete_spec.
      by destruct (LocalStorage.files s !! md5Hash key) as [[c|[|]]|].
    + intros Hne. pose proof (Local_Delete_absent key s Hne) as Habs.
      rewrite getHandler_spec. cbn [http.id http.Get local_storage http.IsNotExist].
      rewrite (length_eqb_0 _ Hkey).
      rewrite Local_Get_spec, (Local_Delete_spec key (fst _)). cbv zeta. rewrite Habs. done.
  - intros Hkey order s. cbv zeta.
    rewrite (deleteHandler_key_fst _ _ _ _ _ _ Hkey), !(deleteHandler_key_snd _ _ _ _ _ _ Hkey).
    cbn [http.Delete memory_storage http.IsNotExist]. cbv zeta.
    pose proof (Memory_Delete_absent key s) as Habs.
    split; [|split].
    + rewrite Memory_Delete_spec. by destruct (MemoryStorage.data s !! key).
    + rewrite getHandler_spec. cbn [http.id http.Get memory_storage http.IsNotExist].
      rewrite (length_eqb_0 _ Hkey).
      rewrite Memory_Get_spec, Habs. done.
    + rewrite (Memory_Delete_spec key (fst _)), Habs. done.
  - intros s.
    assert (http.deleteHandler local_storage (http.mkRequest EmptyString f e b) s
            = (fst (LocalStorage.DeleteAll s), http.WriteHeader 204)) as -> by reflexivity.
    cbv zeta. cbn [fst snd]. split; [done|].
    rewrite getHandler_spec.
    cbn [http.id http.filter String.length Nat.eqb http.GetPattern local_storage].
    by rewrite Local_DeleteAll_GetPattern.
  - intros order s Horder.
    assert (http.deleteHandler (memory_storage order) (http.mkRequest EmptyString f e b) s
            = (MemoryStorage.mk (MemoryStorage.locks s) ∅, http.WriteHeader 204)) as ->.
    { unfold http.deleteHandler.
      cbn [http.id String.length Nat.eqb http.DeleteAll memory_storage].
      by rewrite Memory_DeleteAll_spec. }
    cbv zeta. cbn [fst snd]. split; [done|].
    rewrite getHandler_spec.
    cbn [http.id http.filter String.length Nat.eqb http.GetPattern memory_storage].
    rewrite Memory_GetPattern_empty by apply Horder. done.
Qed.

Lemma X17_deleteHandler_witness :
  let s := fst (LocalStorage.Put 1000 "a key" "a value" NoExpiration (LocalStorage.mk ∅ ∅)) in
  let del := http.mkRequest "a key" "" "" None in
  let s1 := fst (http.deleteHandler local_storage del s) in
  snd (http.deleteHandler local_storage del s) = http.WriteHeader 204
  /\ snd (http.getHandler local_storage 2000 (http.mkRequest "a key" "" "" None) s1)
     = http.Error "Not Found" 404
  /\ snd (http.deleteHandler local_storage del s1) = http.Error "Not Found" 404.
Proof.
  intros s del s1.
  pose proof (X17_deleteHandler 2000 "a key" "" "" "" None) as H. cbv zeta in H.
  destruct H as (H & _). specialize (H ltac:(discriminate) s). destruct H as [H1 H2].
  assert (LocalStorage.files s !! md5Hash "a key"
          = Some (RegularFile (json.Marshal (mkEntry "a key" "a value" 0)))) as Hf
    by (vm_compute; reflexivity).
  rewrite Hf in H1, H2. split; [exact H1|]. apply H2. discriminate.
Defined.

(** * The cache file of the in-memory backend *)

Lemma parse_Marshal_rest (e : entry) (fuel : nat) (rest : string) :
  json.parse_value (5 + fuel) (json.Marshal e +:+ rest)
  = Some (json.Object [("key"%string, json.Str (json.coerce 0 true (Key e)));
                       ("value"%string, json.Str (base64.EncodeToString (Value e)));
                       ("expiration"%string, json.Number (strconv.FormatInt (Expiration e)))],
          rest).
Proof.
  unfold json.Marshal. rewrite !append_assoc. cbn [Nat.add].
  rewrite parse_value_object.
  rewrite (parse_members_comma _ "key" _ _ _ eq_refl (parse_value_encode_string _ _ _)).
  rewrite (parse_members_comma _ "value" _ _ _ eq_refl (parse_value_base64 _ _ _)).
  rewrite (parse_members_last _ "expiration" _ _ _ eq_refl (parse_value_FormatInt _ _ _)).
  reflexivity.
Qed.

Lemma parse_members_head_enc (f : nat) (k x : string) :
  json.parse_members (S f) (json.encode_string k +:+ ":" +:+ x)
  = match json.parse_value f x with
    | Some (v, s4) =>
      match json.skip_space s4 with
      | String ","%char s5 =>
        match json.parse_members f s5 with
        | Some (l, rest) => Some ((json.coerce 0 true k, v) :: l, rest)
        | None => None
        end
      | String "}"%char s5 => Some ([(json.coerce 0 true k, v)], s5)
      | _ => None
      end
    | None => None
    end.
Proof.
  unfold json.encode_string, dquote. rewrite !append_assoc. cbn [String.append].
  cbn [json.parse_members json.skip_space json.is_space Ascii.eqb Bool.eqb orb].
  rewrite unquote_encode_string. reflexivity.
Qed.

Lemma concat_cons2 (sep x y : string) (l : list string) :
  String.concat sep (x :: y :: l) = x +:+ sep +:+ String.concat sep (y :: l).
Proof. reflexivity. Qed.

Lemma parse_members_table (l : list (string * entry)) :
  forall (fuel : nat) (rest : string),
    l <> [] -> (List.length l + 5 <= fuel)%nat ->
    json.parse_members fuel
      (String.concat "," (List.map MemoryCache.member l) +:+ "}" +:+ rest)
    = Some (List.map (fun kv => (json.coerce 0 true (fst kv), entry_value (snd kv))) l, rest).
Proof.
  induction l as [|kv l IH]; intros fuel rest Hne Hfuel; [done|].
  cbn [List.length] in Hfuel.
  destruct fuel as [|fuel]; [lia|].
  destruct l as [|kv' l].
  - cbn [List.map String.concat]. unfold MemoryCache.member at 1.
    rewrite !append_assoc. rewrite parse_members_head_enc.
    replace fuel with (5 + (fuel - 5))%nat by (cbn [List.length] in Hfuel; lia).
    rewrite parse_Marshal_rest. reflexivity.
  - cbn [List.map] in *. rewrite concat_cons2.
    set (tl := String.concat "," (MemoryCache.member kv' :: List.map MemoryCache.member l)) in *.
    unfold MemoryCache.member at 1.
    rewrite !append_assoc. rewrite parse_members_head_enc.
    replace fuel with (5 + (fuel - 5))%nat at 1 by (cbn [List.length] in Hfuel; lia).
    rewrite parse_Marshal_rest.
    change ("," +:+ tl +:+ "}" +:+ rest) with (String ","%char (tl +:+ "}" +:+ rest)).
    cbn [json.skip_space json.is_space Ascii.eqb Bool.eqb orb].
    rewrite IH by (done || (cbn [List.length] in *; lia)).
    reflexivity.
Qed.

Lemma append_length (a b : string) :
  String.length (a +:+ b) = (String.length a + String.length b)%nat.
Proof. induction a as [|c a IH]; cbn [String.append String.length]; [done|by rewrite IH]. Qed.

Lemma member_length (kv : string * entry) : (8 <= String.length (MemoryCache.member kv))%nat.
Proof.
  unfold MemoryCache.member, json.encode_string, dquote.
  rewrite !append_length. pose proof (Marshal_length (snd kv)). cbn [String.length]. lia.
Qed.

Lemma concat_members_length (l : list (string * entry)) :
  (8 * List.length l <= String.length (String.concat "," (List.map MemoryCache.member l)))%nat.
Proof.
  induction l as [|kv l IH]; [cbn; lia|].
  pose proof (member_length kv) as Hm.
  destruct l as [|kv' l].
  - cbn [List.map String.concat List.length]. lia.
  - cbn [List.map] in *. rewrite concat_cons2, !append_length.
    cbn [List.length] in *. lia.
Qed.

Lemma parse_table (data : gmap string entry) :
  json.parse (MemoryCache.Marshal data)
  = Some (json.Object
            (List.map (fun kv => (json.coerce 0 true (fst kv), entry_value (snd kv)))
               (merge_sort MemoryCache.key_le (map_to_list data)))).
Proof.
  unfold MemoryCache.Marshal, json.parse.
  generalize (merge_sort MemoryCache.key_le (map_to_list data)). intros [|kv l].
  - reflexivity.
  - pose proof (concat_members_length (kv :: l)) as Hlen.
    set (body := String.concat "," (List.map MemoryCache.member (kv :: l))) in *.
    assert (exists fuel, String.length ("{" +:+ body +:+ "}") = S fuel
                         /\ (List.length (kv :: l) + 5 <= fuel)%nat) as (fuel & -> & Hfuel).
    { exists (String.length (body +:+ "}")). split; [reflexivity|].
      rewrite append_length. cbn [List.length String.length] in *. lia. }
    assert (json.parse_value (S (S fuel)) ("{" +:+ body +:+ "}")
            = match json.parse_members (S fuel) (body +:+ "}" +:+ "") with
              | Some (l0, rest) => Some (json.Object l0, rest)
              | None => None
              end) as ->.
    { subst body. cbn [List.map]. destruct l as [|kv' l'].
      - cbn [String.concat List.map]. unfold MemoryCache.member, json.encode_string, dquote.
        rewrite !append_assoc. reflexivity.
      - cbn [List.map]. rewrite concat_cons2.
        generalize (String.concat "," (MemoryCache.member kv' :: List.map MemoryCache.member l')).
        intros tl. unfold MemoryCache.member, json.encode_string, dquote.
        rewrite !append_assoc. reflexivity. }
    subst body. rewrite parse_members_table by (done || lia).
    reflexivity.
Qed.

Lemma decode_entry_value (e : entry) (saved : option error) :
  int64 (Expiration e) ->
  MemoryCache.decode_entry saved (entry_value e)
  = (mkEntry (json.coerce 0 true (Key e)) (Value e) (Expiration e), saved).
Proof.
  intros He. unfold MemoryCache.decode_entry, entry_value. cbn [fold_left].
  rewrite decode_member_key, decode_member_value, base64_roundtrip.
  rewrite decode_member_expiration, (ParseInt_FormatInt _ He).
  reflexivity.
Qed.

Lemma decode_table_stable (l : list (string * entry)) (acc : gmap string entry) :
  (forall kv, kv ∈ l ->
     json.coerce 0 true (fst kv) = fst kv /\ json.coerce 0 true (Key (snd kv)) = Key (snd kv)
     /\ int64 (Expiration (snd kv))) ->
  fold_left
    (fun (st : gmap string entry * option error) (kv : string * json.value) =>
       let '(e, saved) := MemoryCache.decode_entry (snd st) (snd kv) in
       (<[fst kv := e]> (fst st), saved))
    (List.map (fun kv => (json.coerce 0 true (fst kv), entry_value (snd kv))) l) (acc, None)
  = (fold_left (fun m kv => <[fst kv := snd kv]> m) l acc, None).
Proof.
  revert acc. induction l as [|[k e] l IH]; intros acc H; cbn [List.map fold_left fst snd];
    [done|].
  destruct (H (k, e)) as (Hk & Hkey & He); [apply list_elem_of_here|]. cbn [fst snd] in *.
  rewrite decode_entry_value by done. rewrite Hk, Hkey.
  assert (mkEntry (Key e) (Value e) (Expiration e) = e) as -> by (by destruct e).
  apply IH. intros kv Hin. apply H. by apply list_elem_of_further.
Qed.

Lemma fold_insert_lookup {A} (l : list (string * A)) (acc : gmap string A) (k : string) :
  NoDup l.*1 ->
  fold_left (fun m kv => <[fst kv := snd kv]> m) l acc !! k
  = match (list_to_map l : gmap string A) !! k with
    | Some v => Some v
    | None => acc !! k
    end.
Proof.
  revert acc. induction l as [|[k0 v0] l IH]; intros acc Hnd; cbn [fold_left fst snd].
  - change (list_to_map [] : gmap string A) with (∅ : gmap string A). by rewrite lookup_empty.
  - cbn [fmap list_fmap fst] in Hnd. apply NoDup_cons in Hnd as [Hk0 Hnd].
    rewrite (IH _ Hnd).
    change (list_to_map ((k0, v0) :: l) : gmap string A)
      with (<[k0 := v0]> (list_to_map l : gmap string A)).
    destruct (decide (k = k0)) as [->|Hne].
    + rewrite !lookup_insert_eq.
      by rewrite (not_elem_of_list_to_map_1 (M := gmap string) l k0 Hk0).
    + by rewrite !lookup_insert_ne by done.
Qed.

Lemma fold_insert_table (data : gmap string entry) :
  fold_left (fun m kv => <[fst kv := snd kv]> m)
    (merge_sort MemoryCache.key_le (map_to_list data)) ∅ = data.
Proof.
  apply map_eq. intros k.
  rewrite fold_insert_lookup
    by (rewrite merge_sort_Permutation; apply NoDup_fst_map_to_list).
  rewrite lookup_empty.
  assert ((list_to_map (merge_sort MemoryCache.key_le (map_to_list data)) : gmap string entry)
          = data) as ->.
  { rewrite <- (list_to_map_to_list data) at 2.
    apply list_to_map_proper; [|apply merge_sort_Permutation].
    rewrite merge_sort_Permutation. apply NoDup_fst_map_to_list. }
  by destruct (data !! k).
Qed.

(** What the encoder writes for a table that the codec leaves as it is
    decodes to the table. *)
Lemma Unmarshal_Marshal_table (data : gmap string entry) :
  stable data -> MemoryCache.Unmarshal (MemoryCache.Marshal data) = inr (MemoryCache.Table data).
Proof.
  intros Hst. unfold MemoryCache.Unmarshal. rewrite parse_table.
  unfold MemoryCache.decode_table. rewrite decode_table_stable.
  - by rewrite fold_insert_table.
  - intros [k e] Hin. rewrite merge_sort_Permutation in Hin.
    apply elem_of_map_to_list in Hin. cbn [fst snd]. by apply Hst.
Qed.

Lemma dumpToFilesystem_spec (s : MemoryStorage.t) (d : gmap string node) :
  MemoryCache.dumpToFilesystem s d
  = match d !! MemoryCache.memoryCacheFile with
    | Some (Directory _) => (d, Some (CannotAccess EISDIR))
    | _ =>
      (<[MemoryCache.memoryCacheFile :=
           RegularFile (MemoryCache.Marshal (MemoryStorage.data s))]> d, None)
    end.
Proof.
  unfold MemoryCache.dumpToFilesystem, MemoryStorage.lockAll, LocalStorage.getWriter,
    os.OpenFile_RDWR_CREATE, os.Truncate0, os.Write0.
  generalize MemoryCache.memoryCacheFile. intros f. cbv zeta.
  destruct (d !! f) as [[c|b]|] eqn:E; rewrite ?E, ?lookup_insert_eq; try reflexivity.
  - by rewrite string_drop_nil, append_nil_r, !insert_insert_eq.
  - by rewrite string_drop_nil, append_nil_r, !insert_insert_eq.
Qed.

Lemma NewMemoryStorage_spec (d : gmap string node) :
  MemoryCache.NewMemoryStorage d
  = match d !! MemoryCache.memoryCacheFile with
    | None =>
      (<[MemoryCache.memoryCacheFile := RegularFile EmptyString]> d,
       inr (MemoryCache.Table ∅))
    | Some (RegularFile cache) =>
      (d, MemoryCache.Unmarshal
            (if Nat.eqb (String.length cache) 0 then "{}"%string else cache))
    | Some (Directory _) => (d, inl (CannotAccess EISDIR))
    end.
Proof.
  unfold MemoryCache.NewMemoryStorage, LocalStorage.getWriter, os.OpenFile_RDWR_CREATE,
    os.ReadAll.
  generalize MemoryCache.memoryCacheFile. intros f.
  destruct (d !! f) as [[c|b]|] eqn:E; rewrite ?E, ?lookup_insert_eq; reflexivity.
Qed.

Lemma stable_empty : stable ∅.
Proof. intros k e. by rewrite lookup_empty. Qed.

Lemma stable_Put (now : Z) (key value : string) (d : Z) (s : MemoryStorage.t) :
  json.coerce 0 true key = key -> stable (MemoryStorage.data s) ->
  stable (MemoryStorage.data (fst (MemoryStorage.Put now key value d s))).
Proof.
  intros Hkey Hs k e. rewrite Memory_Put_spec. cbn [fst MemoryStorage.data].
  destruct (decide (k = key)) as [->|Hne].
  - rewrite lookup_insert_eq. intros [= <-]. cbn [Key Expiration].
    split; [done|]. split; [done|]. apply newExpiration_int64.
  - rewrite lookup_insert_ne by done. apply Hs.
Qed.

Lemma stable_Delete (key : string) (s : MemoryStorage.t) :
  stable (MemoryStorage.data s) -> stable (MemoryStorage.data (fst (MemoryStorage.Delete key s))).
Proof.
  intros Hs k e. rewrite Memory_Delete_data. intros [_ H]%lookup_delete_Some. by apply Hs.
Qed.

(** X18. The cache file restores the table. When [memory.db] is not a
    subdirectory, [dumpToFilesystem] (and so [Flush]) returns nil, changes
    no other file, and leaves in [memory.db] a text from which
    [NewMemoryStorage] loads exactly the table that was dumped, for every
    table whose keys are valid UTF-8 that the JSON codec reads back
    unchanged. *)
Theorem X18_cache_file_restores_table (s : MemoryStorage.t) (d : gmap string node) :
  (forall b, d !! MemoryCache.memoryCacheFile <> Some (Directory b)) ->
  stable (MemoryStorage.data s) ->
  let d1 := fst (MemoryCache.dumpToFilesystem s d) in
  snd (MemoryCache.dumpToFilesystem s d) = None
  /\ MemoryCache.Flush s d = d1
  /\ (forall n, n <> MemoryCache.memoryCacheFile -> d1 !! n = d !! n)
  /\ MemoryCache.NewMemoryStorage d1 = (d1, inr (MemoryCache.Table (MemoryStorage.data s))).
Proof.
  intros Hdir Hst d1. subst d1. unfold MemoryCache.Flush. rewrite dumpToFilesystem_spec.
  assert (forall x : gmap string node * option error,
            match d !! MemoryCache.memoryCacheFile with
            | Some (Directory _) => (d, Some (CannotAccess EISDIR))
            | _ => x
            end = x) as Hx.
  { intros x. destruct (d !! MemoryCache.memoryCacheFile) as [[c|b]|] eqn:E; try done.
    by destruct (Hdir b). }
  rewrite Hx. cbn [fst snd]. split; [done|]. split; [done|]. split.
  - intros n Hn. by rewrite lookup_insert_ne.
  - rewrite NewMemoryStorage_spec, lookup_insert_eq.
    assert (Nat.eqb (String.length (MemoryCache.Marshal (MemoryStorage.data s))) 0 = false)
      as -> by reflexivity.
    by rewrite Unmarshal_Marshal_table.
Qed.

Lemma X18_cache_file_restores_table_witness :
  let s := fst (MemoryStorage.Put 1000 "a key" "a value" NoExpiration (MemoryStorage.mk ∅ ∅)) in
  let d1 := fst (MemoryCache.dumpToFilesystem s ∅) in
  snd (MemoryCache.dumpToFilesystem s ∅) = None
  /\ MemoryCache.NewMemoryStorage d1 = (d1, inr (MemoryCache.Table (MemoryStorage.data s))).
Proof.
  intros s d1.
  destruct (X18_cache_file_restores_table s ∅) as (H1 & _ & _ & H2).
  - intros b. by rewrite lookup_empty.
  - apply stable_Put; [reflexivity|apply stable_empty].
  - split; [exact H1|exact H2].
Defined.

(** X19. The tables the operations build survive the codec. A key that is
    ASCII is read back unchanged by the JSON codec; the empty table is
    stable, [Put] of a key the codec reads back unchanged keeps a table
    stable (whatever the value and the expiration argument), and so do
    [Delete] and [DeleteAll]. *)
Theorem X19_operations_keep_table_stable :
  (forall key : string,
     string_forall (fun c => byte_val c <? 128) key = true -> json.coerce 0 true key = key)
  /\ stable ∅
  /\ (forall (s : MemoryStorage.t),
        stable (MemoryStorage.data s) ->
        (forall now key value d,
           json.coerce 0 true key = key ->
           stable (MemoryStorage.data (fst (MemoryStorage.Put now key value d s))))
        /\ (forall key, stable (MemoryStorage.data (fst (MemoryStorage.Delete key s))))
        /\ stable (MemoryStorage.data (fst (MemoryStorage.DeleteAll s)))).
Proof.
  split; [exact coerce_ascii|]. split; [exact stable_empty|].
  intros s Hs. split; [|split].
  - intros now key value d Hkey. by apply stable_Put.
  - intros key. by apply stable_Delete.
  - rewrite Memory_DeleteAll_spec. apply stable_empty.
Qed.

Lemma X19_operations_keep_table_stable_witness :
  stable (MemoryStorage.data
            (fst (MemoryStorage.Put 1000 "a key" "a value" 5 (MemoryStorage.mk ∅ ∅)))).
Proof.
  destruct X19_operations_keep_table_stable as (Hascii & Hempty & Hops).
  destruct (Hops (MemoryStorage.mk ∅ ∅) Hempty) as (HPut & _).
  apply HPut. apply Hascii. reflexivity.
Defined.

(** X20. The edges of [NewMemoryStorage]. Without a cache file it creates
    an empty one and starts from the empty table; an empty cache file also
    gives the empty table; the literal [null] leaves the map nil; a cache
    that is not JSON gives the syntax error and no storage; a subdirectory
    named [memory.db] gives the cannot-access error, for
    [dumpToFilesystem] too, which then leaves the directory as it is. *)
Theorem X20_NewMemoryStorage_edges (d : gmap string node) :
  let f := MemoryCache.memoryCacheFile in
  (d !! f = None ->
   MemoryCache.NewMemoryStorage d
   = (<[f := RegularFile EmptyString]> d, inr (MemoryCache.Table ∅)))
  /\ (d !! f = Some (RegularFile EmptyString) ->
      MemoryCache.NewMemoryStorage d = (d, inr (MemoryCache.Table ∅)))
  /\ (d !! f = Some (RegularFile "null") ->
      MemoryCache.NewMemoryStorage d = (d, inr MemoryCache.NilTable))
  /\ (forall cache, d !! f = Some (RegularFile cache) ->
      cache <> EmptyString -> json.parse cache = None ->
      MemoryCache.NewMemoryStorage d = (d, inl SyntaxError))
  /\ (forall b, d !! f = Some (Directory b) ->
      MemoryCache.NewMemoryStorage d = (d, inl (CannotAccess EISDIR))
      /\ forall s, MemoryCache.dumpToFilesystem s d = (d, Some (CannotAccess EISDIR))).
Proof.
  intros f. subst f. repeat split.
  - intros H. by rewrite NewMemoryStorage_spec, H.
  - intros H. by rewrite NewMemoryStorage_spec, H.
  - intros H. by rewrite NewMemoryStorage_spec, H.
  - intros cache H Hne Hp. rewrite NewMemoryStorage_spec, H, (length_eqb_0 _ Hne).
    unfold MemoryCache.Unmarshal. by rewrite Hp.
  - by rewrite NewMemoryStorage_spec, H.
  - intros s. by rewrite dumpToFilesystem_spec, H.
Qed.

Lemma X20_NewMemoryStorage_edges_witness :
  MemoryCache.NewMemoryStorage ∅
  = ({[ MemoryCache.memoryCacheFile := RegularFile EmptyString ]}, inr (MemoryCache.Table ∅))
  /\ MemoryCache.NewMemoryStorage {[ MemoryCache.memoryCacheFile := RegularFile "{" ]}
     = ({[ MemoryCache.memoryCacheFile := RegularFile "{" ]}, inl SyntaxError).
Proof.
  split.
  - destruct (X20_NewMemoryStorage_edges ∅) as (H & _). rewrite H; [|apply lookup_empty].
    by rewrite insert_empty.
  - destruct (X20_NewMemoryStorage_edges {[ MemoryCache.memoryCacheFile := RegularFile "{" ]})
      as (_ & _ & _ & H & _).
    apply (H "{"%string); [apply lookup_singleton_eq|discriminate|reflexivity].
Defined.

(** * A literal prefix followed by a star *)

Lemma scan_literal_star (p rest : string) :
  literal p = true ->
  filepath.scan false (p +:+ String "*"%char rest) = (p, String "*"%char rest).
Proof.
  induction p as [|c p IH]; cbn [literal string_forall String.append filepath.scan].
  - intros _. reflexivity.
  - intros [Hc Hp]%andb_prop. apply negb_true_iff, meta_false in Hc as (H1 & H2 & H3 & H4).
    rewrite H4, H3, H1. cbn [andb].
    destruct (Ascii.eqb c "]"%char); by rewrite (IH Hp).
Qed.

Lemma Match_prefix_star (p name : string) :
  literal p = true ->
  filepath.Match (p +:+ "*") name
  = (String.prefix p name
     && negb (filepath.contains_byte filepath.Separator (string_drop (String.length p) name)),
     None).
Proof.
  intros Hp. destruct p as [|c p].
  - cbn [String.append String.prefix String.length string_drop andb]. by destruct name.
  - unfold filepath.Match. cbn [String.append String.length filepath.Match_loop].
    assert (filepath.scanChunk (String c (p +:+ "*")) = (false, String c p, "*"%string)) as ->.
    { unfold filepath.scanChunk.
      assert (filepath.skip_stars (String c (p +:+ "*")) = (false, String c (p +:+ "*"))) as ->.
      { cbn [filepath.skip_stars]. cbn [literal string_forall] in Hp.
        apply andb_prop in Hp as [Hc _].
        apply negb_true_iff, meta_false in Hc as (-> & _). done. }
      change (String c (p +:+ "*")) with (String c p +:+ String "*"%char EmptyString).
      by rewrite scan_literal_star. }
    cbn [andb]. unfold filepath.matchChunk.
    rewrite matchChunk_loop_literal by (done || lia). cbn [negb andb].
    destruct (String.prefix (String c p) name); cbn [andb orb String.length Nat.eqb negb].
    + rewrite orb_true_r.
      destruct (String.length (p +:+ "*")) as [|fuel] eqn:E.
      { destruct p; discriminate E. }
      reflexivity.
    + reflexivity.
Qed.

Lemma matches_prefix_star (p key : string) :
  literal p = true ->
  matches (p +:+ "*") key
  = String.prefix p key
    && negb (filepath.contains_byte filepath.Separator (string_drop (String.length p) key)).
Proof.
  intros Hp. unfold matches. rewrite (Match_prefix_star _ _ Hp). cbn. by rewrite andb_true_r.
Qed.

(** X21. A literal prefix followed by a star, the form of filter the tests
    use ([another*]), matches the keys that start with the prefix and have
    no slash after it: [GetPattern] with such a pattern returns the entries
    with such a key that have not expired, and reports no error. In memory
    the entries are those the [range] yields; on the durable backend they
    are the decoded contents of the regular files of the storage directory,
    every one of them, each once, in the order of the file names. *)
Theorem X21_GetPattern_prefix_star (now : Z) (p : string) :
  literal p = true ->
  let listed e :=
    String.prefix p (Key e)
    && negb (filepath.contains_byte "/" (string_drop (String.length p) (Key e)))
    && negb (isExpired now (Expiration e)) in
  (forall (s : MemoryStorage.t) (visit : list (string * entry)),
     MemoryStorage.GetPattern now (p +:+ "*") visit s
     = (s, NewReader (Sprintf_array
                        (List.map object_of (List.filter listed (List.map snd visit)))), None))
  /\
  (forall s : LocalStorage.t,
     exists names : list string,
       listing (LocalStorage.files s) names
       /\ LocalStorage.GetPattern now (p +:+ "*") s
          = (s, NewReader (Sprintf_array
                             (List.map object_of
                                (List.filter listed
                                   (omap (decoded (LocalStorage.files s)) names)))), None)).
Proof.
  intros Hp listed.
  assert (forall e, selected now (p +:+ "*") e = listed e) as Hsel.
  { intros e. unfold selected, listed. by rewrite matches_prefix_star. }
  split.
  - intros s visit. rewrite Memory_GetPattern_spec. by rewrite (List.filter_ext _ _ Hsel).
  - intros s. by apply Local_GetPattern_listed.
Qed.

Lemma X21_GetPattern_prefix_star_witness :
  let e1 := mkEntry "a key" "a value" 0 in
  let e2 := mkEntry "another key" "another value" 0 in
  let m := MemoryStorage.mk ∅ {[ "a key"%string := e1; "another key"%string := e2 ]} in
  let d := LocalStorage.mk ∅ {[ md5Hash "a key" := RegularFile (json.Marshal e1);
                                md5Hash "another key" := RegularFile (json.Marshal e2) ]} in
  let one := "[{" +:+ dquote +:+ "another key" +:+ dquote +:+ ":"
             +:+ dquote +:+ "another value" +:+ dquote +:+ "}]" in
  MemoryStorage.GetPattern 1000 "another*" [("a key"%string, e1); ("another key"%string, e2)] m
  = (m, NewReader one, None)
  /\ LocalStorage.GetPattern 1000 "another*" d = (d, NewReader one, None).
Proof.
  intros e1 e2 m d one.
  pose proof (X21_GetPattern_prefix_star 1000 "another" eq_refl) as H. cbv zeta in H.
  destruct H as [Hm Hd].
  change "another*"%string with ("another" +:+ "*"). split.
  - rewrite Hm. reflexivity.
  - destruct (Hd d) as (names & Hl & Hget).
    rewrite (listing_getAllStorageKeys _ _ Hl) in Hget.
    rewrite Hget. vm_compute. reflexivity.
Defined.

(** * Writing into an empty store, then listing *)

(** X22. A [Put] into an empty store, then a listing. [GetPattern] returns
    the array of the one object of the new entry when the pattern matches
    its key and its expiration has not passed, and the empty array
    otherwise. In memory the object carries the key as it was given; on the
    durable backend it carries the key as the JSON codec reads it back, in
    which every byte that is not valid UTF-8 has become U+FFFD. *)
Theorem X22_put_then_list (now now' : Z) (key value pattern : string) (d : Z)
    (L : gset string) :
  let live := negb (isExpired now' (newExpiration now d)) in
  (forall visit : list (string * entry),
     let s1 := fst (MemoryStorage.Put now key value d (MemoryStorage.mk L ∅)) in
     MemoryStorage.range_order s1 visit ->
     MemoryStorage.GetPattern now' pattern visit s1
     = (s1,
        NewReader (if matches pattern key && live
                   then "[" +:+ Sprintf_object key value +:+ "]" else "[]"),
        None))
  /\
  (let s1 := fst (LocalStorage.Put now key value d (LocalStorage.mk L ∅)) in
   snd (LocalStorage.Put now key value d (LocalStorage.mk L ∅)) = None
   /\ LocalStorage.GetPattern now' pattern s1
      = (s1,
         NewReader (if matches pattern (json.coerce 0 true key) && live
                    then "[" +:+ Sprintf_object (json.coerce 0 true key) value +:+ "]"
                    else "[]"),
         None)).
Proof.
  intros live. split.
  - intros visit s1 Hvisit. subst s1. rewrite Memory_Put_spec in *. cbn [fst] in *.
    unfold MemoryStorage.range_order in Hvisit. cbn [MemoryStorage.data] in Hvisit.
    rewrite insert_empty, map_to_list_singleton in Hvisit.
    apply Permutation_singleton_r in Hvisit. subst visit.
    rewrite Memory_GetPattern_spec. cbn [List.map List.filter snd].
    unfold selected. cbn [Key Expiration]. fold live.
    destruct (matches pattern key && live); [|done].
    cbn [List.map]. unfold object_of. cbn [Key Value]. unfold Sprintf_array.
    cbn [String.concat]. done.
  - intros s1.
    assert (snd (LocalStorage.Put now key value d (LocalStorage.mk L ∅)) = None) as Hput.
    { apply Local_Put_ok. intros b. cbn [LocalStorage.files]. by rewrite lookup_empty. }
    split; [exact Hput|].
    pose proof (Local_Put_stored now key value d _ Hput) as Hst. fold s1 in Hst.
    rewrite Local_GetPattern_spec.
    assert (fst (LocalStorage.getAllStorageKeys s1) = [md5Hash key]) as ->.
    { apply singleton_list; [apply getAllStorageKeys_sorted|].
      intros n. rewrite getAllStorageKeys_elem. subst s1. rewrite Local_Put_spec.
      cbn [LocalStorage.files]. rewrite lookup_empty. cbn [fst LocalStorage.files].
      rewrite insert_empty. split.
      - intros [c [-> _]%lookup_singleton_Some]. done.
      - intros ->. eexists. apply lookup_singleton_eq. }
    cbn [omap list_omap]. rewrite Hst. cbn [List.filter].
    unfold selected. cbn [Key Expiration]. fold live.
    destruct (matches pattern (json.coerce 0 true key) && live); [|done].
    cbn [List.map]. unfold object_of. cbn [Key Value]. unfold Sprintf_array.
    cbn [String.concat]. done.
Qed.

Lemma X22_put_then_list_witness :
  let s1 := fst (MemoryStorage.Put 1000 "a key" "a value" NoExpiration (MemoryStorage.mk ∅ ∅)) in
  MemoryStorage.GetPattern 2000 "a*" [("a key"%string, mkEntry "a key" "a value" 0)] s1
  = (s1, NewReader ("[{" +:+ dquote +:+ "a key" +:+ dquote +:+ ":"
                    +:+ dquote +:+ "a value" +:+ dquote +:+ "}]"), None).
Proof.
  intros s1.
  pose proof (proj1 (X22_put_then_list 1000 2000 "a key" "a value" "a*" NoExpiration ∅)) as H.
  cbv zeta in H. rewrite H.
  - reflexivity.
  - unfold MemoryStorage.range_order. vm_compute. reflexivity.
Defined.

(** * The two backends side by side *)

Lemma holds_Get (K : string -> Prop) (m : MemoryStorage.t) (d : LocalStorage.t)
    (now : Z) (key : string) :
  holds K m d -> K key ->
  snd (fst (LocalStorage.Get now key d)) = snd (fst (MemoryStorage.Get now key m))
  /\ snd (LocalStorage.Get now key d) = snd (MemoryStorage.Get now key m).
Proof.
  intros (_ & Hf & Hi) Hk. rewrite Local_Get_spec, Memory_Get_spec. cbv zeta.
  rewrite (Hf key Hk).
  destruct (MemoryStorage.data m !! key) as [e|] eqn:E; cbn [fmap option_fmap option_map];
    [|done].
  rewrite Marshal_nonempty, (Unmarshal_Marshal e (Hi key e E)). cbn [Expiration Value].
  by destruct (isExpired now (Expiration e)).
Qed.

Lemma holds_Put (K : string -> Prop) (m : MemoryStorage.t) (d : LocalStorage.t)
    (now : Z) (key value : string) (dur : Z) :
  holds K m d -> K key ->
  snd (LocalStorage.Put now key value dur d) = None
  /\ holds K (fst (MemoryStorage.Put now key value dur m))
       (fst (LocalStorage.Put now key value dur d)).
Proof.
  intros (Hinj & Hf & Hi) Hk.
  assert (forall b, LocalStorage.files d !! md5Hash key <> Some (Directory b)) as Hdir.
  { intros b. rewrite (Hf key Hk). by destruct (MemoryStorage.data m !! key). }
  split; [by apply Local_Put_ok|].
  split; [exact Hinj|]. split.
  - intros key' Hk'. rewrite Local_Put_files, Memory_Put_spec. cbn [fst MemoryStorage.data].
    assert (forall x : gmap string node,
              match LocalStorage.files d !! md5Hash key with
              | Some (Directory _) => LocalStorage.files d
              | _ => x
              end = x) as ->.
    { intros x. destruct (LocalStorage.files d !! md5Hash key) as [[c|b]|] eqn:E; try done.
      by destruct (Hdir b). }
    destruct (decide (key' = key)) as [->|Hne].
    + by rewrite !lookup_insert_eq.
    + rewrite !lookup_insert_ne; [by apply Hf|done|].
      intros E. apply Hne. symmetry. by apply Hinj.
  - intros key' e. rewrite Memory_Put_spec. cbn [fst MemoryStorage.data].
    destruct (decide (key' = key)) as [->|Hne].
    + rewrite lookup_insert_eq. intros [= <-]. cbn [Expiration]. apply newExpiration_int64.
    + rewrite lookup_insert_ne by done. apply Hi.
Qed.

Lemma holds_Delete (K : string -> Prop) (m : MemoryStorage.t) (d : LocalStorage.t)
    (key : string) :
  holds K m d -> K key ->
  snd (LocalStorage.Delete key d) = snd (MemoryStorage.Delete key m)
  /\ holds K (fst (MemoryStorage.Delete key m)) (fst (LocalStorage.Delete key d)).
Proof.
  intros (Hinj & Hf & Hi) Hk. split.
  - rewrite Local_Delete_spec, Memory_Delete_spec, (Hf key Hk).
    by destruct (MemoryStorage.data m !! key).
  - split; [exact Hinj|]. split.
    + intros key' Hk'. rewrite Memory_Delete_data.
      destruct (decide (key' = key)) as [->|Hne].
      * rewrite lookup_delete_eq. cbn [fmap option_fmap option_map].
        apply Local_Delete_absent. rewrite (Hf key Hk).
        by destruct (MemoryStorage.data m !! key).
      * rewrite lookup_delete_ne by done. rewrite Local_Delete_files_ne; [by apply Hf|].
        intros E. apply Hne. by apply Hinj.
    + intros key' e. rewrite Memory_Delete_data. intros [_ H]%lookup_delete_Some.
      by apply (Hi key').
Qed.

Lemma holds_DeleteAll (K : string -> Prop) (m : MemoryStorage.t) (d : LocalStorage.t) :
  holds K m d ->
  snd (LocalStorage.DeleteAll d) = snd (MemoryStorage.DeleteAll m)
  /\ holds K (fst (MemoryStorage.DeleteAll m)) (fst (LocalStorage.DeleteAll d)).
Proof.
  intros (Hinj & Hf & Hi). split; [reflexivity|].
  split; [exact Hinj|]. rewrite Memory_DeleteAll_spec. cbn [fst MemoryStorage.data]. split.
  - intros key Hk. rewrite Local_DeleteAll_files, (Hf key Hk), lookup_empty.
    by destruct (MemoryStorage.data m !! key).
  - intros key e. by rewrite lookup_empty.
Qed.

(** X23. The two backends agree. When a storage directory holds the table
    of an in-memory storage for a set of keys on which MD5 has no collision
    (as it does when both are empty), then for every key of the set [Get]
    returns the same bytes and the same error on both backends at any time,
    [Put] returns nil on both, [Delete] and [DeleteAll] return the same
    error, and after each of them the directory again holds the table. *)
Theorem X23_backends_agree (K : string -> Prop) :
  (forall k1 k2, K k1 -> K k2 -> md5Hash k1 = md5Hash k2 -> k1 = k2) ->
  (forall L L', holds K (MemoryStorage.mk L ∅) (LocalStorage.mk L' ∅))
  /\
  (forall (m : MemoryStorage.t) (d : LocalStorage.t),
     holds K m d ->
     (forall now key, K key ->
        snd (fst (LocalStorage.Get now key d)) = snd (fst (MemoryStorage.Get now key m))
        /\ snd (LocalStorage.Get now key d) = snd (MemoryStorage.Get now key m))
     /\ (forall now key value dur, K key ->
           snd (LocalStorage.Put now key value dur d) = None
           /\ snd (MemoryStorage.Put now key value dur m) = None
           /\ holds K (fst (MemoryStorage.Put now key value dur m))
                (fst (LocalStorage.Put now key value dur d)))
     /\ (forall key, K key ->
           snd (LocalStorage.Delete key d) = snd (MemoryStorage.Delete key m)
           /\ holds K (fst (MemoryStorage.Delete key m)) (fst (LocalStorage.Delete key d)))
     /\ (snd (LocalStorage.DeleteAll d) = snd (MemoryStorage.DeleteAll m)
         /\ holds K (fst (MemoryStorage.DeleteAll m)) (fst (LocalStorage.DeleteAll d)))).
Proof.
  intros Hinj. split.
  - intros L L'. split; [exact Hinj|]. split.
    + intros key _. cbn [LocalStorage.files MemoryStorage.data]. by rewrite !lookup_empty.
    + intros key e. cbn [MemoryStorage.data]. by rewrite lookup_empty.
  - intros m d H. split; [|split; [|split]].
    + intros now key Hk. by apply (holds_Get K).
    + intros now key value dur Hk.
      destruct (holds_Put K m d now key value dur H Hk) as [H1 H2]. done.
    + intros key Hk. by apply holds_Delete.
    + by apply holds_DeleteAll.
Qed.

Lemma X23_backends_agree_witness :
  let K := fun k : string => k = "a key"%string \/ k = "another key"%string in
  let m := fst (MemoryStorage.Put 1500 "another key" "another value" 10
                  (fst (MemoryStorage.Put 1000 "a key" "a value" NoExpiration
                          (MemoryStorage.mk ∅ ∅)))) in
  let d := fst (LocalStorage.Put 1500 "another key" "another value" 10
                  (fst (LocalStorage.Put 1000 "a key" "a value" NoExpiration
                          (LocalStorage.mk ∅ ∅)))) in
  holds K m d
  /\ snd (LocalStorage.Get 2000 "another key" d) = snd (MemoryStorage.Get 2000 "another key" m).
Proof.
  intros K m d.
  assert (forall k1 k2, K k1 -> K k2 -> md5Hash k1 = md5Hash k2 -> k1 = k2) as Hinj.
  { intros k1 k2 [->| ->] [->| ->] E; [reflexivity|exfalso|exfalso|reflexivity];
      vm_compute in E; discriminate E. }
  pose proof (X23_backends_agree K Hinj) as [H0 Hstep].
  pose proof (proj1 (proj2 (Hstep _ _ (H0 ∅ ∅))) 1000 "a key"%string "a value"%string
                NoExpiration (or_introl eq_refl)) as (_ & _ & H1).
  pose proof (proj1 (proj2 (Hstep _ _ H1)) 1500 "another key"%string "another value"%string
                10 (or_intror eq_refl)) as (_ & _ & H2).
  split; [exact H2|].
  exact (proj2 (proj1 (Hstep _ _ H2) 2000 "another key"%string (or_intror eq_refl))).
Defined.

